(** * osmium fileinfo: the streaming analyzer, its three output views and
      the validation of the --get key

    A shallow embedding of [src/command_fileinfo.cpp]:
    - [InfoHandler] (the handler struct and its five callbacks),
    - [HumanReadableOutput], [JSONOutput], [SimpleOutput],
    - [CommandFileinfo::setup], with the parsing of the command line and
      the helpers of the base class [Command] as parameters,
    - [CommandFileinfo::run], whose result is what has been written to
      [std::cout] and the exception that ended it, if one did.

    The file includes libosmium and boost headers.  The few library
    functions the handler calls are collected in [Module Osmium] below; they
    follow the library's documented behaviour and are the only definitions
    that have no counterpart in [src/]. *)

From Stdlib Require Import ZArith List String Ascii Bool Lia.
From Stdlib Require DecimalString OrderedTypeEx.
Import ListNotations.
Open Scope Z_scope.

(* ================================================================== *)
(** * Library layer: what the handler uses from libosmium and boost     *)
(* ================================================================== *)

Module Osmium.

(** ** [osmium::item_type]: an enum over [uint16_t] *)

Inductive item_type : Type :=
| undefined | node | way | relation | area | changeset.

Definition item_type_value (t : item_type) : Z :=
  match t with
  | undefined => 0
  | node      => 1
  | way       => 2
  | relation  => 3
  | area      => 4
  | changeset => 5
  end.

(** [==], [!=] and [>] on the enum compare the underlying values. *)
Definition item_type_eqb (a b : item_type) : bool :=
  item_type_value a =? item_type_value b.

Definition item_type_gtb (a b : item_type) : bool :=
  item_type_value a >? item_type_value b.

(** ** [osmium::object_id_type] is [int64_t]; ids are kept as [Z]. *)

(** [osmium::id_order]: compares [(id > 0, |id|)] lexicographically, so
    zero comes first, then negative ids, then positive ids, each group
    by absolute value. *)
Definition id_order (lhs rhs : Z) : bool :=
  let l := lhs >? 0 in
  let r := rhs >? 0 in
  if Bool.eqb l r then Z.abs lhs <? Z.abs rhs
  else negb l && r.

(** ** [osmium::Timestamp]: seconds since the epoch in a [uint32_t];
    the value 0 is the unset (invalid) timestamp. *)

Definition Timestamp := Z.

Definition timestamp_valid (t : Timestamp) : bool := negb (t =? 0).
Definition start_of_time : Timestamp := 1.
Definition end_of_time : Timestamp := 0xFFFFFFFF.

(** ** [osmium::min_op] / [osmium::max_op] *)

Definition min_op_update (m value : Z) : Z :=
  if value <? m then value else m.

Definition max_op_update (m value : Z) : Z :=
  if value >? m then value else m.

(** ** [osmium::Location]: fixed-point coordinates in two [int32_t] *)

Record Location : Type := mkLocation { x : Z; y : Z }.

Definition undefined_coordinate : Z := 2147483647.
Definition undefined_location : Location :=
  mkLocation undefined_coordinate undefined_coordinate.

(** [explicit operator bool]: the location is defined. *)
Definition location_defined (l : Location) : bool :=
  negb (x l =? undefined_coordinate) && negb (y l =? undefined_coordinate).

(** [valid()]: inside the coordinate range (precision 10^7). *)
Definition location_valid (l : Location) : bool :=
  (-1800000000 <=? x l) && (x l <=? 1800000000) &&
  (-900000000 <=? y l) && (y l <=? 900000000).

(** ** [osmium::Box] *)

Record Box : Type := mkBox { bottom_left : Location; top_right : Location }.

Definition empty_box : Box := mkBox undefined_location undefined_location.

(** [Box::extend(const Location&)] *)
Definition box_extend (b : Box) (l : Location) : Box :=
  if location_valid l then
    if location_defined (bottom_left b) then
      let bl := bottom_left b in
      let tr := top_right b in
      let blx := if x l <? x bl then x l else x bl in
      let trx := if x l >? x tr then x l else x tr in
      let bly := if y l <? y bl then y l else y bl in
      let try_ := if y l >? y tr then y l else y tr in
      mkBox (mkLocation blx bly) (mkLocation trx try_)
    else mkBox l l
  else b.

(** [Box::contains]: the box is defined and the point lies inside. *)
Definition box_contains (b : Box) (p : Location) : bool :=
  location_defined (bottom_left b) && location_defined (top_right b) &&
  (x (bottom_left b) <=? x p) && (x p <=? x (top_right b)) &&
  (y (bottom_left b) <=? y p) && (y p <=? y (top_right b)).

(** ** The entities a reader delivers *)

Record OSMObject : Type := mkOSMObject {
  obj_id        : Z;                      (* int64_t *)
  obj_visible   : bool;
  obj_version   : Z;                      (* uint32_t *)
  obj_timestamp : Timestamp;
  obj_uid       : Z;                      (* uint32_t *)
  obj_user      : string;
  obj_tags      : list (string * string)
}.

Record Node : Type := mkNode {
  node_object   : OSMObject;
  node_location : Location
}.

Record NodeRef : Type := mkNodeRef {
  nr_ref      : Z;
  nr_location : Location
}.

Record Way : Type := mkWay {
  way_object : OSMObject;
  way_nodes  : list NodeRef
}.

Record RelationMember : Type := mkRelationMember {
  member_ref  : Z;
  member_type : item_type;
  member_role : string
}.

Record Relation : Type := mkRelation {
  relation_object  : OSMObject;
  relation_members : list RelationMember
}.

Record ChangesetComment : Type := mkChangesetComment {
  comment_date : Timestamp;
  comment_uid  : Z;
  comment_user : string;
  comment_text : string
}.

Record Changeset : Type := mkChangeset {
  cs_id           : Z;
  cs_created_at   : Timestamp;
  cs_closed_at    : Timestamp;
  cs_bounds       : Box;
  cs_num_changes  : Z;
  cs_num_comments : Z;
  cs_uid          : Z;
  cs_user         : string;
  cs_tags         : list (string * string);
  cs_discussion   : list ChangesetComment
}.

(** ** [boost::crc_32_type]

    [crc_optimal<32, 0x04C11DB7, 0xFFFFFFFF, 0xFFFFFFFF, true, true>]:
    the reflected CRC-32.  The register is kept in reflected form, so
    one input bit is consumed by a right shift and a conditional xor
    with the reflected polynomial. *)

Definition crc32_reflected_poly : Z := 0xEDB88320.
Definition crc32_initial : Z := 0xFFFFFFFF.
Definition crc32_final_xor : Z := 0xFFFFFFFF.

Definition crc32_shift (r : Z) : Z :=
  if Z.testbit r 0
  then Z.lxor (Z.shiftr r 1) crc32_reflected_poly
  else Z.shiftr r 1.

Definition process_byte (r : Z) (b : Z) : Z :=
  let r0 := Z.lxor r (Z.land b 255) in
  crc32_shift (crc32_shift (crc32_shift (crc32_shift
 (crc32_shift (crc32_shift (crc32_shift (crc32_shift r0))))))).

Definition process_bytes (r : Z) (bs : list Z) : Z :=
  fold_left process_byte bs r.

Definition checksum (r : Z) : Z := Z.lxor r crc32_final_xor.

(** ** [osmium::CRC<TCRC>]: the canonical byte encoding of an entity,
    fed to the register field by field; integers go in little-endian
    byte order, strings without their terminating NUL. *)

Fixpoint le_bytes (n : nat) (v : Z) : list Z :=
  match n with
  | O => []
  | S n' => Z.land v 255 :: le_bytes n' (Z.shiftr v 8)
  end.

Fixpoint c_str_bytes (s : string) : list Z :=
  match s with
  | EmptyString => []
  | String c s' =>
      let b := Z.of_N (N_of_ascii c) in
      if b =? 0 then [] else b :: c_str_bytes s'
  end.

Definition bytes_bool (b : bool) : list Z := [if b then 1 else 0].
Definition bytes_int16 (v : Z) : list Z := le_bytes 2 v.
Definition bytes_int32 (v : Z) : list Z := le_bytes 4 v.
Definition bytes_int64 (v : Z) : list Z := le_bytes 8 v.
Definition bytes_string (s : string) : list Z := c_str_bytes s.

Definition bytes_timestamp (t : Timestamp) : list Z := bytes_int32 t.

Definition bytes_location (l : Location) : list Z :=
  bytes_int32 (x l) ++ bytes_int32 (y l).

Definition bytes_box (b : Box) : list Z :=
  bytes_location (bottom_left b) ++ bytes_location (top_right b).

Definition bytes_node_ref (r : NodeRef) : list Z :=
  bytes_int64 (nr_ref r) ++ bytes_location (nr_location r).

Definition bytes_tags (ts : list (string * string)) : list Z :=
  flat_map (fun t => bytes_string (fst t) ++ bytes_string (snd t)) ts.

Definition bytes_member (m : RelationMember) : list Z :=
  bytes_int64 (member_ref m) ++
  bytes_int16 (item_type_value (member_type m)) ++
  bytes_string (member_role m).

Definition bytes_object (o : OSMObject) : list Z :=
  bytes_int64 (obj_id o) ++
  bytes_bool (obj_visible o) ++
  bytes_int32 (obj_version o) ++
  bytes_timestamp (obj_timestamp o) ++
  bytes_int32 (obj_uid o) ++
  bytes_string (obj_user o) ++
  bytes_tags (obj_tags o).

Definition bytes_node (n : Node) : list Z :=
  bytes_object (node_object n) ++ bytes_location (node_location n).

Definition bytes_way (w : Way) : list Z :=
  bytes_object (way_object w) ++ flat_map bytes_node_ref (way_nodes w).

Definition bytes_relation (r : Relation) : list Z :=
  bytes_object (relation_object r) ++
  flat_map bytes_member (relation_members r).

Definition bytes_comment (c : ChangesetComment) : list Z :=
  bytes_timestamp (comment_date c) ++
  bytes_int32 (comment_uid c) ++
  bytes_string (comment_user c) ++
  bytes_string (comment_text c).

Definition bytes_changeset (c : Changeset) : list Z :=
  bytes_int64 (cs_id c) ++
  bytes_timestamp (cs_created_at c) ++
  bytes_timestamp (cs_closed_at c) ++
  bytes_box (cs_bounds c) ++
  bytes_int32 (cs_num_changes c) ++
  bytes_int32 (cs_num_comments c) ++
  bytes_int32 (cs_uid c) ++
  bytes_string (cs_user c) ++
  bytes_tags (cs_tags c) ++
  flat_map bytes_comment (cs_discussion c).

(** [CRC::update(const T&)] for the four entity classes. *)
Definition crc_update_node (r : Z) (n : Node) : Z :=
  process_bytes r (bytes_node n).
Definition crc_update_way (r : Z) (w : Way) : Z :=
  process_bytes r (bytes_way w).
Definition crc_update_relation (r : Z) (rel : Relation) : Z :=
  process_bytes r (bytes_relation rel).
Definition crc_update_changeset (r : Z) (c : Changeset) : Z :=
  process_bytes r (bytes_changeset c).

End Osmium.

Import Osmium.

(* ================================================================== *)
(** * [struct InfoHandler]                                              *)
(* ================================================================== *)

Record InfoHandler : Type := mkInfoHandler {
  bounds : Box;
  changesets : Z;                 (* uint64_t *)
  nodes      : Z;
  ways       : Z;
  relations  : Z;
  largest_changeset_id : Z;       (* max_op<object_id_type>{0} *)
  largest_node_id      : Z;
  largest_way_id       : Z;
  largest_relation_id  : Z;
  first_timestamp : Timestamp;    (* min_op<Timestamp> *)
  last_timestamp  : Timestamp;    (* max_op<Timestamp> *)
  crc32 : Z;
  ordered : bool;
  multiple_versions : bool;
  last_type : item_type;
  last_id : Z
}.

(** The member initialisers of the struct. *)
Definition InfoHandler_init : InfoHandler :=
  {| bounds := empty_box;
     changesets := 0; nodes := 0; ways := 0; relations := 0;
     largest_changeset_id := 0; largest_node_id := 0;
     largest_way_id := 0; largest_relation_id := 0;
     first_timestamp := end_of_time;
     last_timestamp := start_of_time;
     crc32 := crc32_initial;
     ordered := true;
     multiple_versions := false;
     last_type := undefined;
     last_id := 0 |}.

(** [++counter] on a [uint64_t]. *)
Definition incr64 (n : Z) : Z := (n + 1) mod 2 ^ 64.

(** Functional record updates, one per group of fields a callback
    assigns. *)
Definition set_ordered (v : bool) (h : InfoHandler) : InfoHandler :=
  mkInfoHandler (bounds h) (changesets h) (nodes h) (ways h) (relations h)
    (largest_changeset_id h) (largest_node_id h) (largest_way_id h)
    (largest_relation_id h) (first_timestamp h) (last_timestamp h) (crc32 h)
    v (multiple_versions h) (last_type h) (last_id h).

Definition set_multiple_versions (v : bool) (h : InfoHandler) : InfoHandler :=
  mkInfoHandler (bounds h) (changesets h) (nodes h) (ways h) (relations h)
    (largest_changeset_id h) (largest_node_id h) (largest_way_id h)
    (largest_relation_id h) (first_timestamp h) (last_timestamp h) (crc32 h)
    (ordered h) v (last_type h) (last_id h).

Definition set_last_type (v : item_type) (h : InfoHandler) : InfoHandler :=
  mkInfoHandler (bounds h) (changesets h) (nodes h) (ways h) (relations h)
    (largest_changeset_id h) (largest_node_id h) (largest_way_id h)
    (largest_relation_id h) (first_timestamp h) (last_timestamp h) (crc32 h)
    (ordered h) (multiple_versions h) v (last_id h).

Definition set_last_id (v : Z) (h : InfoHandler) : InfoHandler :=
  mkInfoHandler (bounds h) (changesets h) (nodes h) (ways h) (relations h)
    (largest_changeset_id h) (largest_node_id h) (largest_way_id h)
    (largest_relation_id h) (first_timestamp h) (last_timestamp h) (crc32 h)
    (ordered h) (multiple_versions h) (last_type h) v.

Definition set_timestamps (f l : Timestamp) (h : InfoHandler) : InfoHandler :=
  mkInfoHandler (bounds h) (changesets h) (nodes h) (ways h) (relations h)
    (largest_changeset_id h) (largest_node_id h) (largest_way_id h)
    (largest_relation_id h) f l (crc32 h)
    (ordered h) (multiple_versions h) (last_type h) (last_id h).

Definition set_crc32 (v : Z) (h : InfoHandler) : InfoHandler :=
  mkInfoHandler (bounds h) (changesets h) (nodes h) (ways h) (relations h)
    (largest_changeset_id h) (largest_node_id h) (largest_way_id h)
    (largest_relation_id h) (first_timestamp h) (last_timestamp h) v
    (ordered h) (multiple_versions h) (last_type h) (last_id h).

Definition set_bounds (v : Box) (h : InfoHandler) : InfoHandler :=
  mkInfoHandler v (changesets h) (nodes h) (ways h) (relations h)
    (largest_changeset_id h) (largest_node_id h) (largest_way_id h)
    (largest_relation_id h) (first_timestamp h) (last_timestamp h) (crc32 h)
    (ordered h) (multiple_versions h) (last_type h) (last_id h).

Definition set_changesets (n m : Z) (h : InfoHandler) : InfoHandler :=
  mkInfoHandler (bounds h) n (nodes h) (ways h) (relations h)
    m (largest_node_id h) (largest_way_id h)
    (largest_relation_id h) (first_timestamp h) (last_timestamp h) (crc32 h)
    (ordered h) (multiple_versions h) (last_type h) (last_id h).

Definition set_nodes (n m : Z) (h : InfoHandler) : InfoHandler :=
  mkInfoHandler (bounds h) (changesets h) n (ways h) (relations h)
    (largest_changeset_id h) m (largest_way_id h)
    (largest_relation_id h) (first_timestamp h) (last_timestamp h) (crc32 h)
    (ordered h) (multiple_versions h) (last_type h) (last_id h).

Definition set_ways (n m : Z) (h : InfoHandler) : InfoHandler :=
  mkInfoHandler (bounds h) (changesets h) (nodes h) n (relations h)
    (largest_changeset_id h) (largest_node_id h) m
    (largest_relation_id h) (first_timestamp h) (last_timestamp h) (crc32 h)
    (ordered h) (multiple_versions h) (last_type h) (last_id h).

Definition set_relations (n m : Z) (h : InfoHandler) : InfoHandler :=
  mkInfoHandler (bounds h) (changesets h) (nodes h) (ways h) n
    (largest_changeset_id h) (largest_node_id h) (largest_way_id h)
    m (first_timestamp h) (last_timestamp h) (crc32 h)
    (ordered h) (multiple_versions h) (last_type h) (last_id h).

(** [void changeset(const osmium::Changeset&)] *)
Definition changeset_cb (h : InfoHandler) (c : Changeset) : InfoHandler :=
  let h1 :=
    if item_type_eqb (last_type h) changeset then
      if last_id h >? cs_id c then set_ordered false h else h
    else set_last_type changeset h in
  let h2 := set_last_id (cs_id c) h1 in
  let h3 := set_crc32 (crc_update_changeset (crc32 h2) c) h2 in
  set_changesets (incr64 (changesets h3))
                 (max_op_update (largest_changeset_id h3) (cs_id c)) h3.

(** [void osm_object(const osmium::OSMObject&)]; [ty] is [object.type()]. *)
Definition osm_object (h : InfoHandler) (ty : item_type) (o : OSMObject)
  : InfoHandler :=
  let h1 := set_timestamps
              (min_op_update (first_timestamp h) (obj_timestamp o))
              (max_op_update (last_timestamp h) (obj_timestamp o)) h in
  let h2 :=
    if item_type_eqb (last_type h1) ty then
      let h' := if last_id h1 =? obj_id o
                then set_multiple_versions true h1 else h1 in
      if id_order (obj_id o) (last_id h') then set_ordered false h' else h'
    else if negb (item_type_eqb (last_type h1) changeset)
            && item_type_gtb (last_type h1) ty
         then set_ordered false h1
         else h1 in
  set_last_id (obj_id o) (set_last_type ty h2).

(** [void node(const osmium::Node&)] *)
Definition node_cb (h : InfoHandler) (n : Node) : InfoHandler :=
  let h1 := set_crc32 (crc_update_node (crc32 h) n) h in
  let h2 := set_bounds (box_extend (bounds h1) (node_location n)) h1 in
  set_nodes (incr64 (nodes h2))
            (max_op_update (largest_node_id h2) (obj_id (node_object n))) h2.

(** [void way(const osmium::Way&)] *)
Definition way_cb (h : InfoHandler) (w : Way) : InfoHandler :=
  let h1 := set_crc32 (crc_update_way (crc32 h) w) h in
  set_ways (incr64 (ways h1))
           (max_op_update (largest_way_id h1) (obj_id (way_object w))) h1.

(** [void relation(const osmium::Relation&)] *)
Definition relation_cb (h : InfoHandler) (r : Relation) : InfoHandler :=
  let h1 := set_crc32 (crc_update_relation (crc32 h) r) h in
  set_relations (incr64 (relations h1))
    (max_op_update (largest_relation_id h1) (obj_id (relation_object r))) h1.

(** ** The entity stream and [osmium::apply] *)

Inductive Entity : Type :=
| ENode (n : Node)
| EWay (w : Way)
| ERelation (r : Relation)
| EChangeset (c : Changeset).

Definition entity_type (e : Entity) : item_type :=
  match e with
  | ENode _ => node
  | EWay _ => way
  | ERelation _ => relation
  | EChangeset _ => changeset
  end.

Definition entity_id (e : Entity) : Z :=
  match e with
  | ENode n => obj_id (node_object n)
  | EWay w => obj_id (way_object w)
  | ERelation r => obj_id (relation_object r)
  | EChangeset c => cs_id c
  end.

(** The canonical bytes [crc32.update] feeds for an entity. *)
Definition entity_bytes (e : Entity) : list Z :=
  match e with
  | ENode n => bytes_node n
  | EWay w => bytes_way w
  | ERelation r => bytes_relation r
  | EChangeset c => bytes_changeset c
  end.

(** [osmium::apply] dispatches on the item type: an object goes to
    [osm_object] first and then to the callback of its kind; a changeset
    goes to [changeset] only. *)
Definition apply_item (h : InfoHandler) (e : Entity) : InfoHandler :=
  match e with
  | ENode n => node_cb (osm_object h node (node_object n)) n
  | EWay w => way_cb (osm_object h way (way_object w)) w
  | ERelation r => relation_cb (osm_object h relation (relation_object r)) r
  | EChangeset c => changeset_cb h c
  end.

(** The loop of [CommandFileinfo::run] over all buffers of the reader. *)
Definition apply_from (h : InfoHandler) (es : list Entity) : InfoHandler :=
  fold_left apply_item es h.

Definition analyze (es : list Entity) : InfoHandler :=
  apply_from InfoHandler_init es.

(* ================================================================== *)
(** * Output: what the program writes to [std::cout]                    *)
(* ================================================================== *)

Open Scope string_scope.
Open Scope list_scope.

(** The newline character of the C++ literals. *)
Definition nl : string := String (ascii_of_nat 10) EmptyString.

(** A literal that ends in a newline. *)
Definition line (s : string) : string := String.append s nl.

(** One [operator<<] on [std::cout].  Text that the library formats (a
    box, a timestamp in ISO form, a number) is recorded by the value that
    is formatted; [Lit] is a literal of the program text, [Str] a string
    that comes from the input. *)
Inductive text : Type :=
| Lit (s : string)
| Str (s : string)
| Dec (z : Z)
| Hex (z : Z)
| BoxText (b : Box)
| Iso (t : Timestamp).

(** [Location::lon()] and [Location::lat()], the library's conversion of
    a fixed-point coordinate to a [double], recorded by the call. *)
Inductive coordinate : Type :=
| Lon (l : Location)
| Lat (l : Location).

(** The calls the program can make on a [rapidjson::PrettyWriter]; a
    document is the sequence of calls that built it. *)
Inductive writer_call : Type :=
| StartObject | EndObject | StartArray | EndArray
| WString (t : text)
| WBool (b : bool)
| WInt64 (z : Z)
| WDouble (d : coordinate)
| WNull.

Inductive chunk : Type :=
| Text (t : text)
| Document (calls : list writer_call).

Coercion Text : text >-> chunk.

Definition cout : Type := list chunk.

Fixpoint count_newlines (s : string) : nat :=
  match s with
  | EmptyString => O
  | String c s' =>
      ((if Ascii.eqb c (ascii_of_nat 10) then 1 else 0) + count_newlines s')%nat
  end.

(** Lines the program terminates: the newlines of its own literals. *)
Definition chunk_lines (c : chunk) : nat :=
  match c with
  | Text (Lit s) => count_newlines s
  | _ => O
  end.

Fixpoint lines_written (out : cout) : nat :=
  match out with
  | [] => O
  | c :: out' => (chunk_lines c + lines_written out')%nat
  end.

(** Modelled from the spec: [yes_no] is declared in util.hpp, which is not
    among the sources; it gives the word yes or no followed by a newline,
    as the literals of [SimpleOutput::data] do. *)
Definition yes_no (choice : bool) : string :=
  if choice then line "yes" else line "no".

(** ** The inputs of a renderer *)

(** [osmium::io::File] with the size [osmium::util::file_size] reports
    for its name. *)
Record File : Type := mkFile {
  filename    : string;
  format      : string;
  compression : string;
  file_size   : Z
}.

(** [osmium::util::Options], the base class of [osmium::io::Header],
    keeps the options in a [std::map] from names to values.  The map is
    kept here as the list its iteration visits: one entry for each name,
    in the order of the names.  [set(key, value)] is [m_options[key] =
    value]: it adds the name or replaces its value. *)
Fixpoint options_set (m : list (string * string)) (key value : string)
  : list (string * string) :=
  match m with
  | [] => [(key, value)]
  | (k, v) :: m' =>
      match String.compare key k with
      | Lt => (key, value) :: (k, v) :: m'
      | Eq => (key, value) :: m'
      | Gt => (k, v) :: options_set m' key value
      end
  end.

(** [osmium::io::Header]: the boxes, the history flag and the calls of
    [set] that filled the options, in the order they were made. *)
Record Header : Type := mkHeader {
  boxes : list Box;
  has_multiple_object_versions : bool;
  set_calls : list (string * string)
}.

(** The options a range-for over the header visits. *)
Definition options (header : Header) : list (string * string) :=
  fold_left (fun m kv => options_set m (fst kv) (snd kv))
            (set_calls header) [].

(** ** Exceptions *)

Inductive exception : Type :=
| argument_error (what : string)
| invalid_location (what : string).

(** A computation that returns or throws. *)
Definition throws (A : Type) : Type := (exception + A)%type.

Definition ret {A : Type} (a : A) : throws A := inr a.
Definition throw {A : Type} (e : exception) : throws A := inl e.
Definition bind {A B : Type} (m : throws A) (k : A -> throws B) : throws B :=
  match m with
  | inl e => inl e
  | inr a => k a
  end.

Notation "m ;; k" := (bind m (fun _ => k))
  (at level 61, right associativity).

(** ** [class Output]: a callback returns the renderer and what it has
    written to [std::cout], or throws. *)

Class Output (O : Type) : Type := {
  file_m   : O -> string -> File -> throws (O * cout);
  header_m : O -> Header -> throws (O * cout);
  data_m   : O -> Header -> InfoHandler -> throws (O * cout);
  output_m : O -> throws (O * cout)
}.

(** ** [class HumanReadableOutput] *)

Inductive HumanReadableOutput : Type := mkHumanReadableOutput.

Definition human_file (input_filename : string) (input_file : File) : cout :=
  [Text (Lit (line "File:"));
   Text (Lit "  Name: "); Text (Str input_filename); Text (Lit nl);
   Text (Lit "  Format: "); Text (Str (format input_file)); Text (Lit nl);
   Text (Lit "  Compression: "); Text (Str (compression input_file));
   Text (Lit nl)]
  ++ (if negb (filename input_file =? EmptyString)
      then [Text (Lit "  Size: "); Text (Dec (file_size input_file));
            Text (Lit nl)]
      else []).

Definition human_header (header : Header) : cout :=
  [Text (Lit (line "Header:")); Text (Lit (line "  Bounding boxes:"))]
  ++ flat_map (fun box => [Text (Lit "    "); Text (BoxText box); Text (Lit nl)])
              (boxes header)
  ++ [Text (Lit "  With history: ");
      Text (Lit (yes_no (has_multiple_object_versions header)));
      Text (Lit (line "  Options:"))]
  ++ flat_map (fun option =>
                 [Text (Lit "    "); Text (Str (fst option)); Text (Lit "=");
                  Text (Str (snd option)); Text (Lit nl)])
              (options header).

Definition human_data (header : Header) (info_handler : InfoHandler) : cout :=
  [Text (Lit (line "Data:"));
   Text (Lit "  Bounding box: "); Text (BoxText (bounds info_handler));
   Text (Lit nl)]
  ++ (if negb (Z.eqb (first_timestamp info_handler) end_of_time)
      then [Text (Lit (line "  Timestamps:"));
            Text (Lit "    First: ");
            Text (Iso (first_timestamp info_handler)); Text (Lit nl);
            Text (Lit "    Last: ");
            Text (Iso (last_timestamp info_handler)); Text (Lit nl)]
      else [])
  ++ [Text (Lit "  Objects ordered (by type and id): ");
      Text (Lit (yes_no (ordered info_handler)));
      Text (Lit "  Multiple versions of same object: ")]
  ++ (if ordered info_handler
      then Text (Lit (yes_no (multiple_versions info_handler)))
           :: (if negb (Bool.eqb (multiple_versions info_handler)
                                 (has_multiple_object_versions header))
               then [Text (Lit (line "    WARNING! This is different from the setting in the header."))]
               else [])
      else [Text (Lit (line "unknown (because objects in file are unordered)"))])
  ++ [Text (Lit "  CRC32: "); Text (Hex (checksum (crc32 info_handler)));
      Text (Lit nl);
      Text (Lit "  Number of changesets: ");
      Text (Dec (changesets info_handler)); Text (Lit nl);
      Text (Lit "  Number of nodes: ");
      Text (Dec (nodes info_handler)); Text (Lit nl);
      Text (Lit "  Number of ways: ");
      Text (Dec (ways info_handler)); Text (Lit nl);
      Text (Lit "  Number of relations: ");
      Text (Dec (relations info_handler)); Text (Lit nl);
      Text (Lit "  Largest changeset ID: ");
      Text (Dec (largest_changeset_id info_handler)); Text (Lit nl);
      Text (Lit "  Largest node ID: ");
      Text (Dec (largest_node_id info_handler)); Text (Lit nl);
      Text (Lit "  Largest way ID: ");
      Text (Dec (largest_way_id info_handler)); Text (Lit nl);
      Text (Lit "  Largest relation ID: ");
      Text (Dec (largest_relation_id info_handler)); Text (Lit nl)].

#[export] Instance HumanReadableOutput_Output : Output HumanReadableOutput := {
  file_m o input_filename input_file :=
    ret (o, human_file input_filename input_file);
  header_m o header := ret (o, human_header header);
  data_m o header info_handler := ret (o, human_data header info_handler);
  output_m o := ret (o, [])
}.

(** ** [class JSONOutput]: the object holds the writer, that is the calls
    made on it so far. *)

Record JSONOutput : Type := mkJSONOutput { m_writer : list writer_call }.

(** The constructor opens the top-level object. *)
Definition JSONOutput_new : JSONOutput := mkJSONOutput [StartObject].

Definition key (s : string) : writer_call := WString (Lit s).

Definition json_file (input_filename : string) (input_file : File)
  : list writer_call :=
  [key "file"; StartObject;
   key "name"; WString (Str input_filename);
   key "format"; WString (Str (format input_file));
   key "compression"; WString (Str (compression input_file))]
  ++ (if negb (filename input_file =? EmptyString)
      then [key "size"; WInt64 (file_size input_file)]
      else [])
  ++ [EndObject].

(** [Location::lon()] and [Location::lat()] throw
    [osmium::invalid_location] on a location that is not valid. *)
Definition invalid_location_error : exception :=
  invalid_location "invalid location".

Definition lon (l : Location) : throws coordinate :=
  if location_valid l then ret (Lon l) else throw invalid_location_error.

Definition lat (l : Location) : throws coordinate :=
  if location_valid l then ret (Lat l) else throw invalid_location_error.

Definition add_bbox (box : Box) : throws (list writer_call) :=
  bind (lon (bottom_left box)) (fun d1 =>
  bind (lat (bottom_left box)) (fun d2 =>
  bind (lon (top_right box)) (fun d3 =>
  bind (lat (top_right box)) (fun d4 =>
  ret [StartArray; WDouble d1; WDouble d2; WDouble d3; WDouble d4;
       EndArray])))).

(** The loop over [header.boxes()]. *)
Fixpoint add_bboxes (bs : list Box) : throws (list writer_call) :=
  match bs with
  | [] => ret []
  | box :: bs' =>
      bind (add_bbox box) (fun calls =>
      bind (add_bboxes bs') (fun calls' => ret (calls ++ calls')))
  end.

Definition json_header (header : Header) : throws (list writer_call) :=
  bind (add_bboxes (boxes header)) (fun bboxes =>
  ret ([key "header"; StartObject; key "boxes"; StartArray]
       ++ bboxes
       ++ [EndArray;
           key "with_history"; WBool (has_multiple_object_versions header);
           key "option"; StartObject]
       ++ flat_map (fun option => [WString (Str (fst option));
                                   WString (Str (snd option))])
                   (options header)
       ++ [EndObject; EndObject])).

(** [JSONOutput::data] up to the [objects_ordered] member. *)
Definition json_data_head (info_handler : InfoHandler)
  : throws (list writer_call) :=
  bind (add_bbox (bounds info_handler)) (fun bbox =>
  ret ([key "data"; StartObject; key "bbox"]
       ++ bbox
       ++ (if negb (Z.eqb (first_timestamp info_handler) end_of_time)
           then [key "timestamp"; StartObject;
                 key "first"; WString (Iso (first_timestamp info_handler));
                 key "last"; WString (Iso (last_timestamp info_handler));
                 EndObject]
           else [])
       ++ [key "objects_ordered"; WBool (ordered info_handler)])).

(** [JSONOutput::data] from the [crc32] member on. *)
Definition json_data_tail (info_handler : InfoHandler) : list writer_call :=
  [key "crc32"; WString (Hex (checksum (crc32 info_handler)));
   key "count"; StartObject;
   key "changesets"; WInt64 (changesets info_handler);
   key "nodes"; WInt64 (nodes info_handler);
   key "ways"; WInt64 (ways info_handler);
   key "relations"; WInt64 (relations info_handler);
   EndObject;
   key "maxid"; StartObject;
   key "changesets"; WInt64 (largest_changeset_id info_handler);
   key "nodes"; WInt64 (largest_node_id info_handler);
   key "ways"; WInt64 (largest_way_id info_handler);
   key "relations"; WInt64 (largest_relation_id info_handler);
   EndObject;
   EndObject].

Definition json_data (info_handler : InfoHandler) : throws (list writer_call) :=
  bind (json_data_head info_handler) (fun head =>
  ret (head
       ++ (if ordered info_handler
           then [key "multiple_versions";
                 WBool (multiple_versions info_handler)]
           else [])
       ++ json_data_tail info_handler)).

Definition json_call (o : JSONOutput) (calls : list writer_call) : JSONOutput :=
  mkJSONOutput (m_writer o ++ calls).

#[export] Instance JSONOutput_Output : Output JSONOutput := {
  file_m o input_filename input_file :=
    ret (json_call o (json_file input_filename input_file), []);
  header_m o header :=
    bind (json_header header) (fun calls => ret (json_call o calls, []));
  data_m o _ info_handler :=
    bind (json_data info_handler) (fun calls => ret (json_call o calls, []));
  output_m o :=
    let o' := json_call o [EndObject] in
    ret (o', [Document (m_writer o'); Text (Lit nl)])
}.

(** ** [class SimpleOutput]: the object holds the requested key. *)

Record SimpleOutput : Type := mkSimpleOutput { m_get_value : string }.

Definition simple_file (m_get_value input_filename : string)
                       (input_file : File) : cout :=
  (if m_get_value =? "file.name"
   then [Text (Str input_filename); Text (Lit nl)] else [])
  ++ (if m_get_value =? "file.format"
      then [Text (Str (format input_file)); Text (Lit nl)] else [])
  ++ (if m_get_value =? "file.compression"
      then [Text (Str (compression input_file)); Text (Lit nl)] else [])
  ++ (if m_get_value =? "file.size"
      then if filename input_file =? EmptyString
           then [Text (Dec 0); Text (Lit nl)]
           else [Text (Dec (file_size input_file)); Text (Lit nl)]
      else []).

Definition simple_header (m_get_value : string) (header : Header) : cout :=
  (if m_get_value =? "header.with_history"
   then [Text (Lit (yes_no (has_multiple_object_versions header)))] else [])
  ++ flat_map (fun option =>
                 let value_name := String.append "header.option." (fst option) in
                 if m_get_value =? value_name
                 then [Text (Str (snd option)); Text (Lit nl)]
                 else [])
              (options header).

Definition simple_data (m_get_value : string) (info_handler : InfoHandler)
  : cout :=
  (if m_get_value =? "data.bbox"
   then [Text (BoxText (bounds info_handler)); Text (Lit nl)] else [])
  ++ (if m_get_value =? "data.timestamp.first"
      then if Z.eqb (first_timestamp info_handler) end_of_time
           then [Text (Lit nl)]
           else [Text (Iso (first_timestamp info_handler)); Text (Lit nl)]
      else [])
  ++ (if m_get_value =? "data.timestamp.last"
      then if Z.eqb (first_timestamp info_handler) end_of_time
           then [Text (Lit nl)]
           else [Text (Iso (last_timestamp info_handler)); Text (Lit nl)]
      else [])
  ++ (if m_get_value =? "data.objects_ordered"
      then [Text (Lit (if ordered info_handler then line "yes" else line "no"))]
      else [])
  ++ (if m_get_value =? "data.multiple_versions"
      then if ordered info_handler
           then [Text (Lit (if multiple_versions info_handler
                            then line "yes" else line "no"))]
           else [Text (Lit (line "unknown"))]
      else [])
  ++ (if m_get_value =? "data.crc32"
      then [Text (Hex (checksum (crc32 info_handler))); Text (Lit nl)]
      else [])
  ++ (if m_get_value =? "data.count.changesets"
      then [Text (Dec (changesets info_handler)); Text (Lit nl)] else [])
  ++ (if m_get_value =? "data.count.nodes"
      then [Text (Dec (nodes info_handler)); Text (Lit nl)] else [])
  ++ (if m_get_value =? "data.count.ways"
      then [Text (Dec (ways info_handler)); Text (Lit nl)] else [])
  ++ (if m_get_value =? "data.count.relations"
      then [Text (Dec (relations info_handler)); Text (Lit nl)] else [])
  ++ (if m_get_value =? "data.maxid.changesets"
      then [Text (Dec (largest_changeset_id info_handler)); Text (Lit nl)]
      else [])
  ++ (if m_get_value =? "data.maxid.nodes"
      then [Text (Dec (largest_node_id info_handler)); Text (Lit nl)]
      else [])
  ++ (if m_get_value =? "data.maxid.ways"
      then [Text (Dec (largest_way_id info_handler)); Text (Lit nl)]
      else [])
  ++ (if m_get_value =? "data.maxid.relations"
      then [Text (Dec (largest_relation_id info_handler)); Text (Lit nl)]
      else []).

#[export] Instance SimpleOutput_Output : Output SimpleOutput := {
  file_m o input_filename input_file :=
    ret (o, simple_file (m_get_value o) input_filename input_file);
  header_m o header := ret (o, simple_header (m_get_value o) header);
  data_m o _ info_handler :=
    ret (o, simple_data (m_get_value o) info_handler);
  output_m o := ret (o, [])
}.

(* ================================================================== *)
(** * [CommandFileinfo]                                                 *)
(* ================================================================== *)


(** The members [setup] assigns and [run] reads. *)
Record CommandFileinfo : Type := mkCommandFileinfo {
  m_extended    : bool;
  m_json_output : bool;
  cmd_get_value : string
}.

Definition known_values : list string :=
  [ "file.name";
    "file.format";
    "file.compression";
    "file.size";
    "header.with_history";
    "header.option.generator";
    "header.option.osmosis_replication_base_url";
    "header.option.osmosis_replication_sequence_number";
    "header.option.osmosis_replication_timestamp";
    "header.option.pbf_dense_nodes";
    "header.option.timestamp";
    "header.option.version";
    "data.bbox";
    "data.timestamp.first";
    "data.timestamp.last";
    "data.objects_ordered";
    "data.multiple_versions";
    "data.crc32";
    "data.count.nodes";
    "data.count.ways";
    "data.count.relations";
    "data.count.changesets";
    "data.maxid.nodes";
    "data.maxid.ways";
    "data.maxid.relations";
    "data.maxid.changesets" ].

Definition unknown_value_error (get_value : string) : exception :=
  argument_error
    (String.append "Unknown value for --get/-g option '"
       (String.append get_value
          "'. Use --show-variables/-G to see list of known values.")).

Definition extended_needed_error : exception :=
  argument_error
    "You need to set --extended/-e for any 'data.*' variables to be available.".


(** [std::string::substr(0, n)]: the first [n] characters, or the whole
    string when it is shorter. *)
Definition substr0 (n : nat) (s : string) : string := substring 0 n s.

(** The body of [if (vm.count("get"))] in [setup]. *)
Definition check_get_value (extended : bool) (get_value : string)
  : throws unit :=
  (if negb (substr0 14 get_value =? "header.option.") then
     match find (String.eqb get_value) known_values with
     | None => throw (unknown_value_error get_value)
     | Some _ => ret tt
     end
   else ret tt) ;;
  (if (substr0 5 get_value =? "data.") && negb extended
   then throw extended_needed_error
   else ret tt).




(** The calls [run] makes on the renderer it has chosen: what has been
    written to [std::cout], and the exception if a call threw. *)
Definition render {O : Type} `{Output O} (output : O) (extended : bool)
    (input_filename : string) (input_file : File)
    (header : Header) (entities : list Entity) : cout * option exception :=
  match file_m output input_filename input_file with
  | inl e => ([], Some e)
  | inr (o1, c1) =>
      match header_m o1 header with
      | inl e => (c1, Some e)
      | inr (o2, c2) =>
          match (if extended
                 then data_m o2 header (analyze entities)
                 else ret (o2, [])) with
          | inl e => (c1 ++ c2, Some e)
          | inr (o3, c3) =>
              match output_m o3 with
              | inl e => (c1 ++ c2 ++ c3, Some e)
              | inr (_, c4) => (c1 ++ c2 ++ c3 ++ c4, None)
              end
          end
      end
  end.

(** [CommandFileinfo::run], for a reader that delivers [header] and, in
    extended mode, [entities]. *)
Definition run (cmd : CommandFileinfo)
    (input_filename : string) (input_file : File)
    (header : Header) (entities : list Entity) : cout * option exception :=
  if m_json_output cmd then
    render JSONOutput_new (m_extended cmd)
           input_filename input_file header entities
  else if cmd_get_value cmd =? EmptyString then
    render mkHumanReadableOutput (m_extended cmd)
           input_filename input_file header entities
  else
    render (mkSimpleOutput (cmd_get_value cmd)) (m_extended cmd)
           input_filename input_file header entities.

(* ================================================================== *)
(** * Properties of the analyzer                                        *)
(* ================================================================== *)

Open Scope Z_scope.

(** An entity that goes through [osm_object]. *)
Definition is_object (e : Entity) : bool :=
  match e with
  | EChangeset _ => false
  | _ => true
  end.

(** The rank of the three object kinds, node < way < relation; the other
    item types have none. *)
Definition kind_rank (t : item_type) : option nat :=
  match t with
  | node => Some 0%nat
  | way => Some 1%nat
  | relation => Some 2%nat
  | _ => None
  end.

(** [prev] is an object kind that ranks strictly above [next]. *)
Definition kind_regression (prev next : item_type) : bool :=
  match kind_rank prev, kind_rank next with
  | Some a, Some b => (b <? a)%nat
  | _, _ => false
  end.

(** What one step does to the two flags, read off the callbacks. *)
Definition order_violation (h : InfoHandler) (e : Entity) : bool :=
  match e with
  | EChangeset c =>
      item_type_eqb (last_type h) changeset && (last_id h >? cs_id c)
  | _ =>
      if item_type_eqb (last_type h) (entity_type e)
      then id_order (entity_id e) (last_id h)
      else negb (item_type_eqb (last_type h) changeset)
           && item_type_gtb (last_type h) (entity_type e)
  end.

Definition version_repeat (h : InfoHandler) (e : Entity) : bool :=
  is_object e
  && item_type_eqb (last_type h) (entity_type e)
  && (last_id h =? entity_id e).

(** No counter is at the top of the [uint64_t] range, which is the case
    after any stream of fewer than 2^64 - 1 entities. *)
Definition counters_below_max (h : InfoHandler) : Prop :=
  changesets h < 2 ^ 64 - 1 /\ nodes h < 2 ^ 64 - 1 /\
  ways h < 2 ^ 64 - 1 /\ relations h < 2 ^ 64 - 1.

(** Sample entities: a node and a changeset that carry only an id. *)
Definition plain_object (id : Z) (t : Timestamp) : OSMObject :=
  mkOSMObject id true 1 t 0 EmptyString [].

Definition plain_node (id : Z) (t : Timestamp) : Node :=
  mkNode (plain_object id t) (mkLocation 0 0).

Definition plain_way (id : Z) (t : Timestamp) : Way :=
  mkWay (plain_object id t) [].

Definition plain_changeset (id : Z) : Changeset :=
  mkChangeset id 0 0 empty_box 0 0 0 EmptyString [] [].

(** The two calls C5 is about: a null value, and the key
    [multiple_versions]. *)
Definition is_null (c : writer_call) : bool :=
  match c with
  | WNull => true
  | _ => false
  end.

Definition is_multiple_versions_key (c : writer_call) : bool :=
  match c with
  | WString (Lit s) => (s =? "multiple_versions")%string
  | _ => false
  end.

Definition other_call (c : writer_call) : bool :=
  negb (is_null c || is_multiple_versions_key c).


(** A header with two options. *)
Definition two_options : Header :=
  mkHeader [] false [("generator", "a"); ("version", "0.6")]%string.

(** Two ways with the same encoding: the bytes of the user name and of
    the tags run into each other. *)
Definition way_user_ab : Way :=
  mkWay (mkOSMObject 1 true 1 0 0 "ab" []) [].

Definition way_user_a_tag_b : Way :=
  mkWay (mkOSMObject 1 true 1 0 0 "a" [("b", EmptyString)]%string) [].

Definition no_file : File := mkFile EmptyString "XML" "none" 0.

(** [std::find] reaches an element of the catalog. *)
Definition in_catalog (k : string) : bool :=
  match find (String.eqb k) known_values with
  | Some _ => true
  | None => false
  end.

(** A key the registry accepts: any [header.option.<name>], or a key of
    the catalog. *)
Definition key_accepted (key : string) : Prop :=
  prefix "header.option." key = true \/ In key known_values.

(** ** Quantities of a whole stream, to state what the aggregate holds *)

Definition of_kind (t : item_type) (e : Entity) : bool :=
  item_type_eqb (entity_type e) t.

Definition count_kind (t : item_type) (l : list Entity) : nat :=
  List.length (filter (of_kind t) l).

Definition ids_of_kind (t : item_type) (l : list Entity) : list Z :=
  map entity_id (filter (of_kind t) l).

(** The counter and the largest id the handler keeps for a kind. *)
Definition counter (t : item_type) (h : InfoHandler) : Z :=
  match t with
  | node => nodes h
  | way => ways h
  | relation => relations h
  | changeset => changesets h
  | _ => 0
  end.

Definition largest_id (t : item_type) (h : InfoHandler) : Z :=
  match t with
  | node => largest_node_id h
  | way => largest_way_id h
  | relation => largest_relation_id h
  | changeset => largest_changeset_id h
  | _ => 0
  end.

(** [e] directly after [p] breaks the order by type and id. *)
Definition out_of_order (p e : Entity) : bool :=
  match e with
  | EChangeset c => negb (is_object p) && (entity_id p >? cs_id c)
  | _ =>
      if item_type_eqb (entity_type p) (entity_type e)
      then id_order (entity_id e) (entity_id p)
      else kind_regression (entity_type p) (entity_type e)
  end.

Fixpoint sorted_after (p : Entity) (l : list Entity) : bool :=
  match l with
  | [] => true
  | e :: l' => negb (out_of_order p e) && sorted_after e l'
  end.

(** No entity is out of order with the one before it. *)
Definition stream_sorted (l : list Entity) : bool :=
  match l with
  | [] => true
  | e :: l' => sorted_after e l'
  end.

(** [e] directly after [p] is another version of the same object. *)
Definition same_object (p e : Entity) : bool :=
  is_object e
  && item_type_eqb (entity_type p) (entity_type e)
  && (entity_id p =? entity_id e).

Fixpoint repeat_after (p : Entity) (l : list Entity) : bool :=
  match l with
  | [] => false
  | e :: l' => same_object p e || repeat_after e l'
  end.

Definition stream_has_repeat (l : list Entity) : bool :=
  match l with
  | [] => false
  | e :: l' => repeat_after e l'
  end.

(** The timestamps [osm_object] sees, in stream order. *)
Definition object_timestamps (l : list Entity) : list Timestamp :=
  flat_map (fun e => match e with
                     | ENode n => [obj_timestamp (node_object n)]
                     | EWay w => [obj_timestamp (way_object w)]
                     | ERelation r => [obj_timestamp (relation_object r)]
                     | EChangeset _ => []
                     end) l.

(** The node locations that [Box::extend] takes into account. *)
Definition valid_node_locations (l : list Entity) : list Location :=
  flat_map (fun e => match e with
                     | ENode n => if location_valid (node_location n)
                                  then [node_location n] else []
                     | _ => []
                     end) l.

(** [b] is the bounding box of the locations [ps]: it is defined, holds
    every one of them, and each of its four coordinates is the coordinate
    of one of them. *)
Definition bounding (b : Box) (ps : list Location) : Prop :=
  location_defined (bottom_left b) = true
  /\ location_defined (top_right b) = true
  /\ (forall q : Location, In q ps -> box_contains b q = true)
  /\ (exists q : Location, In q ps /\ x (bottom_left b) = x q)
  /\ (exists q : Location, In q ps /\ y (bottom_left b) = y q)
  /\ (exists q : Location, In q ps /\ x (top_right b) = x q)
  /\ (exists q : Location, In q ps /\ y (top_right b) = y q).

(** ** Well-formed sequences of writer calls

    A value is a scalar, or an object or array that is opened and closed;
    the members of an object are a string (the name) followed by a value
    each, the elements of an array are values. *)
Inductive json_value : list writer_call -> Prop :=
| json_string (t : text) : json_value [WString t]
| json_bool (b : bool) : json_value [WBool b]
| json_int64 (z : Z) : json_value [WInt64 z]
| json_double (d : coordinate) : json_value [WDouble d]
| json_null : json_value [WNull]
| json_object (ms : list writer_call) :
    json_members ms -> json_value (StartObject :: ms ++ [EndObject])
| json_array (vs : list writer_call) :
    json_elements vs -> json_value (StartArray :: vs ++ [EndArray])
with json_members : list writer_call -> Prop :=
| members_nil : json_members []
| members_cons (name : text) (v ms : list writer_call) :
    json_value v -> json_members ms -> json_members (WString name :: v ++ ms)
with json_elements : list writer_call -> Prop :=
| elements_nil : json_elements []
| elements_cons (v vs : list writer_call) :
    json_value v -> json_elements vs -> json_elements (v ++ vs).

(** The warning line of [HumanReadableOutput::data]. *)
Definition history_warning : chunk :=
  Text (Lit (line "    WARNING! This is different from the setting in the header.")).

Definition is_history_warning (c : chunk) : bool :=
  match c with
  | Text (Lit s) =>
      (s =? line "    WARNING! This is different from the setting in the header.")%string
  | _ => false
  end.

(* ================================================================== *)
(** * [class PolyFileParser] (src/extract/poly_file_parser.cpp)         *)
(* ================================================================== *)

(** The two exceptions the parser throws. *)
Inductive poly_exception : Type :=
| poly_error (what : string)
| config_error (what : string).

(** A loop of the parser returns, throws, or is cut off by the fuel of
    its model. *)
Inductive parse_result (A : Type) : Type :=
| Done (a : A)
| Failed (e : poly_exception)
| OutOfFuel.

Arguments Done {A} a.
Arguments Failed {A} e.
Arguments OutOfFuel {A}.

(** What a ring builder has received: the kind of the ring and the
    locations of its node references (their ids are all 0). *)
Record ring : Type := mkRing {
  inner_ring : bool;
  ring_nodes : list Location
}.

(** [std::to_string] of a [std::size_t]. *)
Definition to_string (n : nat) : string :=
  DecimalString.NilEmpty.string_of_uint (Nat.to_uint n).

(** [osmium::split_string(str, sep, true)]: the pieces between the
    separators, the empty ones left out. *)
Fixpoint split_pieces (sep : ascii) (s : string) : list string :=
  match s with
  | EmptyString => [EmptyString]
  | String c s' =>
      if Ascii.eqb c sep then EmptyString :: split_pieces sep s'
      else match split_pieces sep s' with
           | piece :: pieces => String c piece :: pieces
           | [] => [String c EmptyString]
           end
  end.

Definition split_string_compact (s : string) (sep : ascii) : list string :=
  filter (fun piece => negb (piece =? EmptyString)%string)
         (split_pieces sep s).

(** [operator!=] of [osmium::Location] compares both coordinates. *)
Definition location_eqb (a b : Location) : bool :=
  (x a =? x b) && (y a =? y b).

(** [line()[0] == '!'] *)
Definition starts_with_bang (l : string) : bool :=
  match l with
  | String c _ => Ascii.eqb c "!"%char
  | EmptyString => false
  end.

(** [PolyFileParser::error]: [m_line] counts from 0, the message from
    1. *)
Definition error_at (m_file_name : string) (m_line : nat) (message : string)
  : poly_exception :=
  poly_error
    (String.append message
       (String.append " in file '"
          (String.append m_file_name
             (String.append "' on line " (to_string (m_line + 1)))))).

(** The end of a ring: the ring is closed by repeating its first
    location, unless it is closed already. *)
Definition close_ring (coordinates : list Location) : list Location :=
  if negb (location_eqb (hd undefined_location coordinates)
                        (last coordinates undefined_location))
  then coordinates ++ [hd undefined_location coordinates]
  else coordinates.

Section PolyFileParser.

(** [sstr >> lon >> lat] followed by the construction of the location
    from the two doubles; [None] when the extraction fails. *)
Variable read_coordinates : string -> option Location.

(** The position of the parser is [m_line] together with the lines of
    [m_data] from [m_line] on ([rest]); [line()], declared in the header,
    is the first of them, and [m_line < m_data.size()] says that there is
    one. *)

(** The [while] loop of [parse_ring]. *)
Fixpoint ring_loop (m_file_name : string) (inner : bool)
    (coordinates : list Location) (rest : list string) (m_line : nat)
  : parse_result (ring * list string * nat) :=
  match rest with
  | [] =>
      Failed (error_at m_file_name m_line
                "Expected coordinates or 'END' for end of ring")
  | l :: rest' =>
      if (l =? "END")%string then
        if (List.length coordinates <? 3)%nat then
          Failed (error_at m_file_name m_line
                    "Expected at least three lines with coordinates")
        else
          Done (mkRing inner (close_ring coordinates), rest', S m_line)
      else
        match read_coordinates l with
        | None =>
            Failed (error_at m_file_name m_line
                      "Expected 'END' or coordinates")
        | Some location =>
            ring_loop m_file_name inner (coordinates ++ [location])
                      rest' (S m_line)
        end
  end.

(** [parse_ring], entered at the line [header]. *)
Definition parse_ring (m_file_name : string) (header : string)
    (rest : list string) (m_line : nat)
  : parse_result (ring * list string * nat) :=
  ring_loop m_file_name (starts_with_bang header) [] rest (S m_line).

(** The [while] loop of [parse_multipolygon]; [rings] is what the area
    builder holds. *)
Fixpoint multipolygon_loop (fuel : nat) (m_file_name : string)
    (rest : list string) (m_line : nat) (rings : list ring)
  : parse_result (list ring * list string * nat) :=
  match fuel with
  | O => OutOfFuel
  | S fuel' =>
      match rest with
      | [] =>
          Failed (error_at m_file_name m_line
                    "Expected 'END' for end of (multi)polygon")
      | l :: rest' =>
          if (l =? "END")%string then Done (rings, rest', S m_line)
          else
            match parse_ring m_file_name l rest' m_line with
            | Done (r, rest'', m_line'') =>
                multipolygon_loop fuel' m_file_name rest'' m_line''
                                  (rings ++ [r])
            | Failed e => Failed e
            | OutOfFuel => OutOfFuel
            end
      end
  end.

(** [parse_multipolygon], entered at the line [first], which it
    ignores. *)
Definition parse_multipolygon (m_file_name : string) (first : string)
    (rest : list string) (m_line : nat) (rings : list ring)
  : parse_result (list ring * list string * nat) :=
  multipolygon_loop (S (List.length rest)) m_file_name rest (S m_line) rings.

(** The [while] loop of [operator()]. *)
Fixpoint polygons_loop (fuel : nat) (m_file_name : string)
    (rest : list string) (m_line : nat) (rings : list ring)
  : parse_result (list ring) :=
  match fuel with
  | O => OutOfFuel
  | S fuel' =>
      match rest with
      | [] => Done rings
      | first :: rest' =>
          match parse_multipolygon m_file_name first rest' m_line rings with
          | Done (rings', rest'', m_line'') =>
              polygons_loop fuel' m_file_name rest'' m_line'' rings'
          | Failed e => Failed e
          | OutOfFuel => OutOfFuel
          end
      end
  end.

(** [PolyFileParser::operator()]: the rings of the one area it builds. *)
Definition poly_parse (m_file_name : string) (m_data : list string)
  : parse_result (list ring) :=
  match m_data with
  | [] =>
      Failed (poly_error
                (String.append "File '"
                   (String.append m_file_name "' is empty")))
  | _ => polygons_loop (S (List.length m_data)) m_file_name m_data 0 []
  end.

(** The constructor followed by [operator()]; [content] is [None] when
    the file cannot be opened. *)
Definition poly_parse_file (file_name : string) (content : option string)
  : parse_result (list ring) :=
  match content with
  | None =>
      Failed (config_error
                (String.append "Could not open file '"
                   (String.append file_name "'")))
  | Some text =>
      poly_parse file_name (split_string_compact text (ascii_of_nat 10))
  end.

End PolyFileParser.

(** ** Well-formed polygon files, to state what the parser accepts *)

(** A ring as it is written: its header line and its coordinate lines,
    each with the location it stands for. *)
Record ring_text : Type := mkRingText {
  rt_header : string;
  rt_coordinates : list (string * Location)
}.

Definition ring_lines (r : ring_text) : list string :=
  rt_header r :: map fst (rt_coordinates r) ++ ["END"%string].

Definition ring_of_text (r : ring_text) : ring :=
  mkRing (starts_with_bang (rt_header r))
         (close_ring (map snd (rt_coordinates r))).

(** A section: its name line and its rings. *)
Definition section_lines (s : string * list ring_text) : list string :=
  fst s :: flat_map ring_lines (snd s) ++ ["END"%string].

Definition ring_text_ok (read_coordinates : string -> option Location)
    (r : ring_text) : Prop :=
  rt_header r <> "END"%string
  /\ (3 <= List.length (rt_coordinates r))%nat
  /\ Forall (fun c => fst c <> "END"%string
                      /\ read_coordinates (fst c) = Some (snd c))
            (rt_coordinates r).

(** A reader for three coordinate lines, for examples. *)
Definition sample_reader (l : string) : option Location :=
  if (l =? "0 0")%string then Some (mkLocation 0 0)
  else if (l =? "1 0")%string then Some (mkLocation 10000000 0)
  else if (l =? "1 1")%string then Some (mkLocation 10000000 10000000)
  else None.

(** The rings of a list of sections, in file order. *)
Definition sections_rings (ss : list (string * list ring_text)) : list ring :=
  flat_map (fun s => map ring_of_text (snd s)) ss.

Definition sections_ok (read_coordinates : string -> option Location)
    (ss : list (string * list ring_text)) : Prop :=
  Forall (fun s => Forall (ring_text_ok read_coordinates) (snd s)) ss.

(** The failures of the parser, each with the place it is found at.
    The number in a message is [m_line + 1]: the position of the line
    among the lines of [m_data], that is among the non-empty lines of the
    file.

    Inside a ring whose first coordinate line is line [n] of [m_data]
    (counted from 0) and whose lines are [body]: after some readable
    coordinate lines comes an [END] while fewer than three have been
    read, or a line that is neither [END] nor readable, or the end of the
    file. *)
Definition ring_failure (read_coordinates : string -> option Location)
    (m_file_name : string) (n : nat) (body : list string)
    (e : poly_exception) : Prop :=
  exists coords : list (string * Location),
    Forall (fun c => fst c <> "END"%string
                     /\ read_coordinates (fst c) = Some (snd c)) coords
    /\ ((exists rest : list string,
            body = map fst coords ++ "END"%string :: rest
            /\ (List.length coords < 3)%nat
            /\ e = error_at m_file_name (n + List.length coords)
                     "Expected at least three lines with coordinates")
        \/ (exists (l : string) (rest : list string),
               body = map fst coords ++ l :: rest
               /\ l <> "END"%string
               /\ read_coordinates l = None
               /\ e = error_at m_file_name (n + List.length coords)
                        "Expected 'END' or coordinates")
        \/ (body = map fst coords
            /\ e = error_at m_file_name (n + List.length coords)
                     "Expected coordinates or 'END' for end of ring")).

(** Inside a section whose lines after the first are [lines], the first
    of them being line [n] of [m_data]: after some complete rings comes a
    ring that fails, or the end of the file. *)
Definition section_failure (read_coordinates : string -> option Location)
    (m_file_name : string) (n : nat) (lines : list string)
    (e : poly_exception) : Prop :=
  exists rts : list ring_text,
    Forall (ring_text_ok read_coordinates) rts
    /\ ((exists (header : string) (body : list string),
            lines = flat_map ring_lines rts ++ header :: body
            /\ header <> "END"%string
            /\ ring_failure read_coordinates m_file_name
                 (n + List.length (flat_map ring_lines rts) + 1) body e)
        \/ (lines = flat_map ring_lines rts
            /\ e = error_at m_file_name
                     (n + List.length (flat_map ring_lines rts))
                     "Expected 'END' for end of (multi)polygon")).

(** After some complete sections comes a section that fails. *)
Definition error_located (read_coordinates : string -> option Location)
    (m_file_name : string) (m_data : list string) (e : poly_exception)
  : Prop :=
  exists (ss : list (string * list ring_text)) (first : string)
         (lines : list string),
    sections_ok read_coordinates ss
    /\ m_data = flat_map section_lines ss ++ first :: lines
    /\ section_failure read_coordinates m_file_name
         (List.length (flat_map section_lines ss) + 1) lines e.

(** ** The order of [std::map]: every name of [m] is above [k]; the
    names of [m] increase. *)
Definition above (k : string) (m : list (string * string)) : Prop :=
  Forall (fun o => String.compare k (fst o) = Lt) m.

Fixpoint increasing (m : list (string * string)) : Prop :=
  match m with
  | [] => True
  | o :: m' => above (fst o) m' /\ increasing m'
  end.

(** A box whose two corners [lon()] and [lat()] accept. *)
Definition box_printable (b : Box) : bool :=
  location_valid (bottom_left b) && location_valid (top_right b).

(** The calls of [add_bbox] on a box when no coordinate throws. *)
Definition bbox_calls (box : Box) : list writer_call :=
  [StartArray;
   WDouble (Lon (bottom_left box)); WDouble (Lat (bottom_left box));
   WDouble (Lon (top_right box)); WDouble (Lat (top_right box));
   EndArray].

(** The calls of [JSONOutput::header] when no box throws. *)
Definition json_header_calls (header : Header) : list writer_call :=
  [key "header"; StartObject; key "boxes"; StartArray]
  ++ flat_map bbox_calls (boxes header)
  ++ [EndArray;
      key "with_history"; WBool (has_multiple_object_versions header);
      key "option"; StartObject]
  ++ flat_map (fun option => [WString (Str (fst option));
                              WString (Str (snd option))])
              (options header)
  ++ [EndObject; EndObject].

(** The calls of [JSONOutput::data] when the bounds do not throw, up to
    the [objects_ordered] member and as a whole. *)
Definition json_data_head_calls (info_handler : InfoHandler)
  : list writer_call :=
  [key "data"; StartObject; key "bbox"]
  ++ bbox_calls (bounds info_handler)
  ++ (if negb (Z.eqb (first_timestamp info_handler) end_of_time)
      then [key "timestamp"; StartObject;
            key "first"; WString (Iso (first_timestamp info_handler));
            key "last"; WString (Iso (last_timestamp info_handler));
            EndObject]
      else [])
  ++ [key "objects_ordered"; WBool (ordered info_handler)].

Definition json_data_calls (info_handler : InfoHandler) : list writer_call :=
  json_data_head_calls info_handler
  ++ (if ordered info_handler
      then [key "multiple_versions"; WBool (multiple_versions info_handler)]
      else [])
  ++ json_data_tail info_handler.

(** The JSON view gets as far as [output()]: the boxes of the header are
    printable and, in extended mode, so are the bounds, which they are
    when the stream has a node with a valid location. *)
Definition json_prints (header : Header) (extended : bool)
    (entities : list Entity) : bool :=
  forallb box_printable (boxes header)
  && (negb extended
      || match valid_node_locations entities with
         | [] => false
         | _ :: _ => true
         end).


(** A text that holds nothing but newlines. *)
Fixpoint only_newlines (s : string) : bool :=
  match s with
  | EmptyString => true
  | String c s' => Ascii.eqb c (ascii_of_nat 10) && only_newlines s'
  end.



(** A small polygon file: one section with an outer ring. *)
Definition sample_sections : list (string * list ring_text) :=
  [("poly", [mkRingText "1"
               [("0 0", mkLocation 0 0);
                ("1 0", mkLocation 10000000 0);
                ("1 1", mkLocation 10000000 10000000)]])]%string.

Definition sample_poly : list string := flat_map section_lines sample_sections.

(** The same file with the third coordinate line missing. *)
Definition short_poly : list string :=
  ["poly"; "1"; "0 0"; "1 0"; "END"; "END"]%string.

Lemma item_type_eqb_eq (a b : item_type) :
  item_type_eqb a b = true <-> a = b.
Proof.
  split.
  - destruct a, b; unfold item_type_eqb; simpl; intro H;
      first [reflexivity | discriminate H].
  - intros ->. unfold item_type_eqb. apply Z.eqb_refl.
Qed.

Lemma item_type_eqb_refl (a : item_type) : item_type_eqb a a = true.
Proof. apply item_type_eqb_eq. reflexivity. Qed.

Lemma item_type_eqb_neq (a b : item_type) :
  a <> b -> item_type_eqb a b = false.
Proof.
  intro H. destruct (item_type_eqb a b) eqn:E; [|reflexivity].
  apply item_type_eqb_eq in E. contradiction.
Qed.

Lemma analyze_snoc (l : list Entity) (e : Entity) :
  analyze (l ++ [e]) = apply_item (analyze l) e.
Proof. unfold analyze, apply_from. rewrite fold_left_app. reflexivity. Qed.

Lemma analyze_snoc2 (l : list Entity) (p e : Entity) :
  analyze (l ++ [p; e]) = apply_item (analyze (l ++ [p])) e.
Proof.
  change [p; e] with ([p] ++ [e]). rewrite app_assoc. apply analyze_snoc.
Qed.

Lemma apply_from_cons (h : InfoHandler) (e : Entity) (l : list Entity) :
  apply_from h (e :: l) = apply_from (apply_item h e) l.
Proof. reflexivity. Qed.

(** After any step, the lookback holds the entity just processed. *)
Lemma last_type_apply_item (h : InfoHandler) (e : Entity) :
  last_type (apply_item h e) = entity_type e.
Proof.
  destruct e as [n|w|r|c]; try reflexivity.
  unfold apply_item, changeset_cb.
  destruct (item_type_eqb (last_type h) changeset) eqn:E.
  - apply item_type_eqb_eq in E.
    destruct (last_id h >? cs_id c); simpl; exact E.
  - reflexivity.
Qed.

Lemma last_id_apply_item (h : InfoHandler) (e : Entity) :
  last_id (apply_item h e) = entity_id e.
Proof.
  destruct e as [n|w|r|c]; reflexivity.
Qed.

Lemma ordered_osm_object (h : InfoHandler) (ty : item_type) (o : OSMObject) :
  ordered (osm_object h ty o)
  = ordered h
    && negb (if item_type_eqb (last_type h) ty
             then id_order (obj_id o) (last_id h)
             else negb (item_type_eqb (last_type h) changeset)
                  && item_type_gtb (last_type h) ty).
Proof.
  unfold osm_object; simpl.
  destruct (item_type_eqb (last_type h) ty).
  - destruct (last_id h =? obj_id o); simpl;
      destruct (id_order (obj_id o) (last_id h)); simpl;
      destruct (ordered h); reflexivity.
  - destruct (negb (item_type_eqb (last_type h) changeset)
              && item_type_gtb (last_type h) ty); simpl;
      destruct (ordered h); reflexivity.
Qed.

Lemma multiple_versions_osm_object (h : InfoHandler) (ty : item_type)
    (o : OSMObject) :
  multiple_versions (osm_object h ty o)
  = multiple_versions h
    || (item_type_eqb (last_type h) ty && (last_id h =? obj_id o)).
Proof.
  unfold osm_object; simpl.
  destruct (item_type_eqb (last_type h) ty).
  - destruct (last_id h =? obj_id o); simpl;
      destruct (id_order (obj_id o) (last_id h)); simpl;
      destruct (multiple_versions h); reflexivity.
  - destruct (negb (item_type_eqb (last_type h) changeset)
              && item_type_gtb (last_type h) ty); simpl;
      destruct (multiple_versions h); reflexivity.
Qed.

(** The step equation of [ordered]. *)
Lemma ordered_apply_item (h : InfoHandler) (e : Entity) :
  ordered (apply_item h e) = ordered h && negb (order_violation h e).
Proof.
  destruct e as [n|w|r|c]; simpl.
  - apply ordered_osm_object.
  - apply ordered_osm_object.
  - apply ordered_osm_object.
  - unfold changeset_cb.
    destruct (item_type_eqb (last_type h) changeset); simpl.
    + destruct (last_id h >? cs_id c); simpl;
        destruct (ordered h); reflexivity.
    + destruct (ordered h); reflexivity.
Qed.

(** The step equation of [multiple_versions]. *)
Lemma multiple_versions_apply_item (h : InfoHandler) (e : Entity) :
  multiple_versions (apply_item h e)
  = multiple_versions h || version_repeat h e.
Proof.
  destruct e as [n|w|r|c]; unfold version_repeat; simpl.
  - apply multiple_versions_osm_object.
  - apply multiple_versions_osm_object.
  - apply multiple_versions_osm_object.
  - unfold changeset_cb.
    destruct (item_type_eqb (last_type h) changeset); simpl.
    + destruct (last_id h >? cs_id c); simpl;
        destruct (multiple_versions h); reflexivity.
    + destruct (multiple_versions h); reflexivity.
Qed.

(** [id_order] on positive ids is the usual strict order. *)
Lemma id_order_positive (a b : Z) :
  0 < a -> 0 < b -> id_order a b = (a <? b).
Proof.
  intros Ha Hb. unfold id_order.
  assert (Ea : (a >? 0) = true) by (apply Z.gtb_lt; lia).
  assert (Eb : (b >? 0) = true) by (apply Z.gtb_lt; lia).
  rewrite Ea, Eb. simpl.
  rewrite !Z.abs_eq by lia. reflexivity.
Qed.

Lemma id_order_irrefl (a : Z) : id_order a a = false.
Proof.
  unfold id_order. rewrite Bool.eqb_reflx. apply Z.ltb_irrefl.
Qed.

(** On the kinds of two entities of different kind, the test of
    [osm_object] is the regression of the rank. *)
Lemma regression_test (p e : Entity) :
  is_object e = true ->
  negb (item_type_eqb (entity_type p) changeset)
  && item_type_gtb (entity_type p) (entity_type e)
  = kind_regression (entity_type p) (entity_type e).
Proof.
  destruct p, e; simpl; intro H; first [discriminate H | reflexivity].
Qed.

(** Rewrites the flags and the lookback of a short run into the step
    equations. *)
Ltac step_flags :=
  unfold analyze, apply_from; cbn [fold_left];
  repeat first
    [ rewrite ordered_apply_item
    | rewrite multiple_versions_apply_item
    | rewrite last_type_apply_item
    | rewrite last_id_apply_item
    | progress unfold order_violation, version_repeat ];
  cbn [entity_type entity_id is_object].

(** C1. In every stream, an object that has the kind of the entity just
    before it turns [multiple_versions] on exactly when the two ids are
    equal (otherwise the flag keeps its value); and any three nodes with
    the ids 3, 3, 4 end with [ordered = true] and
    [multiple_versions = true]. *)
Theorem duplicate_detection :
  (forall (l : list Entity) (p e : Entity),
      is_object e = true ->
      entity_type p = entity_type e ->
      multiple_versions (analyze (l ++ [p; e]))
      = multiple_versions (analyze (l ++ [p]))
        || (entity_id p =? entity_id e))
  /\
  (forall n1 n2 n3 : Node,
      obj_id (node_object n1) = 3 ->
      obj_id (node_object n2) = 3 ->
      obj_id (node_object n3) = 4 ->
      ordered (analyze [ENode n1; ENode n2; ENode n3]) = true
      /\ multiple_versions (analyze [ENode n1; ENode n2; ENode n3]) = true).
Proof.
  split.
  - intros l p e Hobj Hty.
    rewrite analyze_snoc2, multiple_versions_apply_item.
    unfold version_repeat.
    rewrite analyze_snoc, last_type_apply_item, last_id_apply_item.
    rewrite Hobj, Hty, item_type_eqb_refl. reflexivity.
  - intros n1 n2 n3 H1 H2 H3. split; step_flags; rewrite H1, H2, H3;
      reflexivity.
Qed.

(** C2. In every stream, a changeset turns [ordered] off exactly when the
    entity just before it is a changeset with a strictly greater id; a
    first changeset, or an equal or greater id, leaves [ordered] as it
    was.  Changesets with the ids 1, 2, 2, 5 end with [ordered = true],
    with the ids 1, 5, 3 with [ordered = false]. *)
Theorem changeset_order :
  (forall (l : list Entity) (p : Entity) (c : Changeset),
      ordered (analyze (l ++ [p; EChangeset c]))
      = ordered (analyze (l ++ [p]))
        && negb (negb (is_object p) && (entity_id p >? cs_id c)))
  /\
  (forall c : Changeset, ordered (analyze [EChangeset c]) = true)
  /\
  (forall cs : list Changeset,
      map cs_id cs = [1; 2; 2; 5] ->
      ordered (analyze (map EChangeset cs)) = true)
  /\
  (forall cs : list Changeset,
      map cs_id cs = [1; 5; 3] ->
      ordered (analyze (map EChangeset cs)) = false).
Proof.
  split; [|split; [|split]].
  - intros l p c.
    rewrite analyze_snoc2, ordered_apply_item. unfold order_violation.
    rewrite analyze_snoc, last_type_apply_item, last_id_apply_item.
    destruct p; reflexivity.
  - intro c. step_flags. reflexivity.
  - intros cs H.
    destruct cs as [|c1 [|c2 [|c3 [|c4 [|c5 cs]]]]]; try discriminate H.
    injection H as H1 H2 H3 H4. cbn [map]. step_flags.
    rewrite H1, H2, H3, H4. reflexivity.
  - intros cs H.
    destruct cs as [|c1 [|c2 [|c3 [|c4 cs]]]]; try discriminate H.
    injection H as H1 H2 H3. cbn [map]. step_flags.
    rewrite H1, H2, H3. reflexivity.
Qed.

(** C3. In every stream, an object whose kind differs from the kind of
    the entity just before it turns [ordered] off exactly when that
    entity is a node, way or relation that ranks strictly above the
    object's kind (node < way < relation); after a changeset, or as the
    first entity, it leaves [ordered] as it was.  A node with id 1, a way
    with id 1 and a node with id 2 end with [ordered = false]. *)
Theorem kind_regression_detection :
  (forall (l : list Entity) (p e : Entity),
      is_object e = true ->
      entity_type p <> entity_type e ->
      ordered (analyze (l ++ [p; e]))
      = ordered (analyze (l ++ [p]))
        && negb (kind_regression (entity_type p) (entity_type e)))
  /\
  (forall e : Entity, is_object e = true -> ordered (analyze [e]) = true)
  /\
  (forall (n1 n2 : Node) (w : Way),
      obj_id (node_object n1) = 1 ->
      obj_id (way_object w) = 1 ->
      obj_id (node_object n2) = 2 ->
      ordered (analyze [ENode n1; EWay w; ENode n2]) = false).
Proof.
  split; [|split].
  - intros l p e Hobj Hty.
    rewrite analyze_snoc2, ordered_apply_item.
    rewrite analyze_snoc. f_equal. f_equal.
    destruct e as [n|w|r|c]; try discriminate Hobj;
      unfold order_violation;
      rewrite last_type_apply_item, (item_type_eqb_neq _ _ Hty);
      apply (regression_test p); reflexivity.
  - intros e Hobj. destruct e; try discriminate Hobj; reflexivity.
  - intros n1 n2 w H1 H2 H3. step_flags. reflexivity.
Qed.

(** C10. An object that comes right after a changeset, or first in the
    stream, changes neither [ordered] nor [multiple_versions], whatever
    its kind and id; so a way with id 1, a changeset with id 9 and a node
    with id 1 end with [ordered = true]. *)
Theorem changeset_resets_lookback :
  (forall (h : InfoHandler) (e : Entity),
      is_object e = true ->
      last_type h = changeset \/ last_type h = undefined ->
      ordered (apply_item h e) = ordered h
      /\ multiple_versions (apply_item h e) = multiple_versions h)
  /\
  (forall (l : list Entity) (c : Changeset) (e : Entity),
      is_object e = true ->
      ordered (analyze (l ++ [EChangeset c; e]))
      = ordered (analyze (l ++ [EChangeset c]))
      /\ multiple_versions (analyze (l ++ [EChangeset c; e]))
         = multiple_versions (analyze (l ++ [EChangeset c])))
  /\
  (forall e : Entity,
      is_object e = true ->
      ordered (analyze [e]) = true
      /\ multiple_versions (analyze [e]) = false)
  /\
  (forall (w : Way) (c : Changeset) (n : Node),
      obj_id (way_object w) = 1 ->
      cs_id c = 9 ->
      obj_id (node_object n) = 1 ->
      ordered (analyze [EWay w; EChangeset c; ENode n]) = true).
Proof.
  assert (Hstep : forall (h : InfoHandler) (e : Entity),
      is_object e = true ->
      last_type h = changeset \/ last_type h = undefined ->
      ordered (apply_item h e) = ordered h
      /\ multiple_versions (apply_item h e) = multiple_versions h).
  { intros h e Hobj Hlast.
    rewrite ordered_apply_item, multiple_versions_apply_item.
    unfold order_violation, version_repeat.
    destruct e as [n|w|r|c]; try discriminate Hobj;
      destruct Hlast as [-> | ->]; cbn;
      rewrite andb_true_r, orb_false_r; split; reflexivity. }
  split; [exact Hstep|split; [|split]].
  - intros l c e Hobj. rewrite analyze_snoc2. apply Hstep; [exact Hobj|].
    left. rewrite analyze_snoc. apply last_type_apply_item.
  - intros e Hobj.
    destruct (Hstep InfoHandler_init e Hobj (or_intror eq_refl)) as [Ho Hm].
    unfold analyze, apply_from; cbn [fold_left]. rewrite Ho, Hm.
    split; reflexivity.
  - intros w c n H1 H2 H3. step_flags. reflexivity.
Qed.

(** ** Monotone growth of the aggregate *)

Lemma box_extend_contains (b : Box) (l p : Location) :
  box_contains b p = true -> box_contains (box_extend b l) p = true.
Proof.
  destruct b as [[blx bly] [trx try_]], l as [lx ly], p as [px py].
  unfold box_contains, box_extend, location_defined, location_valid,
    undefined_coordinate; cbn [x y bottom_left top_right].
  intro H.
  destruct ((-1800000000 <=? lx) && (lx <=? 1800000000)
            && (-900000000 <=? ly) && (ly <=? 900000000)) eqn:V;
    [|exact H].
  destruct (negb (blx =? 2147483647) && negb (bly =? 2147483647)) eqn:D;
    [|discriminate H].
  cbn [x y bottom_left top_right].
  rewrite !andb_true_iff, !negb_true_iff, !Z.eqb_neq, !Z.leb_le in *.
  rewrite !Z.gtb_ltb.
  destruct (Z.ltb_spec lx blx), (Z.ltb_spec trx lx),
    (Z.ltb_spec ly bly), (Z.ltb_spec try_ ly); lia.
Qed.

Lemma incr64_ge (n : Z) : n < 2 ^ 64 - 1 -> n <= incr64 n.
Proof.
  intro H. unfold incr64.
  destruct (Z_lt_le_dec (n + 1) 0) as [Hneg | Hpos].
  - pose proof (Z.mod_pos_bound (n + 1) (2 ^ 64) ltac:(lia)). lia.
  - rewrite Z.mod_small by lia. lia.
Qed.

Lemma max_op_update_ge (m v : Z) : m <= max_op_update m v.
Proof.
  unfold max_op_update. rewrite Z.gtb_ltb.
  destruct (Z.ltb_spec m v); lia.
Qed.

(** [osm_object] touches neither the bounds, the counters nor the
    maxima. *)
Lemma osm_object_frame (h : InfoHandler) (ty : item_type) (o : OSMObject) :
  let h' := osm_object h ty o in
  bounds h' = bounds h /\
  changesets h' = changesets h /\ nodes h' = nodes h /\
  ways h' = ways h /\ relations h' = relations h /\
  largest_changeset_id h' = largest_changeset_id h /\
  largest_node_id h' = largest_node_id h /\
  largest_way_id h' = largest_way_id h /\
  largest_relation_id h' = largest_relation_id h /\
  crc32 h' = crc32 h.
Proof.
  unfold osm_object; cbn.
  destruct (item_type_eqb (last_type h) ty).
  - destruct (last_id h =? obj_id o); cbn;
      destruct (id_order (obj_id o) (last_id h)); cbn; repeat split.
  - destruct (negb (item_type_eqb (last_type h) changeset)
              && item_type_gtb (last_type h) ty); cbn; repeat split.
Qed.

(** [changeset] touches the bounds and the object aggregates not at
    all. *)
Lemma changeset_cb_frame (h : InfoHandler) (c : Changeset) :
  let h' := changeset_cb h c in
  bounds h' = bounds h /\
  changesets h' = incr64 (changesets h) /\ nodes h' = nodes h /\
  ways h' = ways h /\ relations h' = relations h /\
  largest_changeset_id h'
  = max_op_update (largest_changeset_id h) (cs_id c) /\
  largest_node_id h' = largest_node_id h /\
  largest_way_id h' = largest_way_id h /\
  largest_relation_id h' = largest_relation_id h.
Proof.
  unfold changeset_cb.
  destruct (item_type_eqb (last_type h) changeset);
    [destruct (last_id h >? cs_id c)|]; cbn; repeat split.
Qed.

(** C4. One step of the analyzer, from a state whose counters are not at
    the top of their 64-bit range, never shrinks [bounds], never lowers
    one of the four counters or the four largest ids, can turn [ordered]
    only off and [multiple_versions] only on; [ordered] starts as true
    and [multiple_versions] as false. *)
Theorem update_step_monotone (h : InfoHandler) (e : Entity) :
  counters_below_max h ->
  (forall p : Location,
      box_contains (bounds h) p = true ->
      box_contains (bounds (apply_item h e)) p = true)
  /\ changesets h <= changesets (apply_item h e)
  /\ nodes h <= nodes (apply_item h e)
  /\ ways h <= ways (apply_item h e)
  /\ relations h <= relations (apply_item h e)
  /\ largest_changeset_id h <= largest_changeset_id (apply_item h e)
  /\ largest_node_id h <= largest_node_id (apply_item h e)
  /\ largest_way_id h <= largest_way_id (apply_item h e)
  /\ largest_relation_id h <= largest_relation_id (apply_item h e)
  /\ (ordered h = false -> ordered (apply_item h e) = false)
  /\ (multiple_versions h = true ->
      multiple_versions (apply_item h e) = true)
  /\ ordered InfoHandler_init = true
  /\ multiple_versions InfoHandler_init = false.
Proof.
  intros (Hc & Hn & Hw & Hr).
  assert (Hflags :
    (ordered h = false -> ordered (apply_item h e) = false)
    /\ (multiple_versions h = true ->
        multiple_versions (apply_item h e) = true)
    /\ ordered InfoHandler_init = true
    /\ multiple_versions InfoHandler_init = false).
  { rewrite ordered_apply_item, multiple_versions_apply_item.
    repeat split.
    - intros ->. reflexivity.
    - intros ->. reflexivity. }
  destruct e as [n|w|r|c]; cbn [apply_item].
  - destruct (osm_object_frame h node (node_object n))
      as (Eb & E1 & E2 & E3 & E4 & E5 & E6 & E7 & E8 & _).
    unfold node_cb, set_nodes, set_bounds, set_crc32; cbn [bounds changesets nodes ways relations largest_changeset_id
           largest_node_id largest_way_id largest_relation_id].
    rewrite Eb, E1, E2, E3, E4, E5, E6, E7, E8.
    split; [intros p Hp; apply box_extend_contains; exact Hp|].
    pose proof (incr64_ge _ Hn).
    pose proof (max_op_update_ge (largest_node_id h) (obj_id (node_object n))).
    repeat (split; [lia|]). exact Hflags.
  - destruct (osm_object_frame h way (way_object w))
      as (Eb & E1 & E2 & E3 & E4 & E5 & E6 & E7 & E8 & _).
    unfold way_cb, set_ways, set_crc32; cbn [bounds changesets nodes ways relations largest_changeset_id
           largest_node_id largest_way_id largest_relation_id].
    rewrite Eb, E1, E2, E3, E4, E5, E6, E7, E8.
    split; [intros p Hp; exact Hp|].
    pose proof (incr64_ge _ Hw).
    pose proof (max_op_update_ge (largest_way_id h) (obj_id (way_object w))).
    repeat (split; [lia|]). exact Hflags.
  - destruct (osm_object_frame h relation (relation_object r))
      as (Eb & E1 & E2 & E3 & E4 & E5 & E6 & E7 & E8 & _).
    unfold relation_cb, set_relations, set_crc32; cbn [bounds changesets nodes ways relations largest_changeset_id
           largest_node_id largest_way_id largest_relation_id].
    rewrite Eb, E1, E2, E3, E4, E5, E6, E7, E8.
    split; [intros p Hp; exact Hp|].
    pose proof (incr64_ge _ Hr).
    pose proof (max_op_update_ge (largest_relation_id h)
                  (obj_id (relation_object r))).
    repeat (split; [lia|]). exact Hflags.
  - destruct (changeset_cb_frame h c)
      as (Eb & E1 & E2 & E3 & E4 & E5 & E6 & E7 & E8).
    rewrite Eb, E1, E2, E3, E4, E5, E6, E7, E8.
    split; [intros p Hp; exact Hp|].
    pose proof (incr64_ge _ Hc).
    pose proof (max_op_update_ge (largest_changeset_id h) (cs_id c)).
    repeat (split; [lia|]). exact Hflags.
Qed.

(** The hypothesis of [update_step_monotone] holds along every stream of
    fewer than 2^64 - 1 entities: a counter is at most the number of
    entities seen. *)
Lemma counters_step (h : InfoHandler) (e : Entity) :
  let h' := apply_item h e in
  (changesets h' = changesets h \/ changesets h' = incr64 (changesets h)) /\
  (nodes h' = nodes h \/ nodes h' = incr64 (nodes h)) /\
  (ways h' = ways h \/ ways h' = incr64 (ways h)) /\
  (relations h' = relations h \/ relations h' = incr64 (relations h)).
Proof.
  destruct e as [n|w|r|c]; cbn [apply_item].
  - destruct (osm_object_frame h node (node_object n))
      as (_ & E1 & E2 & E3 & E4 & _).
    unfold node_cb, set_nodes, set_bounds, set_crc32;
      cbn [changesets nodes ways relations].
    rewrite E1, E2, E3, E4. auto.
  - destruct (osm_object_frame h way (way_object w))
      as (_ & E1 & E2 & E3 & E4 & _).
    unfold way_cb, set_ways, set_crc32;
      cbn [changesets nodes ways relations].
    rewrite E1, E2, E3, E4. auto.
  - destruct (osm_object_frame h relation (relation_object r))
      as (_ & E1 & E2 & E3 & E4 & _).
    unfold relation_cb, set_relations, set_crc32;
      cbn [changesets nodes ways relations].
    rewrite E1, E2, E3, E4. auto.
  - destruct (changeset_cb_frame h c) as (_ & E1 & E2 & E3 & E4 & _).
    rewrite E1, E2, E3, E4. auto.
Qed.

Lemma incr64_bounds (n : Z) : 0 <= n -> 0 <= incr64 n <= n + 1.
Proof.
  intro H. unfold incr64. split.
  - apply Z.mod_pos_bound. lia.
  - apply Z.mod_le; lia.
Qed.

Lemma counters_apply_from (l : list Entity) :
  forall h : InfoHandler,
    0 <= changesets h -> 0 <= nodes h -> 0 <= ways h -> 0 <= relations h ->
    let h' := apply_from h l in
    0 <= changesets h' <= changesets h + Z.of_nat (List.length l) /\
    0 <= nodes h' <= nodes h + Z.of_nat (List.length l) /\
    0 <= ways h' <= ways h + Z.of_nat (List.length l) /\
    0 <= relations h' <= relations h + Z.of_nat (List.length l).
Proof.
  induction l as [|e l IH]; intros h Hc Hn Hw Hr.
  - cbn. lia.
  - rewrite apply_from_cons.
    destruct (counters_step h e) as (Sc & Sn & Sw & Sr).
    pose proof (incr64_bounds _ Hc). pose proof (incr64_bounds _ Hn).
    pose proof (incr64_bounds _ Hw). pose proof (incr64_bounds _ Hr).
    specialize (IH (apply_item h e)).
    cbn zeta in IH, Sc, Sn, Sw, Sr |- *.
    rewrite length_cons, Nat2Z.inj_succ.
    assert (IH' := IH ltac:(destruct Sc as [-> | ->]; lia)
                      ltac:(destruct Sn as [-> | ->]; lia)
                      ltac:(destruct Sw as [-> | ->]; lia)
                      ltac:(destruct Sr as [-> | ->]; lia)).
    destruct Sc as [Ec | Ec], Sn as [En | En], Sw as [Ew | Ew],
      Sr as [Er | Er]; rewrite Ec, En, Ew, Er in IH'; lia.
Qed.

Lemma counters_below_max_analyze (l : list Entity) :
  Z.of_nat (List.length l) < 2 ^ 64 - 1 -> counters_below_max (analyze l).
Proof.
  intro H. unfold counters_below_max, analyze.
  pose proof (counters_apply_from l InfoHandler_init
                ltac:(cbn; lia) ltac:(cbn; lia) ltac:(cbn; lia)
                ltac:(cbn; lia)) as B.
  cbn zeta in B. cbn [changesets nodes ways relations InfoHandler_init] in B.
  lia.
Qed.

(** ** Timestamps *)

Lemma min_op_update_min (m v : Z) : min_op_update m v = Z.min m v.
Proof. unfold min_op_update. destruct (Z.ltb_spec v m); lia. Qed.

Lemma max_op_update_max (m v : Z) : max_op_update m v = Z.max m v.
Proof.
  unfold max_op_update. rewrite Z.gtb_ltb. destruct (Z.ltb_spec m v); lia.
Qed.

Lemma timestamps_osm_object (h : InfoHandler) (ty : item_type)
    (o : OSMObject) :
  first_timestamp (osm_object h ty o)
  = min_op_update (first_timestamp h) (obj_timestamp o)
  /\ last_timestamp (osm_object h ty o)
     = max_op_update (last_timestamp h) (obj_timestamp o).
Proof.
  unfold osm_object; cbn.
  destruct (item_type_eqb (last_type h) ty).
  - destruct (last_id h =? obj_id o); cbn;
      destruct (id_order (obj_id o) (last_id h)); cbn; split; reflexivity.
  - destruct (negb (item_type_eqb (last_type h) changeset)
              && item_type_gtb (last_type h) ty); cbn; split; reflexivity.
Qed.

Lemma timestamps_changeset_cb (h : InfoHandler) (c : Changeset) :
  first_timestamp (changeset_cb h c) = first_timestamp h
  /\ last_timestamp (changeset_cb h c) = last_timestamp h.
Proof.
  unfold changeset_cb.
  destruct (item_type_eqb (last_type h) changeset);
    [destruct (last_id h >? cs_id c)|]; cbn; split; reflexivity.
Qed.

(** C7, as stated, fails: the first node of a stream, with an unset
    timestamp, moves [first_timestamp] from its sentinel to 0. *)
Lemma absent_timestamp_moves_first :
  timestamp_valid (obj_timestamp (plain_object 1 0)) = false
  /\ first_timestamp (osm_object InfoHandler_init node (plain_object 1 0))
     <> first_timestamp InfoHandler_init
  /\ first_timestamp (analyze [ENode (plain_node 1 0)]) = 0.
Proof.
  split; [reflexivity|split; [|reflexivity]].
  intro H. discriminate H.
Qed.

(** C7, amended. [osm_object] folds the timestamp of every object into
    both trackers: [first_timestamp] becomes the smaller, [last_timestamp]
    the larger of its old value and the timestamp.  An unset timestamp is
    the value 0, so it leaves [last_timestamp] as it was and sets
    [first_timestamp] to 0.  After a stream without objects both trackers
    still hold their start values. *)
Theorem timestamp_trackers :
  (forall (h : InfoHandler) (ty : item_type) (o : OSMObject),
      first_timestamp (osm_object h ty o)
      = Z.min (first_timestamp h) (obj_timestamp o)
      /\ last_timestamp (osm_object h ty o)
         = Z.max (last_timestamp h) (obj_timestamp o))
  /\
  (forall (h : InfoHandler) (ty : item_type) (o : OSMObject),
      timestamp_valid (obj_timestamp o) = false ->
      0 <= first_timestamp h ->
      0 <= last_timestamp h ->
      first_timestamp (osm_object h ty o) = 0
      /\ last_timestamp (osm_object h ty o) = last_timestamp h)
  /\
  (forall l : list Entity,
      forallb (fun e => negb (is_object e)) l = true ->
      first_timestamp (analyze l) = end_of_time
      /\ last_timestamp (analyze l) = start_of_time).
Proof.
  split; [|split].
  - intros h ty o. destruct (timestamps_osm_object h ty o) as [-> ->].
    rewrite min_op_update_min, max_op_update_max. split; reflexivity.
  - intros h ty o Habsent Hf Hl.
    destruct (timestamps_osm_object h ty o) as [-> ->].
    rewrite min_op_update_min, max_op_update_max.
    unfold timestamp_valid in Habsent.
    apply negb_false_iff, Z.eqb_eq in Habsent. rewrite Habsent. lia.
  - intro l. unfold analyze.
    change end_of_time with (first_timestamp InfoHandler_init).
    change start_of_time with (last_timestamp InfoHandler_init).
    generalize InfoHandler_init.
    induction l as [|e l IH]; intros h Hall; [split; reflexivity|].
    cbn [forallb] in Hall. apply andb_prop in Hall. destruct Hall as [He Hl].
    rewrite apply_from_cons.
    destruct (IH (apply_item h e) Hl) as [-> ->].
    destruct e as [n|w|r|c]; try discriminate He.
    apply timestamps_changeset_cb.
Qed.

(** ** The checksum *)

Lemma process_bytes_app (r : Z) (a b : list Z) :
  process_bytes r (a ++ b) = process_bytes (process_bytes r a) b.
Proof. apply fold_left_app. Qed.

Lemma crc32_apply_item (h : InfoHandler) (e : Entity) :
  crc32 (apply_item h e) = process_bytes (crc32 h) (entity_bytes e).
Proof.
  destruct e as [n|w|r|c]; cbn [apply_item entity_bytes].
  - destruct (osm_object_frame h node (node_object n)) as (_&_&_&_&_&_&_&_&_&E).
    unfold node_cb, set_nodes, set_bounds, set_crc32; cbn [crc32].
    rewrite E. reflexivity.
  - destruct (osm_object_frame h way (way_object w)) as (_&_&_&_&_&_&_&_&_&E).
    unfold way_cb, set_ways, set_crc32; cbn [crc32].
    rewrite E. reflexivity.
  - destruct (osm_object_frame h relation (relation_object r))
      as (_&_&_&_&_&_&_&_&_&E).
    unfold relation_cb, set_relations, set_crc32; cbn [crc32].
    rewrite E. reflexivity.
  - unfold changeset_cb.
    destruct (item_type_eqb (last_type h) changeset);
      [destruct (last_id h >? cs_id c)|]; reflexivity.
Qed.

Lemma crc32_apply_from (l : list Entity) :
  forall h : InfoHandler,
    crc32 (apply_from h l)
    = process_bytes (crc32 h) (flat_map entity_bytes l).
Proof.
  induction l as [|e l IH]; intro h; [reflexivity|].
  rewrite apply_from_cons, IH, crc32_apply_item.
  cbn [flat_map]. rewrite process_bytes_app. reflexivity.
Qed.

(** C8, as stated, fails: two nodes that differ in their id only, 5 and
    7976584772, have different encodings, yet both orders give the same
    checksum (the two ids differ by the generator polynomial of the
    CRC). *)
Lemma checksum_swap_collision :
  entity_bytes (ENode (plain_node 5 0))
  <> entity_bytes (ENode (plain_node 7976584772 0))
  /\ checksum (crc32 (analyze [ENode (plain_node 5 0);
                               ENode (plain_node 7976584772 0)]))
     = checksum (crc32 (analyze [ENode (plain_node 7976584772 0);
                                 ENode (plain_node 5 0)])).
Proof.
  split.
  - vm_compute. intro H. discriminate H.
  - vm_compute. reflexivity.
Qed.

(** C8, amended. The checksum of a stream is the CRC-32 of the
    concatenated encodings of its entities, in stream order: streams with
    the same concatenation have the same checksum, and the order matters
    (there are two entities whose two orders give different checksums),
    although not for every pair of distinct encodings. *)
Theorem checksum_content_and_order :
  (forall l : list Entity,
      checksum (crc32 (analyze l))
      = checksum (process_bytes crc32_initial (flat_map entity_bytes l)))
  /\
  (forall l1 l2 : list Entity,
      flat_map entity_bytes l1 = flat_map entity_bytes l2 ->
      checksum (crc32 (analyze l1)) = checksum (crc32 (analyze l2)))
  /\
  (exists a b : Entity,
      checksum (crc32 (analyze [a; b])) <> checksum (crc32 (analyze [b; a]))).
Proof.
  assert (H : forall l : list Entity,
      crc32 (analyze l)
      = process_bytes crc32_initial (flat_map entity_bytes l)).
  { intro l. unfold analyze. rewrite crc32_apply_from. reflexivity. }
  split; [|split].
  - intro l. rewrite H. reflexivity.
  - intros l1 l2 E. rewrite !H, E. reflexivity.
  - exists (ENode (plain_node 1 0)), (ENode (plain_node 2 0)).
    vm_compute. intro E. discriminate E.
Qed.

(* ================================================================== *)
(** * Properties of the key validation                                 *)
(* ================================================================== *)

Lemma substr0_prefix (p s : string) :
  (substr0 (String.length p) s =? p)%string = prefix p s.
Proof.
  destruct (prefix p s) eqn:E.
  - apply prefix_correct in E. unfold substr0. rewrite E.
    apply String.eqb_refl.
  - apply String.eqb_neq. intro H. apply prefix_correct in H.
    rewrite H in E. discriminate E.
Qed.

Lemma header_option_test (s : string) :
  (substr0 14 s =? "header.option.")%string = prefix "header.option." s.
Proof. exact (substr0_prefix "header.option." s). Qed.

Lemma data_test (s : string) :
  (substr0 5 s =? "data.")%string = prefix "data." s.
Proof. exact (substr0_prefix "data." s). Qed.

Lemma prefix_append (p r : string) : prefix p (String.append p r) = true.
Proof.
  induction p as [|a p IH]; [destruct r; reflexivity|].
  cbn. destruct (ascii_dec a a) as [_|N]; [exact IH|contradiction].
Qed.


Lemma append_eqb_l (p a b : string) :
  (String.append p a =? String.append p b)%string = (a =? b)%string.
Proof.
  induction p as [|c p IH]; [reflexivity|].
  cbn. rewrite Ascii.eqb_refl. exact IH.
Qed.

Lemma find_eqb_None (k : string) (l : list string) :
  find (String.eqb k) l = None <-> ~ In k l.
Proof.
  split.
  - intros H Hin. pose proof (find_none _ _ H k Hin) as E.
    rewrite String.eqb_refl in E. discriminate E.
  - intro H. destruct (find (String.eqb k) l) as [x|] eqn:E; [|reflexivity].
    apply find_some in E. destruct E as [Hin Heq].
    apply String.eqb_eq in Heq. subst x. contradiction.
Qed.

Lemma unknown_is_not_extended (k : string) :
  unknown_value_error k <> extended_needed_error.
Proof. intro H. discriminate H. Qed.

(** [check_get_value] by cases. *)
Lemma check_get_value_cases (extended : bool) (k : string) :
  check_get_value extended k
  = if prefix "header.option." k
       || in_catalog k
    then if prefix "data." k && negb extended
         then throw extended_needed_error
         else ret tt
    else throw (unknown_value_error k).
Proof.
  unfold check_get_value. rewrite header_option_test, data_test.
  destruct (prefix "header.option." k); cbn [negb orb].
  - cbn. destruct (prefix "data." k && negb extended); reflexivity.
  - unfold in_catalog.
    destruct (find (String.eqb k) known_values); cbn;
      [destruct (prefix "data." k && negb extended)|]; reflexivity.
Qed.

Lemma key_accepted_test (k : string) :
  prefix "header.option." k
  || in_catalog k = true
  <-> key_accepted k.
Proof.
  unfold key_accepted, in_catalog. rewrite orb_true_iff.
  destruct (find (String.eqb k) known_values) as [x|] eqn:E.
  - apply find_some in E. destruct E as [Hin Heq].
    apply String.eqb_eq in Heq. subst x. tauto.
  - apply find_eqb_None in E.
    split; (intros [H|H]; [left; exact H|]);
      [discriminate H|contradiction].
Qed.

(** C6. [--get] accepts a key exactly when it starts with
    [header.option.] or is in the catalog, and answers every other key
    with the unknown-value error; an accepted key that starts with
    [data.] is answered with a second, different error when extended mode
    is off.  So [data.count.nodes] without extended mode is rejected and
    [header.option.anything] passes in both modes. *)
Theorem key_validation (k : string) (extended : bool) :
  (check_get_value extended k = throw (unknown_value_error k)
   <-> ~ key_accepted k)
  /\ (key_accepted k ->
      prefix "data." k = true -> extended = false ->
      check_get_value extended k = throw extended_needed_error)
  /\ (key_accepted k ->
      prefix "data." k = false \/ extended = true ->
      check_get_value extended k = ret tt)
  /\ unknown_value_error k <> extended_needed_error
  /\ check_get_value false "data.count.nodes" = throw extended_needed_error
  /\ (forall e : bool, check_get_value e "header.option.anything" = ret tt).
Proof.
  rewrite check_get_value_cases.
  pose proof (key_accepted_test k) as A.
  destruct (prefix "header.option." k
            || in_catalog k).
  - assert (Hk : key_accepted k) by (apply A; reflexivity).
    split; [|split; [|split; [|split; [|split]]]].
    + split; [|intro N; contradiction].
      destruct (prefix "data." k && negb extended); intro H;
        [|discriminate H].
      unfold throw in H. injection H as H. discriminate H.
    + intros _ -> ->. reflexivity.
    + intros _ [-> | ->]; [reflexivity|].
      rewrite andb_false_r. reflexivity.
    + apply unknown_is_not_extended.
    + reflexivity.
    + intros []; reflexivity.
  - assert (Hk : ~ key_accepted k).
    { intro H. apply A in H. discriminate H. }
    split; [|split; [|split; [|split; [|split]]]].
    + split; [intros _; exact Hk|reflexivity].
    + intro H; contradiction.
    + intro H; contradiction.
    + apply unknown_is_not_extended.
    + reflexivity.
    + intros []; reflexivity.
Qed.

(* ================================================================== *)
(** * Properties of the renderers                                      *)
(* ================================================================== *)

Lemma lines_written_app (a b : cout) :
  lines_written (a ++ b) = (lines_written a + lines_written b)%nat.
Proof.
  induction a as [|c a IH]; [reflexivity|].
  cbn [app lines_written]. rewrite IH. apply Nat.add_assoc.
Qed.

Lemma render_simple (k : string) (extended : bool) (fn : string) (f : File)
    (hd : Header) (es : list Entity) :
  render (mkSimpleOutput k) extended fn f hd es
  = (simple_file k fn f ++ simple_header k hd
     ++ (if extended then simple_data k (analyze es) else []) ++ [],
     None).
Proof. destruct extended; reflexivity. Qed.

(** [add_bbox] throws exactly on a box with a corner that is not valid. *)
Lemma add_bbox_cases (b : Box) :
  add_bbox b
  = if box_printable b then ret (bbox_calls b)
    else throw invalid_location_error.
Proof.
  unfold add_bbox, lon, lat, box_printable, bbox_calls.
  destruct (location_valid (bottom_left b));
    destruct (location_valid (top_right b)); reflexivity.
Qed.

Lemma add_bboxes_cases (bs : list Box) :
  add_bboxes bs
  = if forallb box_printable bs then ret (flat_map bbox_calls bs)
    else throw invalid_location_error.
Proof.
  induction bs as [|b bs IH]; [reflexivity|].
  cbn [add_bboxes forallb flat_map]. rewrite add_bbox_cases, IH.
  destruct (box_printable b); [|reflexivity].
  destruct (forallb box_printable bs); reflexivity.
Qed.

Lemma json_header_cases (hd : Header) :
  json_header hd
  = if forallb box_printable (boxes hd) then ret (json_header_calls hd)
    else throw invalid_location_error.
Proof.
  unfold json_header. rewrite add_bboxes_cases.
  destruct (forallb box_printable (boxes hd)); reflexivity.
Qed.

Lemma json_data_cases (h : InfoHandler) :
  json_data h
  = if box_printable (bounds h) then ret (json_data_calls h)
    else throw invalid_location_error.
Proof.
  unfold json_data, json_data_head. rewrite add_bbox_cases.
  destruct (box_printable (bounds h)); reflexivity.
Qed.

(** The JSON view either gets as far as [output()] and prints the whole
    document, or throws before anything is printed. *)
Lemma render_json (extended : bool) (fn : string) (f : File)
    (hd : Header) (es : list Entity) :
  render JSONOutput_new extended fn f hd es
  = if forallb box_printable (boxes hd)
       && (negb extended || box_printable (bounds (analyze es)))
    then ([Document (([StartObject] ++ json_file fn f ++ json_header_calls hd)
                     ++ (if extended then json_data_calls (analyze es)
                         else [])
                     ++ [EndObject]);
           Text (Lit nl)], None)
    else ([], Some invalid_location_error).
Proof.
  unfold render, JSONOutput_new;
    cbn [file_m header_m data_m output_m JSONOutput_Output json_call m_writer
         ret bind].
  rewrite json_header_cases.
  destruct (forallb box_printable (boxes hd)); [|reflexivity].
  cbn [bind ret throw andb]. destruct extended; cbn [negb orb].
  - rewrite json_data_cases.
    destruct (box_printable (bounds (analyze es))); [|reflexivity].
    cbn [bind ret json_call m_writer app].
    rewrite <- ?app_assoc. reflexivity.
  - unfold ret. cbn [json_call m_writer app].
    rewrite <- ?app_assoc, ?app_nil_r. reflexivity.
Qed.

(** The loop of [SimpleOutput::header] prints nothing for a key outside
    [header.option.]. *)
Lemma option_loop_no_prefix (k : string) (opts : list (string * string)) :
  prefix "header.option." k = false ->
  flat_map (fun option : string * string =>
              if (k =? String.append "header.option." (fst option))%string
              then [Text (Str (snd option)); Text (Lit nl)]
              else [])
           opts = [].
Proof.
  intro P. induction opts as [|o opts IH]; [reflexivity|].
  cbn [flat_map]. rewrite IH.
  destruct (String.eqb_spec k (String.append "header.option." (fst o)))
    as [E|_]; [|reflexivity].
  rewrite E, prefix_append in P. discriminate P.
Qed.




Lemma forallb_flat_map {A B : Type} (p : B -> bool) (f : A -> list B)
    (l : list A) :
  (forall a : A, forallb p (f a) = true) ->
  forallb p (flat_map f l) = true.
Proof.
  intro H. induction l as [|a l IH]; [reflexivity|].
  cbn [flat_map]. rewrite forallb_app, H, IH. reflexivity.
Qed.

Lemma other_call_not_in (l : list writer_call) :
  forallb other_call l = true ->
  ~ In WNull l /\ ~ In (key "multiple_versions") l.
Proof.
  intro H. rewrite forallb_forall in H.
  split; intro Hin; apply H in Hin; discriminate Hin.
Qed.

Lemma other_call_json_file (fn : string) (f : File) :
  forallb other_call (json_file fn f) = true.
Proof.
  unfold json_file. destruct (negb (filename f =? EmptyString)%string); reflexivity.
Qed.

Lemma other_call_json_header (hd : Header) :
  forallb other_call (json_header_calls hd) = true.
Proof.
  unfold json_header_calls. rewrite !forallb_app.
  rewrite !forallb_flat_map by (intro; reflexivity). reflexivity.
Qed.

Lemma other_call_json_data_head (h : InfoHandler) :
  forallb other_call (json_data_head_calls h) = true.
Proof.
  unfold json_data_head_calls.
  destruct (negb (first_timestamp h =? end_of_time)); reflexivity.
Qed.

Lemma other_call_json_data_tail (h : InfoHandler) :
  forallb other_call (json_data_tail h) = true.
Proof. reflexivity. Qed.

(** C5. With the key [data.multiple_versions] the single-value view
    prints the one word unknown when [ordered] is false, and yes or no
    after [multiple_versions] when it is true.  A JSON document that is
    printed never holds a null; it has no member [multiple_versions] when
    [ordered] is false, and exactly one, with the value of
    [multiple_versions], when [ordered] is true.  But the JSON view does
    not always print: on two versions of way 1, a stream with no node,
    [ordered] and [multiple_versions] are both true, the bounds stay
    undefined, [add_bbox] throws [osmium::invalid_location] in
    [JSONOutput::data], and nothing is written. *)
Theorem multiple_versions_reporting :
  (forall (cmd : CommandFileinfo) (fn : string) (f : File) (hd : Header)
          (es : list Entity),
      m_json_output cmd = false ->
      m_extended cmd = true ->
      cmd_get_value cmd = "data.multiple_versions"%string ->
      run cmd fn f hd es
      = ([Text (Lit (if ordered (analyze es)
                     then if multiple_versions (analyze es)
                          then line "yes" else line "no"
                     else line "unknown"))], None))
  /\
  (forall (cmd : CommandFileinfo) (fn : string) (f : File) (hd : Header)
          (es : list Entity) (doc : list writer_call),
      m_json_output cmd = true ->
      m_extended cmd = true ->
      run cmd fn f hd es = ([Document doc; Text (Lit nl)], None) ->
      ~ In WNull doc
      /\ (ordered (analyze es) = false ->
          ~ In (key "multiple_versions") doc)
      /\ (ordered (analyze es) = true ->
          exists pre post : list writer_call,
            doc = pre ++ key "multiple_versions"
                      :: WBool (multiple_versions (analyze es)) :: post
            /\ ~ In (key "multiple_versions") pre
            /\ ~ In (key "multiple_versions") post))
  /\
  (ordered (analyze [EWay (plain_way 1 0); EWay (plain_way 1 0)]) = true
   /\ multiple_versions (analyze [EWay (plain_way 1 0); EWay (plain_way 1 0)])
      = true
   /\ run (mkCommandFileinfo true true EmptyString) EmptyString no_file
          two_options [EWay (plain_way 1 0); EWay (plain_way 1 0)]
      = ([], Some invalid_location_error)).
Proof.
  split; [|split].
  - intros cmd fn f hd es Hj He Hk.
    unfold run. rewrite Hj, He, Hk. cbn [String.eqb].
    rewrite render_simple.
    unfold simple_header.
    rewrite (option_loop_no_prefix "data.multiple_versions" (options hd)
               eq_refl).
    generalize (analyze es) as h. intro h.
    unfold simple_file, simple_data; cbn.
    destruct (ordered h); [destruct (multiple_versions h)|]; reflexivity.
  - intros cmd fn f hd es doc Hj He Hrun.
    unfold run in Hrun. rewrite Hj, He, render_json in Hrun.
    destruct (forallb box_printable (boxes hd)
              && (negb true || box_printable (bounds (analyze es))));
      [|discriminate Hrun].
    assert (E : doc = ([StartObject] ++ json_file fn f
                       ++ json_header_calls hd)
                      ++ json_data_calls (analyze es) ++ [EndObject])
      by congruence.
    subst doc. clear Hrun.
    generalize (analyze es) as h. intro h.
    pose proof (other_call_json_file fn f) as Hf.
    pose proof (other_call_json_header hd) as Hh.
    pose proof (other_call_json_data_head h) as Hd.
    pose proof (other_call_json_data_tail h) as Ht.
    assert (Hpre : forallb other_call
                     (([StartObject] ++ json_file fn f
                       ++ json_header_calls hd)
                      ++ json_data_head_calls h) = true).
    { rewrite !forallb_app, Hf, Hh, Hd. reflexivity. }
    assert (Hpost : forallb other_call (json_data_tail h ++ [EndObject])
                    = true).
    { rewrite forallb_app, Ht. reflexivity. }
    unfold json_data_calls.
    split; [|split].
    + intro Hin. rewrite !in_app_iff in Hin.
      assert (Hno : forall l : list writer_call,
                 forallb other_call l = true -> ~ In WNull l)
        by (intros l Hl; apply (other_call_not_in l Hl)).
      destruct (ordered h); cbn [In] in Hin;
        repeat match type of Hin with
               | _ \/ _ => destruct Hin as [Hin|Hin]
               end;
        first [ discriminate Hin
              | exact Hin
              | exact (Hno _ Hf Hin)
              | exact (Hno _ Hh Hin)
              | exact (Hno _ Hd Hin)
              | exact (Hno _ Ht Hin) ].
    + intros ->. apply other_call_not_in.
      rewrite !forallb_app, Hf, Hh, Hd, Ht. reflexivity.
    + intros ->.
      exists (([StartObject] ++ json_file fn f ++ json_header_calls hd)
              ++ json_data_head_calls h), (json_data_tail h ++ [EndObject]).
      split; [|split].
      * rewrite <- !app_assoc. reflexivity.
      * apply other_call_not_in. exact Hpre.
      * apply other_call_not_in. exact Hpost.
  - repeat split; reflexivity.
Qed.

(** ** The options of a header

    [Header] keeps its options in a [std::map]: whatever the calls of
    [set], the names come out in increasing order and no name comes out
    twice. *)

Lemma compare_lt_trans (a b c : string) :
  String.compare a b = Lt -> String.compare b c = Lt ->
  String.compare a c = Lt.
Proof.
  intros H1 H2.
  apply OrderedTypeEx.String_as_OT.cmp_lt.
  apply OrderedTypeEx.String_as_OT.cmp_lt in H1, H2.
  exact (OrderedTypeEx.String_as_OT.lt_trans _ _ _ H1 H2).
Qed.

Lemma compare_lt_irrefl (a : string) : String.compare a a <> Lt.
Proof.
  intro H. pose proof (String.compare_antisym a a) as A.
  rewrite H in A. discriminate A.
Qed.

Lemma options_set_in (m : list (string * string)) (k v : string)
    (x : string * string) :
  In x (options_set m k v) -> x = (k, v) \/ In x m.
Proof.
  induction m as [|[k' v'] m IH]; cbn [options_set In].
  - intros [<-|[]]. left. reflexivity.
  - destruct (String.compare k k'); cbn [In]; intuition auto.
Qed.

Lemma options_set_increasing (m : list (string * string)) (k v : string) :
  increasing m -> increasing (options_set m k v).
Proof.
  induction m as [|[k' v'] m IH]; cbn [options_set increasing fst].
  - intros _. split; [constructor|exact I].
  - intros [Ha Hi]. destruct (String.compare k k') eqn:C;
      cbn [increasing fst].
    + apply String.compare_eq_iff in C. subst k'. split; assumption.
    + split; [|split; assumption].
      constructor; [exact C|].
      unfold above in *. rewrite Forall_forall in *.
      intros x Hx. exact (compare_lt_trans _ _ _ C (Ha x Hx)).
    + split; [|exact (IH Hi)].
      unfold above in *. rewrite Forall_forall in *.
      intros x Hx. apply options_set_in in Hx. destruct Hx as [->|Hx].
      * cbn [fst]. rewrite String.compare_antisym, C. reflexivity.
      * exact (Ha x Hx).
Qed.

Lemma options_increasing (hd : Header) : increasing (options hd).
Proof.
  unfold options.
  assert (G : forall (calls m : list (string * string)),
             increasing m ->
             increasing (fold_left
                           (fun m kv => options_set m (fst kv) (snd kv))
                           calls m)).
  { induction calls as [|c calls IH]; intros m Hm; [exact Hm|].
    cbn [fold_left]. apply IH, options_set_increasing, Hm. }
  apply G. exact I.
Qed.

(** No option name comes out of a header twice. *)
Lemma options_nodup (hd : Header) : NoDup (map fst (options hd)).
Proof.
  pose proof (options_increasing hd) as H.
  induction (options hd) as [|o m IH]; [constructor|].
  cbn [increasing map] in *. destruct H as [Ha Hi].
  constructor; [|exact (IH Hi)].
  intro Hin. apply in_map_iff in Hin. destruct Hin as (x & E & Hx).
  unfold above in Ha. rewrite Forall_forall in Ha. specialize (Ha x Hx).
  rewrite E in Ha. exact (compare_lt_irrefl _ Ha).
Qed.


(* ================================================================== *)
(** * The theorems at concrete inputs                                  *)
(* ================================================================== *)

Lemma duplicate_detection_witness :
  (is_object (ENode (plain_node 3 0)) = true
   /\ entity_type (ENode (plain_node 3 0)) = entity_type (ENode (plain_node 3 0))
   /\ multiple_versions
        (analyze ([] ++ [ENode (plain_node 3 0); ENode (plain_node 3 0)]))
      = multiple_versions (analyze ([] ++ [ENode (plain_node 3 0)]))
        || (entity_id (ENode (plain_node 3 0))
            =? entity_id (ENode (plain_node 3 0))))
  /\ (obj_id (node_object (plain_node 3 0)) = 3
      /\ obj_id (node_object (plain_node 4 0)) = 4
      /\ ordered (analyze [ENode (plain_node 3 0); ENode (plain_node 3 0);
                           ENode (plain_node 4 0)]) = true
      /\ multiple_versions
           (analyze [ENode (plain_node 3 0); ENode (plain_node 3 0);
                     ENode (plain_node 4 0)]) = true).
Proof.
  split.
  - split; [reflexivity|split; [reflexivity|]].
    apply (proj1 duplicate_detection); reflexivity.
  - split; [reflexivity|split; [reflexivity|]].
    apply (proj2 duplicate_detection); reflexivity.
Defined.

Lemma changeset_order_witness :
  (map cs_id (map plain_changeset [1; 2; 2; 5]) = [1; 2; 2; 5]
   /\ ordered (analyze (map EChangeset (map plain_changeset [1; 2; 2; 5])))
      = true)
  /\ (map cs_id (map plain_changeset [1; 5; 3]) = [1; 5; 3]
      /\ ordered (analyze (map EChangeset (map plain_changeset [1; 5; 3])))
         = false).
Proof.
  split; (split; [reflexivity|]).
  - apply (proj1 (proj2 (proj2 changeset_order))). reflexivity.
  - apply (proj2 (proj2 (proj2 changeset_order))). reflexivity.
Defined.

Lemma kind_regression_detection_witness :
  (is_object (ENode (plain_node 2 0)) = true
   /\ entity_type (EWay (plain_way 1 0)) <> entity_type (ENode (plain_node 2 0))
   /\ ordered (analyze ([ENode (plain_node 1 0)]
                        ++ [EWay (plain_way 1 0); ENode (plain_node 2 0)]))
      = ordered (analyze ([ENode (plain_node 1 0)] ++ [EWay (plain_way 1 0)]))
        && negb (kind_regression (entity_type (EWay (plain_way 1 0)))
                                 (entity_type (ENode (plain_node 2 0)))))
  /\ (obj_id (node_object (plain_node 1 0)) = 1
      /\ obj_id (way_object (plain_way 1 0)) = 1
      /\ obj_id (node_object (plain_node 2 0)) = 2
      /\ ordered (analyze [ENode (plain_node 1 0); EWay (plain_way 1 0);
                           ENode (plain_node 2 0)]) = false).
Proof.
  split.
  - assert (Hty : entity_type (EWay (plain_way 1 0))
                  <> entity_type (ENode (plain_node 2 0)))
      by (intro H; discriminate H).
    split; [reflexivity|split; [exact Hty|]].
    apply (proj1 kind_regression_detection); [reflexivity|exact Hty].
  - split; [reflexivity|split; [reflexivity|split; [reflexivity|]]].
    apply (proj2 (proj2 kind_regression_detection)); reflexivity.
Defined.

Lemma changeset_resets_lookback_witness :
  (is_object (ENode (plain_node 1 0)) = true
   /\ ordered (analyze ([EWay (plain_way 1 0)]
                        ++ [EChangeset (plain_changeset 9);
                            ENode (plain_node 1 0)]))
      = ordered (analyze ([EWay (plain_way 1 0)]
                          ++ [EChangeset (plain_changeset 9)])))
  /\ (obj_id (way_object (plain_way 1 0)) = 1
      /\ cs_id (plain_changeset 9) = 9
      /\ obj_id (node_object (plain_node 1 0)) = 1
      /\ ordered (analyze [EWay (plain_way 1 0);
                           EChangeset (plain_changeset 9);
                           ENode (plain_node 1 0)]) = true).
Proof.
  split.
  - split; [reflexivity|].
    apply (proj1 (proj2 changeset_resets_lookback)). reflexivity.
  - split; [reflexivity|split; [reflexivity|split; [reflexivity|]]].
    apply (proj2 (proj2 (proj2 changeset_resets_lookback))); reflexivity.
Defined.

Lemma update_step_monotone_witness :
  counters_below_max (analyze [ENode (plain_node 7 0)])
  /\ nodes (analyze [ENode (plain_node 7 0)])
     <= nodes (apply_item (analyze [ENode (plain_node 7 0)])
                          (ENode (plain_node 3 0)))
  /\ (ordered (analyze [ENode (plain_node 7 0)]) = false ->
      ordered (apply_item (analyze [ENode (plain_node 7 0)])
                          (ENode (plain_node 3 0))) = false).
Proof.
  assert (H : counters_below_max (analyze [ENode (plain_node 7 0)])).
  { unfold counters_below_max. cbn. repeat split; reflexivity. }
  split; [exact H|].
  pose proof (update_step_monotone (analyze [ENode (plain_node 7 0)])
                (ENode (plain_node 3 0)) H) as M.
  split.
  - exact (proj1 (proj2 (proj2 M))).
  - exact (proj1 (proj2 (proj2 (proj2 (proj2 (proj2 (proj2 (proj2
             (proj2 (proj2 M)))))))))).
Defined.

Lemma multiple_versions_reporting_witness :
  m_json_output (mkCommandFileinfo true false "data.multiple_versions") = false
  /\ m_extended (mkCommandFileinfo true false "data.multiple_versions") = true
  /\ ordered (analyze [ENode (plain_node 1 0); EWay (plain_way 1 0);
                       ENode (plain_node 2 0)]) = false
  /\ run (mkCommandFileinfo true false "data.multiple_versions")
         EmptyString no_file two_options
         [ENode (plain_node 1 0); EWay (plain_way 1 0); ENode (plain_node 2 0)]
     = ([Text (Lit (line "unknown"))], None).
Proof.
  split; [reflexivity|split; [reflexivity|split; [reflexivity|]]].
  exact (proj1 multiple_versions_reporting
           (mkCommandFileinfo true false "data.multiple_versions")
           EmptyString no_file two_options
           [ENode (plain_node 1 0); EWay (plain_way 1 0);
            ENode (plain_node 2 0)]
           eq_refl eq_refl eq_refl).
Defined.

Lemma key_validation_witness :
  key_accepted "data.count.nodes"
  /\ prefix "data." "data.count.nodes" = true
  /\ check_get_value false "data.count.nodes" = throw extended_needed_error
  /\ check_get_value true "data.count.nodes" = ret tt.
Proof.
  assert (H : key_accepted "data.count.nodes").
  { right. unfold known_values. cbn [In].
    repeat first [left; reflexivity | right]. }
  split; [exact H|split; [reflexivity|split]].
  - apply (proj1 (proj2 (key_validation "data.count.nodes" false)));
      [exact H|reflexivity|reflexivity].
  - apply (proj1 (proj2 (proj2 (key_validation "data.count.nodes" true))));
      [exact H|right; reflexivity].
Defined.

Lemma timestamp_trackers_witness :
  (timestamp_valid (obj_timestamp (plain_object 1 0)) = false
   /\ 0 <= first_timestamp InfoHandler_init
   /\ 0 <= last_timestamp InfoHandler_init
   /\ first_timestamp (osm_object InfoHandler_init node (plain_object 1 0)) = 0
   /\ last_timestamp (osm_object InfoHandler_init node (plain_object 1 0))
      = last_timestamp InfoHandler_init)
  /\ (forallb (fun e => negb (is_object e)) [EChangeset (plain_changeset 1)]
      = true
      /\ first_timestamp (analyze [EChangeset (plain_changeset 1)])
         = end_of_time
      /\ last_timestamp (analyze [EChangeset (plain_changeset 1)])
         = start_of_time).
Proof.
  assert (Hf : 0 <= first_timestamp InfoHandler_init)
    by (intro H; discriminate H).
  assert (Hl : 0 <= last_timestamp InfoHandler_init)
    by (intro H; discriminate H).
  split.
  - split; [reflexivity|split; [exact Hf|split; [exact Hl|]]].
    exact (proj1 (proj2 timestamp_trackers) InfoHandler_init node
             (plain_object 1 0) eq_refl Hf Hl).
  - split; [reflexivity|].
    exact (proj2 (proj2 timestamp_trackers)
             [EChangeset (plain_changeset 1)] eq_refl).
Defined.

Lemma checksum_content_and_order_witness :
  EWay way_user_ab <> EWay way_user_a_tag_b
  /\ flat_map entity_bytes [EWay way_user_ab]
     = flat_map entity_bytes [EWay way_user_a_tag_b]
  /\ checksum (crc32 (analyze [EWay way_user_ab]))
     = checksum (crc32 (analyze [EWay way_user_a_tag_b])).
Proof.
  split; [intro H; discriminate H|].
  split; [reflexivity|].
  apply (proj1 (proj2 checksum_content_and_order)). reflexivity.
Defined.

(* ================================================================== *)
(** * What the aggregate holds after a whole stream                    *)
(* ================================================================== *)

Ltac kind_fields :=
  unfold of_kind, item_type_eqb, counter, largest_id,
    node_cb, way_cb, relation_cb, set_nodes, set_ways, set_relations,
    set_bounds, set_crc32;
  cbn [entity_type item_type_value Z.eqb Pos.eqb
       changesets nodes ways relations largest_changeset_id
       largest_node_id largest_way_id largest_relation_id].

Lemma counter_apply_item (t : item_type) (h : InfoHandler) (e : Entity) :
  counter t (apply_item h e)
  = if of_kind t e then incr64 (counter t h) else counter t h.
Proof.
  destruct e as [n|w|r|c]; cbn [apply_item].
  - destruct (osm_object_frame h node (node_object n))
      as (_ & E1 & E2 & E3 & E4 & _).
    destruct t; kind_fields; rewrite ?E1, ?E2, ?E3, ?E4; reflexivity.
  - destruct (osm_object_frame h way (way_object w))
      as (_ & E1 & E2 & E3 & E4 & _).
    destruct t; kind_fields; rewrite ?E1, ?E2, ?E3, ?E4; reflexivity.
  - destruct (osm_object_frame h relation (relation_object r))
      as (_ & E1 & E2 & E3 & E4 & _).
    destruct t; kind_fields; rewrite ?E1, ?E2, ?E3, ?E4; reflexivity.
  - destruct (changeset_cb_frame h c) as (_ & E1 & E2 & E3 & E4 & _).
    destruct t; kind_fields; rewrite ?E1, ?E2, ?E3, ?E4; reflexivity.
Qed.

Lemma largest_id_apply_item (t : item_type) (h : InfoHandler) (e : Entity) :
  largest_id t (apply_item h e)
  = if of_kind t e then max_op_update (largest_id t h) (entity_id e)
    else largest_id t h.
Proof.
  destruct e as [n|w|r|c]; cbn [apply_item entity_id].
  - destruct (osm_object_frame h node (node_object n))
      as (_ & _ & _ & _ & _ & E1 & E2 & E3 & E4 & _).
    destruct t; kind_fields; rewrite ?E1, ?E2, ?E3, ?E4; reflexivity.
  - destruct (osm_object_frame h way (way_object w))
      as (_ & _ & _ & _ & _ & E1 & E2 & E3 & E4 & _).
    destruct t; kind_fields; rewrite ?E1, ?E2, ?E3, ?E4; reflexivity.
  - destruct (osm_object_frame h relation (relation_object r))
      as (_ & _ & _ & _ & _ & E1 & E2 & E3 & E4 & _).
    destruct t; kind_fields; rewrite ?E1, ?E2, ?E3, ?E4; reflexivity.
  - destruct (changeset_cb_frame h c)
      as (_ & _ & _ & _ & _ & E1 & E2 & E3 & E4).
    destruct t; kind_fields; rewrite ?E1, ?E2, ?E3, ?E4; reflexivity.
Qed.

Lemma counter_apply_from (t : item_type) (l : list Entity) :
  forall h : InfoHandler,
    0 <= counter t h < 2 ^ 64 ->
    counter t (apply_from h l)
    = (counter t h + Z.of_nat (count_kind t l)) mod 2 ^ 64.
Proof.
  induction l as [|e l IH]; intros h Hr.
  - cbn. rewrite Z.add_0_r, Z.mod_small by exact Hr. reflexivity.
  - rewrite apply_from_cons. unfold count_kind in *. cbn [filter].
    pose proof (counter_apply_item t h e) as S.
    destruct (of_kind t e).
    + rewrite IH.
      * rewrite S. unfold incr64. cbn [List.length].
        rewrite Nat2Z.inj_succ, Z.add_mod_idemp_l by lia.
        f_equal. lia.
      * rewrite S. unfold incr64. apply Z.mod_pos_bound. lia.
    + rewrite IH by (rewrite S; exact Hr). rewrite S. reflexivity.
Qed.

(** X1. After any stream each of the four counters is the number of
    entities of its kind, modulo 2^64. *)
Theorem counters_exact (t : item_type) (l : list Entity) :
  counter t (analyze l) = Z.of_nat (count_kind t l) mod 2 ^ 64.
Proof.
  unfold analyze. rewrite counter_apply_from.
  - destruct t; reflexivity.
  - destruct t; cbn; lia.
Qed.

Lemma fold_max_ge_init (l : list Z) :
  forall m : Z, m <= fold_left max_op_update l m.
Proof.
  induction l as [|a l IH]; intro m; [cbn; lia|].
  cbn [fold_left]. pose proof (IH (max_op_update m a)).
  pose proof (max_op_update_ge m a). lia.
Qed.

Lemma fold_max_ge_elements (l : list Z) :
  forall m a : Z, In a l -> a <= fold_left max_op_update l m.
Proof.
  induction l as [|b l IH]; intros m a Hin; [contradiction|].
  cbn [fold_left]. destruct Hin as [->|Hin].
  - pose proof (fold_max_ge_init l (max_op_update m a)).
    rewrite max_op_update_max in *. lia.
  - apply IH. exact Hin.
Qed.

Lemma fold_max_attained (l : list Z) :
  forall m : Z,
    fold_left max_op_update l m = m \/ In (fold_left max_op_update l m) l.
Proof.
  induction l as [|b l IH]; intro m; [left; reflexivity|].
  cbn [fold_left]. destruct (IH (max_op_update m b)) as [E|Hin].
  - rewrite E. unfold max_op_update. destruct (b >? m); [right; left|left];
      reflexivity.
  - right. right. exact Hin.
Qed.

Lemma largest_id_apply_from (t : item_type) (l : list Entity) :
  forall h : InfoHandler,
    largest_id t (apply_from h l)
    = fold_left max_op_update (ids_of_kind t l) (largest_id t h).
Proof.
  induction l as [|e l IH]; intro h; [reflexivity|].
  rewrite apply_from_cons, IH, largest_id_apply_item.
  unfold ids_of_kind. cbn [filter].
  destruct (of_kind t e); reflexivity.
Qed.

(** X2. After any stream the largest id kept for a kind is the maximum
    of 0 and the ids of that kind: it is not negative, no id of the kind
    exceeds it, and it is 0 or the id of an entity of the kind (so a
    stream whose ids of a kind are all negative reports 0). *)
Theorem largest_id_is_maximum (t : item_type) (l : list Entity) :
  0 <= largest_id t (analyze l)
  /\ (forall e : Entity,
         In e l -> of_kind t e = true ->
         entity_id e <= largest_id t (analyze l))
  /\ (largest_id t (analyze l) = 0
      \/ exists e : Entity,
           In e l /\ of_kind t e = true
           /\ entity_id e = largest_id t (analyze l)).
Proof.
  unfold analyze. rewrite largest_id_apply_from.
  assert (E0 : largest_id t InfoHandler_init = 0) by (destruct t; reflexivity).
  rewrite E0. split; [apply fold_max_ge_init|split].
  - intros e Hin Hk. apply fold_max_ge_elements.
    unfold ids_of_kind. apply in_map. apply filter_In. split; assumption.
  - destruct (fold_max_attained (ids_of_kind t l) 0) as [E|Hin];
      [left; exact E|right].
    unfold ids_of_kind in Hin at 2. apply in_map_iff in Hin.
    destruct Hin as (e & Eid & Hin). apply filter_In in Hin.
    exists e. tauto.
Qed.

(** ** The two flags over a whole stream *)

Lemma order_violation_out_of_order (h : InfoHandler) (p e : Entity) :
  last_type h = entity_type p ->
  last_id h = entity_id p ->
  order_violation h e = out_of_order p e.
Proof.
  intros Et Ei. unfold order_violation, out_of_order. rewrite Et, Ei.
  destruct e as [n|w|r|c].
  - destruct (item_type_eqb (entity_type p) (entity_type (ENode n)));
      [reflexivity|apply (regression_test p); reflexivity].
  - destruct (item_type_eqb (entity_type p) (entity_type (EWay w)));
      [reflexivity|apply (regression_test p); reflexivity].
  - destruct (item_type_eqb (entity_type p) (entity_type (ERelation r)));
      [reflexivity|apply (regression_test p); reflexivity].
  - destruct p; reflexivity.
Qed.

Lemma ordered_apply_from (l : list Entity) :
  forall (h : InfoHandler) (p : Entity),
    last_type h = entity_type p ->
    last_id h = entity_id p ->
    ordered (apply_from h l) = ordered h && sorted_after p l.
Proof.
  induction l as [|e l IH]; intros h p Et Ei.
  - cbn. rewrite andb_true_r. reflexivity.
  - rewrite apply_from_cons.
    rewrite (IH (apply_item h e) e
               (last_type_apply_item h e) (last_id_apply_item h e)).
    rewrite ordered_apply_item, (order_violation_out_of_order h p e Et Ei).
    cbn [sorted_after]. rewrite andb_assoc. reflexivity.
Qed.

(** X3. After any stream [ordered] is true exactly when no entity is out
    of order with the entity directly before it: a changeset after a
    changeset with a greater id, an object after an object of its kind
    that [id_order] puts later, or an object after an object of a kind of
    higher rank.  Entities further apart are never compared. *)
Theorem ordered_iff_stream_sorted (l : list Entity) :
  ordered (analyze l) = stream_sorted l.
Proof.
  destruct l as [|e l]; [reflexivity|].
  unfold analyze. rewrite apply_from_cons.
  rewrite (ordered_apply_from l (apply_item InfoHandler_init e) e
             (last_type_apply_item _ e) (last_id_apply_item _ e)).
  rewrite ordered_apply_item.
  assert (E : order_violation InfoHandler_init e = false)
    by (destruct e; reflexivity).
  rewrite E. reflexivity.
Qed.

Lemma version_repeat_same_object (h : InfoHandler) (p e : Entity) :
  last_type h = entity_type p ->
  last_id h = entity_id p ->
  version_repeat h e = same_object p e.
Proof.
  intros Et Ei. unfold version_repeat, same_object. rewrite Et, Ei.
  reflexivity.
Qed.

Lemma multiple_versions_apply_from (l : list Entity) :
  forall (h : InfoHandler) (p : Entity),
    last_type h = entity_type p ->
    last_id h = entity_id p ->
    multiple_versions (apply_from h l)
    = multiple_versions h || repeat_after p l.
Proof.
  induction l as [|e l IH]; intros h p Et Ei.
  - cbn. rewrite orb_false_r. reflexivity.
  - rewrite apply_from_cons.
    rewrite (IH (apply_item h e) e
               (last_type_apply_item h e) (last_id_apply_item h e)).
    rewrite multiple_versions_apply_item,
      (version_repeat_same_object h p e Et Ei).
    cbn [repeat_after]. rewrite orb_assoc. reflexivity.
Qed.

(** X4. After any stream [multiple_versions] is true exactly when some
    object directly follows an object of the same kind and the same id;
    changesets never set it, and two versions of an object that are
    separated by another entity go unnoticed. *)
Theorem multiple_versions_iff_repeat (l : list Entity) :
  multiple_versions (analyze l) = stream_has_repeat l.
Proof.
  destruct l as [|e l]; [reflexivity|].
  unfold analyze. rewrite apply_from_cons.
  rewrite (multiple_versions_apply_from l (apply_item InfoHandler_init e) e
             (last_type_apply_item _ e) (last_id_apply_item _ e)).
  rewrite multiple_versions_apply_item.
  assert (E : version_repeat InfoHandler_init e = false)
    by (destruct e; reflexivity).
  rewrite E. reflexivity.
Qed.

(** ** Timestamps over a whole stream *)

Lemma fold_min_le_init (l : list Z) :
  forall m : Z, fold_left min_op_update l m <= m.
Proof.
  induction l as [|a l IH]; intro m; [cbn; lia|].
  cbn [fold_left]. pose proof (IH (min_op_update m a)).
  rewrite min_op_update_min in *. lia.
Qed.

Lemma fold_min_le_elements (l : list Z) :
  forall m a : Z, In a l -> fold_left min_op_update l m <= a.
Proof.
  induction l as [|b l IH]; intros m a Hin; [contradiction|].
  cbn [fold_left]. destruct Hin as [->|Hin].
  - pose proof (fold_min_le_init l (min_op_update m a)).
    rewrite min_op_update_min in *. lia.
  - apply IH. exact Hin.
Qed.

Lemma fold_min_attained (l : list Z) :
  forall m : Z,
    fold_left min_op_update l m = m \/ In (fold_left min_op_update l m) l.
Proof.
  induction l as [|b l IH]; intro m; [left; reflexivity|].
  cbn [fold_left]. destruct (IH (min_op_update m b)) as [E|Hin].
  - rewrite E. unfold min_op_update. destruct (b <? m); [right; left|left];
      reflexivity.
  - right. right. exact Hin.
Qed.

Lemma timestamps_apply_item (h : InfoHandler) (e : Entity) :
  first_timestamp (apply_item h e)
  = fold_left min_op_update (object_timestamps [e]) (first_timestamp h)
  /\ last_timestamp (apply_item h e)
     = fold_left max_op_update (object_timestamps [e]) (last_timestamp h).
Proof.
  destruct e as [n|w|r|c]; cbn [apply_item object_timestamps flat_map app
                                fold_left].
  - exact (timestamps_osm_object h node (node_object n)).
  - exact (timestamps_osm_object h way (way_object w)).
  - exact (timestamps_osm_object h relation (relation_object r)).
  - exact (timestamps_changeset_cb h c).
Qed.

Lemma timestamps_apply_from (l : list Entity) :
  forall h : InfoHandler,
    first_timestamp (apply_from h l)
    = fold_left min_op_update (object_timestamps l) (first_timestamp h)
    /\ last_timestamp (apply_from h l)
       = fold_left max_op_update (object_timestamps l) (last_timestamp h).
Proof.
  induction l as [|e l IH]; intro h; [split; reflexivity|].
  rewrite apply_from_cons.
  destruct (IH (apply_item h e)) as [-> ->].
  destruct (timestamps_apply_item h e) as [-> ->].
  assert (Hsplit : object_timestamps (e :: l)
                   = object_timestamps [e] ++ object_timestamps l).
  { unfold object_timestamps. cbn [flat_map]. rewrite app_nil_r.
    reflexivity. }
  rewrite Hsplit, !fold_left_app. split; reflexivity.
Qed.

(** X5. After any stream [first_timestamp] is the minimum of its start
    value [end_of_time] and the timestamps of all objects, and
    [last_timestamp] the maximum of its start value 1 and these
    timestamps: every object's timestamp lies between the two, each
    tracker holds its start value or the timestamp of some object, and
    changesets contribute nothing. *)
Theorem timestamps_are_extrema (l : list Entity) :
  (forall t : Timestamp,
      In t (object_timestamps l) ->
      first_timestamp (analyze l) <= t <= last_timestamp (analyze l))
  /\ first_timestamp (analyze l) <= end_of_time
  /\ start_of_time <= last_timestamp (analyze l)
  /\ (first_timestamp (analyze l) = end_of_time
      \/ In (first_timestamp (analyze l)) (object_timestamps l))
  /\ (last_timestamp (analyze l) = start_of_time
      \/ In (last_timestamp (analyze l)) (object_timestamps l)).
Proof.
  unfold analyze.
  destruct (timestamps_apply_from l InfoHandler_init) as [-> ->].
  cbn [first_timestamp last_timestamp InfoHandler_init].
  split; [|split; [|split; [|split]]].
  - intros t Hin. split.
    + apply fold_min_le_elements. exact Hin.
    + apply fold_max_ge_elements. exact Hin.
  - apply fold_min_le_init.
  - apply fold_max_ge_init.
  - apply fold_min_attained.
  - apply fold_max_attained.
Qed.

(** ** The bounding box over a whole stream *)

Lemma location_valid_defined (p : Location) :
  location_valid p = true -> location_defined p = true.
Proof.
  destruct p as [px py].
  unfold location_valid, location_defined, undefined_coordinate; cbn [x y].
  rewrite !andb_true_iff, !negb_true_iff, !Z.eqb_neq, !Z.leb_le. lia.
Qed.

Lemma box_contains_self (p : Location) :
  location_valid p = true -> box_contains (mkBox p p) p = true.
Proof.
  intro V. apply location_valid_defined in V.
  unfold box_contains; cbn [bottom_left top_right].
  rewrite V, !Z.leb_refl. reflexivity.
Qed.

Lemma bounding_first (p : Location) :
  location_valid p = true -> bounding (box_extend empty_box p) [p].
Proof.
  intro V. unfold box_extend. rewrite V. cbn.
  pose proof (location_valid_defined p V) as D.
  unfold bounding; cbn [bottom_left top_right].
  repeat split; try exact D.
  - intros q [<-|[]]. apply box_contains_self. exact V.
  - exists p. split; [left|]; reflexivity.
  - exists p. split; [left|]; reflexivity.
  - exists p. split; [left|]; reflexivity.
  - exists p. split; [left|]; reflexivity.
Qed.

Lemma box_contains_new (b : Box) (p : Location) :
  location_defined (bottom_left b) = true ->
  location_defined (top_right b) = true ->
  location_valid p = true ->
  box_contains (box_extend b p) p = true.
Proof.
  destruct b as [[blx bly] [trx try_]], p as [px py].
  unfold box_contains, box_extend, location_defined, location_valid,
    undefined_coordinate; cbn [x y bottom_left top_right].
  intros D1 D2 V. rewrite V, D1. cbn [x y bottom_left top_right].
  rewrite !andb_true_iff, !negb_true_iff, !Z.eqb_neq, !Z.leb_le in *.
  rewrite !Z.gtb_ltb.
  destruct (Z.ltb_spec px blx), (Z.ltb_spec trx px),
    (Z.ltb_spec py bly), (Z.ltb_spec try_ py); lia.
Qed.

Lemma box_extend_corners (b : Box) (p : Location) :
  location_defined (bottom_left b) = true ->
  location_valid p = true ->
  (x (bottom_left (box_extend b p)) = x (bottom_left b)
   \/ x (bottom_left (box_extend b p)) = x p)
  /\ (y (bottom_left (box_extend b p)) = y (bottom_left b)
      \/ y (bottom_left (box_extend b p)) = y p)
  /\ (x (top_right (box_extend b p)) = x (top_right b)
      \/ x (top_right (box_extend b p)) = x p)
  /\ (y (top_right (box_extend b p)) = y (top_right b)
      \/ y (top_right (box_extend b p)) = y p).
Proof.
  intros D V. unfold box_extend. rewrite V, D.
  cbn [x y bottom_left top_right].
  destruct (x p <? x (bottom_left b)), (x p >? x (top_right b)),
    (y p <? y (bottom_left b)), (y p >? y (top_right b)); auto.
Qed.

Lemma bounding_extend (b : Box) (seen : list Location) (p : Location) :
  bounding b seen ->
  location_valid p = true ->
  bounding (box_extend b p) (p :: seen).
Proof.
  intros (D1 & D2 & Hin & (q1 & I1 & E1) & (q2 & I2 & E2)
          & (q3 & I3 & E3) & (q4 & I4 & E4)) V.
  pose proof (box_contains_new b p D1 D2 V) as Hp.
  destruct (box_extend_corners b p D1 V) as (C1 & C2 & C3 & C4).
  assert (Hd : location_defined (bottom_left (box_extend b p)) = true
               /\ location_defined (top_right (box_extend b p)) = true).
  { unfold box_contains in Hp. rewrite !andb_true_iff in Hp. tauto. }
  unfold bounding. split; [tauto|split; [tauto|split; [|repeat split]]].
  - intros q [<-|Hq]; [exact Hp|].
    apply box_extend_contains. apply Hin. exact Hq.
  - destruct C1 as [C|C]; [exists q1|exists p]; rewrite C;
      cbn [In]; auto.
  - destruct C2 as [C|C]; [exists q2|exists p]; rewrite C;
      cbn [In]; auto.
  - destruct C3 as [C|C]; [exists q3|exists p]; rewrite C;
      cbn [In]; auto.
  - destruct C4 as [C|C]; [exists q4|exists p]; rewrite C;
      cbn [In]; auto.
Qed.

Lemma bounding_equiv (b : Box) (s s' : list Location) :
  (forall q : Location, In q s <-> In q s') ->
  bounding b s -> bounding b s'.
Proof.
  intros H (D1 & D2 & Hin & (q1 & I1 & E1) & (q2 & I2 & E2)
            & (q3 & I3 & E3) & (q4 & I4 & E4)).
  unfold bounding. split; [exact D1|split; [exact D2|split; [|repeat split]]].
  - intros q Hq. apply Hin, H. exact Hq.
  - exists q1. split; [apply H|]; assumption.
  - exists q2. split; [apply H|]; assumption.
  - exists q3. split; [apply H|]; assumption.
  - exists q4. split; [apply H|]; assumption.
Qed.

Lemma bounding_fold (ps : list Location) :
  forall (b : Box) (seen : list Location),
    Forall (fun p => location_valid p = true) ps ->
    bounding b seen ->
    bounding (fold_left box_extend ps b) (seen ++ ps).
Proof.
  induction ps as [|p ps IH]; intros b seen V H.
  - rewrite app_nil_r. exact H.
  - inversion V as [|? ? Vp Vps]; subst. cbn [fold_left].
    apply (bounding_equiv _ ((p :: seen) ++ ps)).
    + intro q. cbn [In app]. rewrite !in_app_iff. cbn [In]. tauto.
    + apply IH; [exact Vps|]. apply bounding_extend; assumption.
Qed.

Lemma valid_node_locations_valid (l : list Entity) :
  Forall (fun p => location_valid p = true) (valid_node_locations l).
Proof.
  induction l as [|e l IH]; [constructor|].
  unfold valid_node_locations in *. cbn [flat_map].
  apply Forall_app. split; [|exact IH].
  destruct e as [n|w|r|c]; try constructor.
  destruct (location_valid (node_location n)) eqn:V; constructor;
    [exact V|constructor].
Qed.

Lemma bounds_apply_item (h : InfoHandler) (e : Entity) :
  bounds (apply_item h e)
  = fold_left box_extend (valid_node_locations [e]) (bounds h).
Proof.
  destruct e as [n|w|r|c]; cbn [apply_item valid_node_locations flat_map].
  - destruct (osm_object_frame h node (node_object n)) as (E & _).
    unfold node_cb, set_nodes, set_bounds, set_crc32; cbn [bounds].
    rewrite E, app_nil_r.
    destruct (location_valid (node_location n)) eqn:V; cbn [fold_left];
      [reflexivity|].
    unfold box_extend. rewrite V. reflexivity.
  - destruct (osm_object_frame h way (way_object w)) as (E & _).
    exact E.
  - destruct (osm_object_frame h relation (relation_object r)) as (E & _).
    exact E.
  - destruct (changeset_cb_frame h c) as (E & _). exact E.
Qed.

Lemma bounds_apply_from (l : list Entity) :
  forall h : InfoHandler,
    bounds (apply_from h l)
    = fold_left box_extend (valid_node_locations l) (bounds h).
Proof.
  induction l as [|e l IH]; intro h; [reflexivity|].
  rewrite apply_from_cons, IH, bounds_apply_item.
  assert (Hsplit : valid_node_locations (e :: l)
                   = valid_node_locations [e] ++ valid_node_locations l).
  { unfold valid_node_locations. cbn [flat_map]. rewrite app_nil_r.
    reflexivity. }
  rewrite Hsplit, fold_left_app. reflexivity.
Qed.

(** X6. After any stream [bounds] is the bounding box of the valid node
    locations: it is still the undefined box when there is none, and
    otherwise it holds every valid node location and each of its four
    coordinates is attained by one of them.  Invalid locations, ways,
    relations and changesets do not move it. *)
Theorem bounds_is_bounding_box (l : list Entity) :
  (valid_node_locations l = [] -> bounds (analyze l) = empty_box)
  /\ (valid_node_locations l <> [] ->
      bounding (bounds (analyze l)) (valid_node_locations l)).
Proof.
  unfold analyze. rewrite bounds_apply_from.
  cbn [bounds InfoHandler_init].
  pose proof (valid_node_locations_valid l) as V.
  destruct (valid_node_locations l) as [|p ps].
  - split; [reflexivity|intro H; contradiction].
  - split; [intro H; discriminate H|intros _].
    inversion V as [|? ? Vp Vps]; subst. cbn [fold_left].
    apply (bounding_fold ps _ [p] Vps). apply bounding_first. exact Vp.
Qed.

(** ** The checksum register *)

Lemma lxor_range (n a b : Z) :
  0 <= n -> 0 <= a < 2 ^ n -> 0 <= b < 2 ^ n ->
  0 <= Z.lxor a b < 2 ^ n.
Proof.
  intros Hn Ha Hb.
  assert (H0 : 0 <= Z.lxor a b) by (apply Z.lxor_nonneg; lia).
  split; [exact H0|].
  destruct (Z.eq_dec (Z.lxor a b) 0) as [E|N]; [rewrite E; lia|].
  apply Z.log2_lt_pow2; [lia|].
  pose proof (Z.log2_lxor a b ltac:(lia) ltac:(lia)) as L.
  assert (La : Z.log2 a < n).
  { destruct (Z.eq_dec a 0) as [->|Na].
    - destruct (Z.eq_dec n 0) as [->|Nn]; [|cbn; lia].
      assert (b = 0) by (cbn in Hb; lia). subst b. cbn in N. contradiction.
    - apply Z.log2_lt_pow2; lia. }
  assert (Lb : Z.log2 b < n).
  { destruct (Z.eq_dec b 0) as [->|Nb].
    - destruct (Z.eq_dec n 0) as [->|Nn]; [|cbn; lia].
      assert (a = 0) by (cbn in Ha; lia). subst a. cbn in N. contradiction.
    - apply Z.log2_lt_pow2; lia. }
  lia.
Qed.

Lemma crc32_shift_range (r : Z) :
  0 <= r < 2 ^ 32 -> 0 <= crc32_shift r < 2 ^ 32.
Proof.
  intro H. unfold crc32_shift.
  assert (S : 0 <= Z.shiftr r 1 < 2 ^ 32).
  { rewrite Z.shiftr_div_pow2 by lia. change (2 ^ 1) with 2.
    split; [apply Z.div_pos; lia|].
    apply Z.div_lt_upper_bound; lia. }
  destruct (Z.testbit r 0); [|exact S].
  apply lxor_range; [lia|exact S|].
  unfold crc32_reflected_poly. lia.
Qed.

Lemma process_byte_range (r b : Z) :
  0 <= r < 2 ^ 32 -> 0 <= process_byte r b < 2 ^ 32.
Proof.
  intro H. unfold process_byte.
  do 8 apply crc32_shift_range.
  apply lxor_range; [lia|exact H|].
  change 255 with (Z.ones 8). rewrite Z.land_ones by lia.
  pose proof (Z.mod_pos_bound b (2 ^ 8) ltac:(lia)). lia.
Qed.

Lemma process_bytes_range (bs : list Z) :
  forall r : Z, 0 <= r < 2 ^ 32 -> 0 <= process_bytes r bs < 2 ^ 32.
Proof.
  unfold process_bytes.
  induction bs as [|b bs IH]; intros r H; [exact H|].
  cbn [fold_left]. apply IH, process_byte_range, H.
Qed.

(** X7. After any stream, whatever the fields of its entities hold, the
    checksum is a value of 32 bits: the register never leaves the range
    0 .. 2^32 - 1. *)
Theorem checksum_fits_32_bits (l : list Entity) :
  0 <= checksum (crc32 (analyze l)) < 2 ^ 32.
Proof.
  unfold analyze. rewrite crc32_apply_from. unfold checksum.
  apply lxor_range; [lia| |unfold crc32_final_xor; lia].
  apply process_bytes_range.
  cbn [crc32 InfoHandler_init]. unfold crc32_initial. lia.
Qed.

(* ================================================================== *)
(** * More on [setup], [run] and the single-value view                 *)
(* ================================================================== *)

Lemma flat_map_if_filter {A B : Type} (p : A -> bool) (g : A -> list B)
    (l : list A) :
  flat_map (fun a => if p a then g a else []) l = flat_map g (filter p l).
Proof.
  induction l as [|a l IH]; [reflexivity|].
  cbn [flat_map filter]. destruct (p a); cbn [flat_map app]; rewrite IH;
    reflexivity.
Qed.

Lemma header_option_not_data (r : string) :
  prefix "data." (String.append "header.option." r) = false.
Proof. reflexivity. Qed.

Lemma filter_name_nodup (r : string) (opts : list (string * string)) :
  NoDup (map fst opts) ->
  (List.length (filter (fun o => (fst o =? r)%string) opts) <= 1)%nat.
Proof.
  induction opts as [|o opts IH]; intro H; [cbn; lia|].
  cbn [map] in H. inversion H as [|? ? Hnotin Hnodup]; subst.
  cbn [filter]. destruct (String.eqb_spec (fst o) r) as [E|_].
  - assert (Hnone : filter (fun o => (fst o =? r)%string) opts = []).
    { clear IH H Hnodup. induction opts as [|p opts IH]; [reflexivity|].
      cbn [filter map In] in *.
      destruct (String.eqb_spec (fst p) r) as [E'|_].
      - exfalso. apply Hnotin. left. congruence.
      - apply IH. tauto. }
    rewrite Hnone. cbn. lia.
  - apply IH. exact Hnodup.
Qed.

(** X8. For a key [header.option.<name>], in either mode, the [--get]
    block of [setup] lets the key through, and the program prints exactly
    the values of the header options called <name>, one per line, and
    throws nothing: the header holds at most one such option, and nothing
    at all is printed when it holds none. *)
Theorem header_option_query (r : string) (extended : bool) (fn : string)
    (f : File) (hd : Header) (es : list Entity) :
  check_get_value extended (String.append "header.option." r) = ret tt
  /\ run (mkCommandFileinfo extended false (String.append "header.option." r))
         fn f hd es
     = (flat_map (fun o : string * string =>
                    [Text (Str (snd o)); Text (Lit nl)])
                 (filter (fun o => (fst o =? r)%string) (options hd)),
        None)
  /\ (List.length (filter (fun o => (fst o =? r)%string) (options hd)) <= 1)%nat.
Proof.
  split; [|split].
  - rewrite check_get_value_cases, prefix_append, header_option_not_data.
    reflexivity.
  - unfold run; cbn [m_json_output cmd_get_value m_extended].
    change (String.append "header.option." r =? EmptyString)%string
      with false.
    rewrite render_simple. f_equal.
    assert (Ef : simple_file (String.append "header.option." r) fn f = [])
      by reflexivity.
    assert (Ed : forall h, simple_data (String.append "header.option." r) h
                           = []) by reflexivity.
    rewrite Ef, Ed. unfold simple_header.
    change (if (String.append "header.option." r =? "header.with_history")%string
            then [Text (Lit (yes_no (has_multiple_object_versions hd)))]
            else []) with (@nil chunk).
    cbn [app].
    assert (El : (if extended then @nil chunk else []) ++ [] = [])
      by (destruct extended; reflexivity).
    rewrite El, app_nil_r.
    rewrite <- flat_map_if_filter.
    apply flat_map_ext. intro o.
    rewrite append_eqb_l, String.eqb_sym. reflexivity.
  - apply filter_name_nodup, options_nodup.
Qed.

Lemma run_simple_lines (k fn : string) (f : File) (hd : Header)
    (es : list Entity) (extended : bool) :
  k <> EmptyString ->
  lines_written (fst (run (mkCommandFileinfo extended false k) fn f hd es))
  = (lines_written (simple_file k fn f)
     + lines_written (simple_header k hd)
     + lines_written (if extended then simple_data k (analyze es) else []))%nat
  /\ snd (run (mkCommandFileinfo extended false k) fn f hd es) = None.
Proof.
  intro Hne. unfold run; cbn [m_json_output cmd_get_value m_extended].
  apply String.eqb_neq in Hne. rewrite Hne.
  rewrite render_simple. cbn [fst snd]. split; [|reflexivity].
  rewrite app_nil_r, !lines_written_app.
  apply Nat.add_assoc.
Qed.

Lemma catalog_key_one_line (k fn : string) (f : File) (hd : Header)
    (h : InfoHandler) (extended : bool) :
  In k known_values ->
  prefix "header.option." k = false ->
  prefix "data." k = false \/ extended = true ->
  (lines_written (simple_file k fn f)
   + lines_written (simple_header k hd)
   + lines_written (if extended then simple_data k h else []))%nat = 1%nat.
Proof.
  intros Hin P Hmode.
  unfold simple_header. rewrite (option_loop_no_prefix k _ P), app_nil_r.
  unfold known_values in Hin. cbn [In] in Hin.
  repeat (destruct Hin as [<- | Hin]); try contradiction;
    try discriminate P;
    (destruct Hmode as [Hmode | ->]; [try discriminate Hmode|]);
    unfold simple_file, simple_data, yes_no; cbn;
    repeat match goal with
           | |- context [if ?c then _ else _] => destruct c
           end; reflexivity.
Qed.

Lemma catalog_key_not_empty (k : string) : In k known_values -> k <> EmptyString.
Proof.
  intros Hin ->. unfold known_values in Hin. cbn [In] in Hin.
  repeat (destruct Hin as [Hin|Hin]; [discriminate Hin|]). exact Hin.
Qed.

(** X9. Every key of the catalog outside [header.option.] is served by
    one of the callbacks of the single-value view: in extended mode the
    program prints exactly one line for it and throws nothing, whatever
    the file, the header and the stream are, and for the keys outside
    [data.] it does so without extended mode too. *)
Theorem catalog_key_prints_one_line (k fn : string) (f : File) (hd : Header)
    (es : list Entity) (extended : bool) :
  In k known_values ->
  prefix "header.option." k = false ->
  prefix "data." k = false \/ extended = true ->
  lines_written (fst (run (mkCommandFileinfo extended false k) fn f hd es))
  = 1%nat
  /\ snd (run (mkCommandFileinfo extended false k) fn f hd es) = None.
Proof.
  intros Hin P Hmode.
  destruct (run_simple_lines k fn f hd es extended
              (catalog_key_not_empty k Hin)) as [El Es].
  split; [|exact Es].
  rewrite El. apply catalog_key_one_line; assumption.
Qed.

Lemma in_catalog_In (k : string) : in_catalog k = true <-> In k known_values.
Proof.
  unfold in_catalog.
  destruct (find (String.eqb k) known_values) as [x|] eqn:E.
  - apply find_some in E. destruct E as [Hin Heq].
    apply String.eqb_eq in Heq. subst x. tauto.
  - apply find_eqb_None in E. split; [discriminate|contradiction].
Qed.

(** X10. Every key that [--show-variables] lists is accepted by [--get]
    in extended mode, and without extended mode exactly those that do not
    start with [data.] are. *)
Theorem catalog_keys_are_accepted (k : string) :
  In k known_values ->
  check_get_value true k = ret tt
  /\ (check_get_value false k = ret tt <-> prefix "data." k = false).
Proof.
  intro Hin. rewrite !check_get_value_cases.
  apply in_catalog_In in Hin. rewrite Hin, orb_true_r.
  rewrite andb_false_r. split; [reflexivity|].
  destruct (prefix "data." k); cbn; split; intro H;
    first [reflexivity | discriminate H].
Qed.


(* ================================================================== *)
(** * The JSON document                                                *)
(* ================================================================== *)

Lemma json_members_app (a b : list writer_call) :
  json_members a -> json_members b -> json_members (a ++ b).
Proof.
  intros Ha Hb. induction Ha as [|name v ms Hv Hms IH]; [exact Hb|].
  cbn [app]. rewrite <- app_assoc. apply members_cons; assumption.
Qed.

Lemma json_elements_app (a b : list writer_call) :
  json_elements a -> json_elements b -> json_elements (a ++ b).
Proof.
  intros Ha Hb. induction Ha as [|v vs Hv Hvs IH]; [exact Hb|].
  rewrite <- app_assoc. apply elements_cons; assumption.
Qed.

Lemma member_string (name t : text) (ms : list writer_call) :
  json_members ms -> json_members (WString name :: WString t :: ms).
Proof. intro H. exact (members_cons name [WString t] ms (json_string t) H). Qed.

Lemma member_bool (name : text) (b : bool) (ms : list writer_call) :
  json_members ms -> json_members (WString name :: WBool b :: ms).
Proof. intro H. exact (members_cons name [WBool b] ms (json_bool b) H). Qed.

Lemma member_int64 (name : text) (z : Z) (ms : list writer_call) :
  json_members ms -> json_members (WString name :: WInt64 z :: ms).
Proof. intro H. exact (members_cons name [WInt64 z] ms (json_int64 z) H). Qed.

Lemma member_object (name : text) (inner ms : list writer_call) :
  json_members inner -> json_members ms ->
  json_members (WString name :: StartObject :: inner ++ EndObject :: ms).
Proof.
  intros Hi Hm.
  pose proof (members_cons name _ ms (json_object inner Hi) Hm) as H.
  cbn [app] in H. rewrite <- app_assoc in H. exact H.
Qed.

Lemma member_array (name : text) (inner ms : list writer_call) :
  json_elements inner -> json_members ms ->
  json_members (WString name :: StartArray :: inner ++ EndArray :: ms).
Proof.
  intros Hi Hm.
  pose proof (members_cons name _ ms (json_array inner Hi) Hm) as H.
  cbn [app] in H. rewrite <- app_assoc in H. exact H.
Qed.

Lemma bbox_calls_value (box : Box) : json_value (bbox_calls box).
Proof.
  unfold bbox_calls.
  apply (json_array [WDouble (Lon (bottom_left box));
                     WDouble (Lat (bottom_left box));
                     WDouble (Lon (top_right box));
                     WDouble (Lat (top_right box))]).
  apply (elements_cons [_] _ (json_double _)).
  apply (elements_cons [_] _ (json_double _)).
  apply (elements_cons [_] _ (json_double _)).
  apply (elements_cons [_] _ (json_double _)).
  apply elements_nil.
Qed.

Lemma boxes_elements (bs : list Box) : json_elements (flat_map bbox_calls bs).
Proof.
  induction bs as [|b bs IH]; [apply elements_nil|].
  cbn [flat_map]. apply elements_cons; [apply bbox_calls_value|exact IH].
Qed.

Lemma options_members (opts : list (string * string)) :
  json_members
    (flat_map (fun option : string * string =>
                 [WString (Str (fst option)); WString (Str (snd option))])
              opts).
Proof.
  induction opts as [|o opts IH]; [apply members_nil|].
  cbn [flat_map app]. apply member_string. exact IH.
Qed.

Lemma json_file_members (fn : string) (f : File) :
  json_members (json_file fn f).
Proof.
  unfold json_file, key.
  destruct (negb (filename f =? EmptyString)%string); cbn [app].
  - apply (member_object _ [_; _; _; _; _; _; _; _] []);
      [|apply members_nil].
    repeat first [apply member_string | apply member_int64
                 | apply members_nil].
  - apply (member_object _ [_; _; _; _; _; _] []); [|apply members_nil].
    repeat first [apply member_string | apply members_nil].
Qed.

Lemma json_header_members (hd : Header) :
  json_members (json_header_calls hd).
Proof.
  assert (E : json_header_calls hd
              = WString (Lit "header") :: StartObject
                :: (WString (Lit "boxes") :: StartArray
                    :: flat_map bbox_calls (boxes hd)
                    ++ EndArray
                    :: WString (Lit "with_history")
                    :: WBool (has_multiple_object_versions hd)
                    :: WString (Lit "option") :: StartObject
                    :: flat_map (fun option : string * string =>
                                   [WString (Str (fst option));
                                    WString (Str (snd option))])
                                (options hd)
                    ++ EndObject :: [])
                ++ EndObject :: []).
  { unfold json_header_calls, key. cbn [app]. rewrite <- !app_assoc.
    cbn [app]. rewrite <- !app_assoc. reflexivity. }
  rewrite E.
  apply (member_object _ _ []); [|apply members_nil].
  apply member_array; [apply boxes_elements|].
  apply member_bool.
  apply (member_object _ _ []); [|apply members_nil].
  apply options_members.
Qed.

Lemma member_object_last (name : text) (l : list writer_call) :
  l <> [] ->
  last l WNull = EndObject ->
  json_members (removelast l) ->
  json_members (WString name :: StartObject :: l).
Proof.
  intros Hne Hlast Hm.
  rewrite (app_removelast_last WNull Hne), Hlast.
  apply (member_object name (removelast l) []); [exact Hm|apply members_nil].
Qed.

Lemma json_data_members (h : InfoHandler) :
  json_members (json_data_calls h).
Proof.
  unfold json_data_calls, json_data_head_calls, json_data_tail, key,
    bbox_calls.
  destruct (negb (first_timestamp h =? end_of_time)), (ordered h);
    cbn [app];
    (apply member_object_last;
     [intro H; discriminate H|reflexivity|cbn [removelast]]);
    apply (members_cons _ _ _ (bbox_calls_value (bounds h)));
    repeat first
      [ apply member_string | apply member_bool | apply member_int64
      | apply members_nil
      | apply (member_object _ [_; _; _; _] _)
      | apply (member_object _ [_; _; _; _; _; _; _; _] _) ].
Qed.

(** ** When the JSON view prints *)

Lemma bounding_printable (b : Box) (ps : list Location) :
  Forall (fun p => location_valid p = true) ps ->
  bounding b ps -> box_printable b = true.
Proof.
  intros V (_ & _ & _ & (q1 & I1 & E1) & (q2 & I2 & E2) & (q3 & I3 & E3)
            & (q4 & I4 & E4)).
  rewrite Forall_forall in V.
  pose proof (V q1 I1) as V1. pose proof (V q2 I2) as V2.
  pose proof (V q3 I3) as V3. pose proof (V q4 I4) as V4.
  unfold box_printable, location_valid in *.
  rewrite E1, E2, E3, E4.
  rewrite !andb_true_iff in *. tauto.
Qed.

(** The bounds can be printed exactly when the stream has a node with a
    valid location. *)
Lemma bounds_printable (es : list Entity) :
  box_printable (bounds (analyze es))
  = match valid_node_locations es with
    | [] => false
    | _ :: _ => true
    end.
Proof.
  unfold analyze. rewrite bounds_apply_from.
  cbn [bounds InfoHandler_init].
  pose proof (valid_node_locations_valid es) as V.
  destruct (valid_node_locations es) as [|p ps]; [reflexivity|].
  inversion V as [|? ? Vp Vps]; subst. cbn [fold_left].
  apply (bounding_printable _ ([p] ++ ps)); [exact V|].
  apply (bounding_fold ps _ [p] Vps). apply bounding_first. exact Vp.
Qed.

Lemma render_json_prints (extended : bool) (fn : string) (f : File)
    (hd : Header) (es : list Entity) :
  render JSONOutput_new extended fn f hd es
  = if json_prints hd extended es
    then ([Document (([StartObject] ++ json_file fn f ++ json_header_calls hd)
                     ++ (if extended then json_data_calls (analyze es)
                         else [])
                     ++ [EndObject]);
           Text (Lit nl)], None)
    else ([], Some invalid_location_error).
Proof.
  rewrite render_json. unfold json_prints. rewrite bounds_printable.
  reflexivity.
Qed.

(** X12. With [--json] the program either writes one document followed
    by a newline, or throws [osmium::invalid_location] and writes
    nothing.  It writes the document exactly when every box of the header
    has two valid corners and, in extended mode, the stream has a node
    with a valid location.  The calls on the writer then form one
    well-formed JSON object: every object and array that is opened is
    closed in order, and inside an object names and values alternate. *)
Theorem json_document_well_formed (cmd : CommandFileinfo) (fn : string)
    (f : File) (hd : Header) (es : list Entity) :
  m_json_output cmd = true ->
  if json_prints hd (m_extended cmd) es
  then exists doc : list writer_call,
         run cmd fn f hd es = ([Document doc; Text (Lit nl)], None)
         /\ json_value doc
  else run cmd fn f hd es = ([], Some invalid_location_error).
Proof.
  intro Hj. unfold run. rewrite Hj, render_json_prints.
  destruct (json_prints hd (m_extended cmd) es); [|reflexivity].
  eexists. split; [reflexivity|].
  cbn [app]. rewrite <- !app_assoc.
  rewrite !app_assoc.
  apply json_object. rewrite <- !app_assoc.
  apply json_members_app; [apply json_file_members|].
  apply json_members_app; [apply json_header_members|].
  destruct (m_extended cmd);
    [apply json_data_members|apply members_nil].
Qed.
(* ================================================================== *)
(** * The human-readable view and the timestamp queries                *)
(* ================================================================== *)

Lemma render_human (extended : bool) (fn : string) (f : File)
    (hd : Header) (es : list Entity) :
  render mkHumanReadableOutput extended fn f hd es
  = (human_file fn f ++ human_header hd
     ++ (if extended then human_data hd (analyze es) else []) ++ [],
     None).
Proof. destruct extended; reflexivity. Qed.

Lemma is_history_warning_In (l : cout) :
  In history_warning l <-> existsb is_history_warning l = true.
Proof.
  rewrite existsb_exists. split.
  - intro H. exists history_warning. split; [exact H|reflexivity].
  - intros (c & Hin & Hc).
    destruct c as [[s| | | | |]|]; try discriminate Hc.
    cbn [is_history_warning] in Hc. apply String.eqb_eq in Hc. subst s.
    exact Hin.
Qed.

Lemma existsb_flat_map_false {A B : Type} (p : B -> bool) (g : A -> list B)
    (l : list A) :
  (forall a : A, existsb p (g a) = false) ->
  existsb p (flat_map g l) = false.
Proof.
  intro H. induction l as [|a l IH]; [reflexivity|].
  cbn [flat_map]. rewrite existsb_app, H, IH. reflexivity.
Qed.

Lemma no_warning_in_human_file (fn : string) (f : File) :
  existsb is_history_warning (human_file fn f) = false.
Proof.
  unfold human_file.
  destruct (negb (filename f =? EmptyString)%string); reflexivity.
Qed.

Lemma no_warning_in_human_header (hd : Header) :
  existsb is_history_warning (human_header hd) = false.
Proof.
  unfold human_header. rewrite !existsb_app.
  rewrite !existsb_flat_map_false by (intro; reflexivity).
  destruct (has_multiple_object_versions hd); reflexivity.
Qed.

Lemma warning_in_human_data (hd : Header) (h : InfoHandler) :
  existsb is_history_warning (human_data hd h)
  = ordered h
    && negb (Bool.eqb (multiple_versions h) (has_multiple_object_versions hd)).
Proof.
  unfold human_data.
  destruct (negb (first_timestamp h =? end_of_time)), (ordered h),
    (multiple_versions h), (has_multiple_object_versions hd); reflexivity.
Qed.

(** X13. The human-readable view throws nothing, and it prints its
    warning about the header exactly when it ran in extended mode, the
    stream is ordered, and the [multiple_versions] it found differs from
    the flag the header declares; for an unordered stream the comparison
    is never made. *)
Theorem history_warning_iff (cmd : CommandFileinfo) (fn : string) (f : File)
    (hd : Header) (es : list Entity) :
  m_json_output cmd = false ->
  cmd_get_value cmd = EmptyString ->
  (In history_warning (fst (run cmd fn f hd es))
   <-> m_extended cmd = true
       /\ ordered (analyze es) = true
       /\ multiple_versions (analyze es) <> has_multiple_object_versions hd)
  /\ snd (run cmd fn f hd es) = None.
Proof.
  intros Hj Hk. unfold run. rewrite Hj, Hk. cbn [String.eqb].
  rewrite render_human. cbn [fst snd]. split; [|reflexivity].
  rewrite is_history_warning_In, !existsb_app.
  rewrite no_warning_in_human_file, no_warning_in_human_header.
  cbn [orb existsb]. rewrite orb_false_r.
  destruct (m_extended cmd).
  - rewrite warning_in_human_data.
    destruct (ordered (analyze es)), (multiple_versions (analyze es)),
      (has_multiple_object_versions hd); cbn;
      split; intro H;
      first [ discriminate H | reflexivity
            | repeat split; intro H'; discriminate H'
            | destruct H as (_ & H1 & H2);
              first [discriminate H1 | exfalso; apply H2; reflexivity] ].
  - cbn. split; [intro H; discriminate H|intros (H & _); discriminate H].
Qed.

Lemma first_timestamp_sentinel (l : list Entity) :
  first_timestamp (analyze l) = end_of_time
  <-> (forall t : Timestamp, In t (object_timestamps l) -> end_of_time <= t).
Proof.
  unfold analyze.
  destruct (timestamps_apply_from l InfoHandler_init) as [-> _].
  cbn [first_timestamp InfoHandler_init].
  split.
  - intros E t Hin.
    pose proof (fold_min_le_elements _ end_of_time t Hin). lia.
  - intro H.
    pose proof (fold_min_le_init (object_timestamps l) end_of_time).
    destruct (fold_min_attained (object_timestamps l) end_of_time)
      as [E|Hin]; [exact E|].
    apply H in Hin. lia.
Qed.

(** X14. In extended mode the two timestamp queries throw nothing and
    print one empty line when no object of the stream has a timestamp below
    [end_of_time], in particular for a stream without objects, and
    otherwise the first and the last timestamp; both decide on
    [first_timestamp] alone. *)
Theorem timestamp_queries (fn : string) (f : File) (hd : Header)
    (es : list Entity) :
  ((forall t : Timestamp, In t (object_timestamps es) -> end_of_time <= t) ->
   run (mkCommandFileinfo true false "data.timestamp.first") fn f hd es
   = ([Text (Lit nl)], None)
   /\ run (mkCommandFileinfo true false "data.timestamp.last") fn f hd es
      = ([Text (Lit nl)], None))
  /\
  ((exists t : Timestamp, In t (object_timestamps es) /\ t < end_of_time) ->
   run (mkCommandFileinfo true false "data.timestamp.first") fn f hd es
   = ([Text (Iso (first_timestamp (analyze es))); Text (Lit nl)], None)
   /\ run (mkCommandFileinfo true false "data.timestamp.last") fn f hd es
      = ([Text (Iso (last_timestamp (analyze es))); Text (Lit nl)], None)).
Proof.
  assert (R : forall k : string,
             prefix "header.option." k = false ->
             k <> EmptyString ->
             run (mkCommandFileinfo true false k) fn f hd es
             = (simple_file k fn f
                ++ (if (k =? "header.with_history")%string
                    then [Text (Lit (yes_no
                                       (has_multiple_object_versions hd)))]
                    else [])
                ++ simple_data k (analyze es), None)).
  { intros k P Hne. unfold run; cbn [m_json_output cmd_get_value m_extended].
    apply String.eqb_neq in Hne. rewrite Hne, render_simple.
    unfold simple_header.
    rewrite (option_loop_no_prefix k _ P), !app_nil_r. reflexivity. }
  rewrite !R by first [reflexivity | intro H; discriminate H].
  destruct (first_timestamp_sentinel es) as [S1 S2].
  unfold simple_file, simple_data.
  cbn [String.eqb Ascii.eqb Bool.eqb app].
  split.
  - intro H. rewrite (S2 H). split; reflexivity.
  - intros (t & Hin & Hlt).
    assert (N : (first_timestamp (analyze es) =? end_of_time) = false).
    { apply Z.eqb_neq. intro E. pose proof (S1 E t Hin). lia. }
    rewrite N. split; reflexivity.
Qed.

(* ================================================================== *)
(** * Properties of the polygon file parser                            *)
(* ================================================================== *)

Section PolyFileParserProperties.

Variable read_coordinates : string -> option Location.
Variable m_file_name : string.

Ltac same_position :=
  match goal with
  | |- Done (_, _, ?a) = Done (_, _, ?b) =>
      replace b with a by (cbn [List.length];
                           rewrite ?length_app, ?length_map;
                           cbn [List.length]; lia);
      reflexivity
  end.

Lemma ring_loop_done (inner : bool) (rest : list string) :
  forall (cs : list Location) (n : nat) (r : ring) (rest' : list string)
         (n' : nat),
    ring_loop read_coordinates m_file_name inner cs rest n
    = Done (r, rest', n') ->
    exists coords : list (string * Location),
      rest = map fst coords ++ "END"%string :: rest'
      /\ n' = (n + List.length coords + 1)%nat
      /\ Forall (fun c : string * Location =>
              fst c <> "END"%string
              /\ read_coordinates (fst c) = Some (snd c)) coords
      /\ (3 <= List.length (cs ++ map snd coords))%nat
      /\ r = mkRing inner (close_ring (cs ++ map snd coords)).
Proof.
  induction rest as [|l rest IH]; intros cs n r rest' n' H;
    [discriminate H|].
  cbn [ring_loop] in H.
  destruct (String.eqb_spec l "END") as [->|Hl].
  - destruct (Nat.ltb_spec (List.length cs) 3) as [Hlt|Hge];
      [discriminate H|].
    injection H as <- <- <-. exists [].
    cbn [map app List.length]. rewrite app_nil_r.
    repeat split; first [lia | constructor | assumption].
  - destruct (read_coordinates l) as [loc|] eqn:R; [|discriminate H].
    apply IH in H. destruct H as (coords & -> & -> & Hall & Hlen & ->).
    exists ((l, loc) :: coords). cbn [map app List.length fst snd].
    rewrite <- app_assoc in Hlen |- *. cbn [app] in Hlen |- *.
    repeat split; first [lia | assumption | idtac].
    constructor; [split; assumption|exact Hall].
Qed.

Lemma ring_loop_complete (inner : bool) (rest' : list string)
    (coords : list (string * Location)) :
  forall (cs : list Location) (n : nat),
    Forall (fun c : string * Location =>
              fst c <> "END"%string
              /\ read_coordinates (fst c) = Some (snd c)) coords ->
    (3 <= List.length (cs ++ map snd coords))%nat ->
    ring_loop read_coordinates m_file_name inner cs
              (map fst coords ++ "END"%string :: rest') n
    = Done (mkRing inner (close_ring (cs ++ map snd coords)), rest',
            (n + List.length coords + 1)%nat).
Proof.
  induction coords as [|[l loc] coords IH]; intros cs n Hall Hlen.
  - cbn [map app ring_loop List.length] in *.
    rewrite app_nil_r in Hlen. rewrite app_nil_r.
    cbn [String.eqb Ascii.eqb Bool.eqb].
    destruct (Nat.ltb_spec (List.length cs) 3) as [Hlt|_]; [lia|].
    same_position.
  - inversion Hall as [|? ? [Hne Hread] Hall']; subst.
    cbn [map app ring_loop fst snd List.length] in *.
    apply String.eqb_neq in Hne. rewrite Hne, Hread.
    rewrite IH; [|exact Hall'|rewrite <- app_assoc; exact Hlen].
    rewrite <- app_assoc. cbn [app]. same_position.
Qed.

Lemma ring_text_of_loop (header : string) (coords : list (string * Location)) :
  header <> "END"%string ->
  Forall (fun c : string * Location =>
              fst c <> "END"%string
              /\ read_coordinates (fst c) = Some (snd c)) coords ->
  (3 <= List.length coords)%nat ->
  ring_text_ok read_coordinates (mkRingText header coords).
Proof.
  intros H1 H2 H3. unfold ring_text_ok; cbn [rt_header rt_coordinates].
  repeat split; assumption.
Qed.

Lemma multipolygon_loop_done (fuel : nat) :
  forall (rest : list string) (n : nat) (rings rings' : list ring)
         (rest' : list string) (n' : nat),
    multipolygon_loop read_coordinates fuel m_file_name rest n rings
    = Done (rings', rest', n') ->
    exists rts : list ring_text,
      rest = flat_map ring_lines rts ++ "END"%string :: rest'
      /\ Forall (ring_text_ok read_coordinates) rts
      /\ rings' = rings ++ map ring_of_text rts
      /\ n' = (n + List.length (flat_map ring_lines rts) + 1)%nat.
Proof.
  induction fuel as [|fuel IH]; intros rest n rings rings' rest' n' H;
    [discriminate H|].
  cbn [multipolygon_loop] in H.
  destruct rest as [|l rest]; [discriminate H|].
  destruct (String.eqb_spec l "END") as [->|Hl].
  - injection H as <- <- <-. exists [].
    cbn [flat_map app map List.length]. rewrite app_nil_r.
    repeat split; first [lia | constructor].
  - unfold parse_ring in H.
    destruct (ring_loop read_coordinates m_file_name (starts_with_bang l)
                        [] rest (S n)) as [[[r rest1] n1]|e|] eqn:R;
      try discriminate H.
    apply ring_loop_done in R.
    destruct R as (coords & -> & -> & Hall & Hlen & ->).
    apply IH in H. destruct H as (rts & -> & Hok & -> & ->).
    cbn [app] in Hlen. rewrite length_map in Hlen.
    exists (mkRingText l coords :: rts).
    change (flat_map ring_lines (mkRingText l coords :: rts))
      with ((l :: map fst coords ++ ["END"%string])
            ++ flat_map ring_lines rts).
    change (map ring_of_text (mkRingText l coords :: rts))
      with (mkRing (starts_with_bang l) (close_ring (map snd coords))
            :: map ring_of_text rts).
    split; [|split; [|split]].
    + cbn [app]. rewrite <- !app_assoc. reflexivity.
    + constructor; [apply ring_text_of_loop; assumption|exact Hok].
    + rewrite <- app_assoc. reflexivity.
    + cbn [List.length app]. rewrite !length_app, length_map.
      cbn [List.length]. lia.
Qed.

Lemma flat_map_ring_lines_length (rts : list ring_text) :
  (List.length rts <= List.length (flat_map ring_lines rts))%nat.
Proof.
  induction rts as [|rt rts IH]; [cbn; lia|].
  change (flat_map ring_lines (rt :: rts))
    with ((rt_header rt :: map fst (rt_coordinates rt) ++ ["END"%string])
          ++ flat_map ring_lines rts).
  cbn [List.length app]. rewrite !length_app. lia.
Qed.

Lemma multipolygon_loop_complete (rts : list ring_text) :
  forall (fuel : nat) (rest' : list string) (n : nat) (rings : list ring),
    Forall (ring_text_ok read_coordinates) rts ->
    (List.length rts < fuel)%nat ->
    multipolygon_loop read_coordinates fuel m_file_name
      (flat_map ring_lines rts ++ "END"%string :: rest') n rings
    = Done (rings ++ map ring_of_text rts, rest',
            (n + List.length (flat_map ring_lines rts) + 1)%nat).
Proof.
  induction rts as [|rt rts IH]; intros fuel rest' n rings Hok Hfuel.
  - destruct fuel as [|fuel]; [cbn in Hfuel; lia|].
    cbn. rewrite app_nil_r. same_position.
  - destruct fuel as [|fuel]; [cbn in Hfuel; lia|].
    inversion Hok as [|? ? (Hh & Hlen & Hall) Hok']; subst.
    destruct rt as [header coords]. cbn [rt_header rt_coordinates] in *.
    change (flat_map ring_lines (mkRingText header coords :: rts))
      with ((header :: map fst coords ++ ["END"%string])
            ++ flat_map ring_lines rts).
    change (map ring_of_text (mkRingText header coords :: rts))
      with (mkRing (starts_with_bang header) (close_ring (map snd coords))
            :: map ring_of_text rts).
    cbn [app]. rewrite <- !app_assoc. cbn [app multipolygon_loop].
    apply String.eqb_neq in Hh. rewrite Hh.
    unfold parse_ring.
    rewrite (ring_loop_complete _ _ _ [] (S n) Hall)
      by (cbn [app]; rewrite length_map; exact Hlen).
    cbn [app].
    rewrite IH; [|exact Hok'|cbn [List.length] in Hfuel; lia].
    rewrite <- app_assoc. cbn [app].
    same_position.
Qed.

Lemma ring_loop_fuel (inner : bool) (rest : list string) :
  forall (cs : list Location) (n : nat),
    ring_loop read_coordinates m_file_name inner cs rest n <> OutOfFuel.
Proof.
  induction rest as [|l rest IH]; intros cs n; cbn [ring_loop];
    [discriminate|].
  destruct (l =? "END")%string;
    [destruct (List.length cs <? 3)%nat; discriminate|].
  destruct (read_coordinates l); [apply IH|discriminate].
Qed.

Lemma multipolygon_loop_fuel (fuel : nat) :
  forall (rest : list string) (n : nat) (rings : list ring),
    (List.length rest < fuel)%nat ->
    multipolygon_loop read_coordinates fuel m_file_name rest n rings
    <> OutOfFuel.
Proof.
  induction fuel as [|fuel IH]; intros rest n rings Hfuel; [lia|].
  cbn [multipolygon_loop].
  destruct rest as [|l rest]; [discriminate|].
  destruct (l =? "END")%string; [discriminate|].
  unfold parse_ring.
  destruct (ring_loop read_coordinates m_file_name (starts_with_bang l)
                      [] rest (S n)) as [[[r rest1] n1]|e|] eqn:R.
  - apply ring_loop_done in R. destruct R as (coords & -> & _).
    apply IH. cbn [List.length] in Hfuel.
    rewrite length_app in Hfuel. cbn [List.length] in Hfuel. lia.
  - discriminate.
  - exfalso. exact (ring_loop_fuel _ _ _ _ R).
Qed.

Lemma polygons_loop_done (fuel : nat) :
  forall (rest : list string) (n : nat) (rings rings' : list ring),
    polygons_loop read_coordinates fuel m_file_name rest n rings
    = Done rings' ->
    exists ss : list (string * list ring_text),
      rest = flat_map section_lines ss
      /\ sections_ok read_coordinates ss
      /\ rings' = rings ++ sections_rings ss.
Proof.
  induction fuel as [|fuel IH]; intros rest n rings rings' H;
    [discriminate H|].
  cbn [polygons_loop] in H.
  destruct rest as [|first rest].
  - injection H as <-. exists []. cbn. rewrite app_nil_r.
    repeat split. constructor.
  - unfold parse_multipolygon in H.
    destruct (multipolygon_loop read_coordinates (S (List.length rest))
                m_file_name rest (S n) rings)
      as [[[rings1 rest1] n1]|e|] eqn:M; try discriminate H.
    apply multipolygon_loop_done in M.
    destruct M as (rts & -> & Hok & -> & ->).
    apply IH in H. destruct H as (ss & -> & Hss & ->).
    exists ((first, rts) :: ss).
    change (flat_map section_lines ((first, rts) :: ss))
      with ((first :: flat_map ring_lines rts ++ ["END"%string])
            ++ flat_map section_lines ss).
    change (sections_rings ((first, rts) :: ss))
      with (map ring_of_text rts ++ sections_rings ss).
    split; [|split].
    + cbn [app]. rewrite <- !app_assoc. reflexivity.
    + constructor; [exact Hok|exact Hss].
    + rewrite <- app_assoc. reflexivity.
Qed.

Lemma polygons_loop_complete (ss : list (string * list ring_text)) :
  forall (fuel : nat) (n : nat) (rings : list ring),
    sections_ok read_coordinates ss ->
    (List.length ss < fuel)%nat ->
    polygons_loop read_coordinates fuel m_file_name
                  (flat_map section_lines ss) n rings
    = Done (rings ++ sections_rings ss).
Proof.
  induction ss as [|[first rts] ss IH]; intros fuel n rings Hok Hfuel.
  - destruct fuel as [|fuel]; [cbn in Hfuel; lia|].
    cbn. rewrite app_nil_r. reflexivity.
  - destruct fuel as [|fuel]; [cbn in Hfuel; lia|].
    inversion Hok as [|? ? Hrts Hss]; subst. cbn [snd] in Hrts.
    change (flat_map section_lines ((first, rts) :: ss))
      with ((first :: flat_map ring_lines rts ++ ["END"%string])
            ++ flat_map section_lines ss).
    change (sections_rings ((first, rts) :: ss))
      with (map ring_of_text rts ++ sections_rings ss).
    cbn [app]. rewrite <- app_assoc. cbn [app polygons_loop].
    unfold parse_multipolygon.
    rewrite multipolygon_loop_complete; [|exact Hrts|].
    + rewrite IH; [|exact Hss|cbn [List.length] in Hfuel; lia].
      rewrite <- app_assoc. reflexivity.
    + rewrite length_app. cbn [List.length].
      pose proof (flat_map_ring_lines_length rts). lia.
Qed.

Lemma polygons_loop_fuel (fuel : nat) :
  forall (rest : list string) (n : nat) (rings : list ring),
    (List.length rest < fuel)%nat ->
    polygons_loop read_coordinates fuel m_file_name rest n rings
    <> OutOfFuel.
Proof.
  induction fuel as [|fuel IH]; intros rest n rings Hfuel; [lia|].
  cbn [polygons_loop].
  destruct rest as [|first rest]; [discriminate|].
  unfold parse_multipolygon.
  destruct (multipolygon_loop read_coordinates (S (List.length rest))
              m_file_name rest (S n) rings)
    as [[[rings1 rest1] n1]|e|] eqn:M.
  - apply multipolygon_loop_done in M. destruct M as (rts & -> & _).
    apply IH. cbn [List.length] in Hfuel.
    rewrite length_app in Hfuel. cbn [List.length] in Hfuel. lia.
  - discriminate.
  - exfalso. revert M. apply multipolygon_loop_fuel. lia.
Qed.

(** ** Where the parser fails *)

Ltac measure H :=
  repeat progress (cbn [app List.length] in H;
                   rewrite ?length_app, ?length_map in H).

Ltac same_error :=
  match goal with
  | |- error_at _ _ _ = error_at _ _ _ =>
      f_equal; cbn [flat_map List.length]; rewrite ?length_app, ?length_map;
      cbn [List.length]; lia
  end.

(** The failures of [ring_loop] that has read the coordinates [cs]. *)
Lemma ring_loop_failed (inner : bool) (rest : list string) :
  forall (cs : list Location) (n : nat) (e : poly_exception),
    ring_loop read_coordinates m_file_name inner cs rest n = Failed e ->
    exists coords : list (string * Location),
      Forall (fun c : string * Location =>
                fst c <> "END"%string
                /\ read_coordinates (fst c) = Some (snd c)) coords
      /\ ((exists rest' : list string,
              rest = map fst coords ++ "END"%string :: rest'
              /\ (List.length cs + List.length coords < 3)%nat
              /\ e = error_at m_file_name (n + List.length coords)
                       "Expected at least three lines with coordinates")
          \/ (exists (l : string) (rest' : list string),
                 rest = map fst coords ++ l :: rest'
                 /\ l <> "END"%string
                 /\ read_coordinates l = None
                 /\ e = error_at m_file_name (n + List.length coords)
                          "Expected 'END' or coordinates")
          \/ (rest = map fst coords
              /\ e = error_at m_file_name (n + List.length coords)
                       "Expected coordinates or 'END' for end of ring")).
Proof.
  induction rest as [|l rest IH]; intros cs n e H; cbn [ring_loop] in H.
  - injection H as <-. exists []. split; [constructor|].
    right. right. split; [reflexivity|same_error].
  - destruct (String.eqb_spec l "END") as [->|Hl].
    + destruct (Nat.ltb_spec (List.length cs) 3) as [Hlt|_];
        [|discriminate H].
      injection H as <-. exists []. split; [constructor|].
      left. exists rest. cbn [map app List.length].
      repeat split; first [lia | same_error].
    + destruct (read_coordinates l) as [loc|] eqn:R.
      * apply IH in H. destruct H as (coords & Hall & H).
        exists ((l, loc) :: coords).
        split; [constructor; [split; assumption|exact Hall]|].
        rewrite length_app in H. cbn [map app List.length fst] in H |- *.
        destruct H as [(rest' & -> & Hlen & ->)
                      |[(l' & rest' & -> & Hl' & R' & ->)|(-> & ->)]].
        -- left. exists rest'.
           repeat split; first [lia | same_error].
        -- right. left. exists l', rest'.
           repeat split; first [assumption | same_error].
        -- right. right. split; [reflexivity|same_error].
      * injection H as <-. exists []. split; [constructor|].
        right. left. exists l, rest. cbn [map app List.length].
        repeat split; first [assumption | same_error].
Qed.

Lemma ring_loop_fails (inner : bool) (coords : list (string * Location)) :
  forall (rest : list string) (cs : list Location) (n : nat)
         (e : poly_exception),
    Forall (fun c : string * Location =>
              fst c <> "END"%string
              /\ read_coordinates (fst c) = Some (snd c)) coords ->
    (exists rest' : list string,
        rest = map fst coords ++ "END"%string :: rest'
        /\ (List.length cs + List.length coords < 3)%nat
        /\ e = error_at m_file_name (n + List.length coords)
                 "Expected at least three lines with coordinates")
    \/ (exists (l : string) (rest' : list string),
           rest = map fst coords ++ l :: rest'
           /\ l <> "END"%string
           /\ read_coordinates l = None
           /\ e = error_at m_file_name (n + List.length coords)
                    "Expected 'END' or coordinates")
    \/ (rest = map fst coords
        /\ e = error_at m_file_name (n + List.length coords)
                 "Expected coordinates or 'END' for end of ring") ->
    ring_loop read_coordinates m_file_name inner cs rest n = Failed e.
Proof.
  induction coords as [|[l loc] coords IH]; intros rest cs n e Hall H.
  - cbn [map app List.length] in H.
    destruct H as [(rest' & -> & Hlen & ->)
                  |[(l' & rest' & -> & Hl' & R' & ->)|(-> & ->)]];
      cbn [ring_loop].
    + cbn [String.eqb Ascii.eqb Bool.eqb].
      destruct (Nat.ltb_spec (List.length cs) 3) as [_|Hge]; [|lia].
      f_equal. same_error.
    + apply String.eqb_neq in Hl'. rewrite Hl', R'. f_equal. same_error.
    + f_equal. same_error.
  - inversion Hall as [|? ? [Hne Hread] Hall']; subst.
    cbn [fst snd] in Hne, Hread. apply String.eqb_neq in Hne.
    assert (Hstep : forall rest0 : list string,
               ring_loop read_coordinates m_file_name inner cs
                         (l :: rest0) n
               = ring_loop read_coordinates m_file_name inner
                           (cs ++ [loc]) rest0 (S n)).
    { intro rest0. cbn [ring_loop]. rewrite Hne, Hread. reflexivity. }
    cbn [map app List.length fst] in H.
    destruct H as [(rest' & -> & Hlen & ->)
                  |[(l' & rest' & -> & Hl' & R' & ->)|(-> & ->)]];
      rewrite Hstep; apply (IH _ _ _ _ Hall').
    + left. exists rest'. rewrite length_app. cbn [List.length].
      repeat split; first [lia | same_error].
    + right. left. exists l', rest'.
      repeat split; first [assumption | same_error].
    + right. right. split; [reflexivity|same_error].
Qed.

(** [parse_ring] fails exactly in the three ways of [ring_failure]. *)
Lemma parse_ring_failed (header : string) (body : list string) (n : nat)
    (e : poly_exception) :
  parse_ring read_coordinates m_file_name header body n = Failed e
  <-> ring_failure read_coordinates m_file_name (S n) body e.
Proof.
  unfold parse_ring, ring_failure. split.
  - intro H. apply ring_loop_failed in H.
    destruct H as (coords & Hall & H). exists coords.
    split; [exact Hall|exact H].
  - intros (coords & Hall & H).
    apply (ring_loop_fails _ coords _ _ _ _ Hall). exact H.
Qed.

Lemma ring_failure_at (n n' : nat) (body : list string) (e : poly_exception) :
  n = n' ->
  ring_failure read_coordinates m_file_name n body e ->
  ring_failure read_coordinates m_file_name n' body e.
Proof. intros ->. exact (fun H => H). Qed.

Lemma section_failure_at (n n' : nat) (lines : list string)
    (e : poly_exception) :
  n = n' ->
  section_failure read_coordinates m_file_name n lines e ->
  section_failure read_coordinates m_file_name n' lines e.
Proof. intros ->. exact (fun H => H). Qed.

Lemma ring_lines_cons (rt : ring_text) (rts : list ring_text) :
  flat_map ring_lines (rt :: rts)
  = rt_header rt
    :: map fst (rt_coordinates rt)
    ++ "END"%string :: flat_map ring_lines rts.
Proof.
  cbn [flat_map]. unfold ring_lines at 1. cbn [app].
  rewrite <- app_assoc. reflexivity.
Qed.

Lemma ring_lines_cons_length (rt : ring_text) (rts : list ring_text) :
  List.length (flat_map ring_lines (rt :: rts))
  = (List.length (rt_coordinates rt) + 2
     + List.length (flat_map ring_lines rts))%nat.
Proof.
  rewrite ring_lines_cons. cbn [List.length].
  rewrite length_app, length_map. cbn [List.length]. lia.
Qed.

Lemma section_lines_cons (s : string * list ring_text)
    (ss : list (string * list ring_text)) :
  flat_map section_lines (s :: ss)
  = fst s
    :: flat_map ring_lines (snd s)
    ++ "END"%string :: flat_map section_lines ss.
Proof.
  cbn [flat_map]. unfold section_lines at 1. cbn [app].
  rewrite <- app_assoc. reflexivity.
Qed.

Lemma section_lines_cons_length (s : string * list ring_text)
    (ss : list (string * list ring_text)) :
  List.length (flat_map section_lines (s :: ss))
  = (List.length (flat_map ring_lines (snd s)) + 2
     + List.length (flat_map section_lines ss))%nat.
Proof.
  rewrite section_lines_cons. cbn [List.length].
  rewrite length_app. cbn [List.length]. lia.
Qed.

Lemma multipolygon_loop_failed (fuel : nat) :
  forall (rest : list string) (n : nat) (rings : list ring)
         (e : poly_exception),
    multipolygon_loop read_coordinates fuel m_file_name rest n rings
    = Failed e ->
    section_failure read_coordinates m_file_name n rest e.
Proof.
  induction fuel as [|fuel IH]; intros rest n rings e H;
    [discriminate H|].
  cbn [multipolygon_loop] in H.
  destruct rest as [|l rest].
  - injection H as <-. exists []. split; [constructor|].
    right. split; [reflexivity|same_error].
  - destruct (String.eqb_spec l "END") as [->|Hl]; [discriminate H|].
    destruct (parse_ring read_coordinates m_file_name l rest n)
      as [[[r rest1] n1]|e1|] eqn:R; [| |discriminate H].
    + unfold parse_ring in R. apply ring_loop_done in R.
      destruct R as (coords & -> & -> & Hall & Hlen & _).
      cbn [app] in Hlen. rewrite length_map in Hlen.
      apply IH in H. destruct H as (rts & Hok & H).
      exists (mkRingText l coords :: rts).
      split; [constructor;
              [apply ring_text_of_loop; assumption|exact Hok]|].
      rewrite ring_lines_cons_length, ring_lines_cons.
      cbn [rt_header rt_coordinates].
      destruct H as [(header & body & -> & Hh & Hf)|(-> & ->)].
      * left. exists header, body.
        split; [|split; [exact Hh|]].
        -- cbn [app]. rewrite <- !app_assoc. reflexivity.
        -- revert Hf. apply ring_failure_at. lia.
      * right. split; [reflexivity|same_error].
    + injection H as <-. apply parse_ring_failed in R.
      exists []. split; [constructor|].
      left. exists l, rest. cbn [flat_map app List.length].
      split; [reflexivity|split; [exact Hl|]].
      revert R. apply ring_failure_at. lia.
Qed.

Lemma multipolygon_loop_fails (rts : list ring_text) :
  forall (fuel : nat) (rest : list string) (n : nat) (rings : list ring)
         (e : poly_exception),
    (List.length rest < fuel)%nat ->
    Forall (ring_text_ok read_coordinates) rts ->
    (exists (header : string) (body : list string),
        rest = flat_map ring_lines rts ++ header :: body
        /\ header <> "END"%string
        /\ ring_failure read_coordinates m_file_name
             (n + List.length (flat_map ring_lines rts) + 1) body e)
    \/ (rest = flat_map ring_lines rts
        /\ e = error_at m_file_name
                 (n + List.length (flat_map ring_lines rts))
                 "Expected 'END' for end of (multi)polygon") ->
    multipolygon_loop read_coordinates fuel m_file_name rest n rings
    = Failed e.
Proof.
  induction rts as [|rt rts IH]; intros fuel rest n rings e Hfuel Hok H;
    (destruct fuel as [|fuel]; [lia|]).
  - cbn [flat_map app List.length] in H.
    destruct H as [(header & body & -> & Hh & Hf)|(-> & ->)];
      cbn [multipolygon_loop].
    + apply String.eqb_neq in Hh. rewrite Hh.
      assert (R : parse_ring read_coordinates m_file_name header body n
                  = Failed e).
      { apply parse_ring_failed. revert Hf. apply ring_failure_at. lia. }
      rewrite R. reflexivity.
    + f_equal. same_error.
  - inversion Hok as [|? ? (Hh & Hlen & Hall) Hok']; subst.
    rewrite ring_lines_cons_length, ring_lines_cons in H.
    assert (Hstep : forall rest1 : list string,
               (List.length rest1 < fuel)%nat ->
               multipolygon_loop read_coordinates (S fuel) m_file_name
                 (rt_header rt
                  :: map fst (rt_coordinates rt) ++ "END"%string :: rest1)
                 n rings
               = multipolygon_loop read_coordinates fuel m_file_name rest1
                   (S n + List.length (rt_coordinates rt) + 1)
                   (rings ++ [mkRing (starts_with_bang (rt_header rt))
                                (close_ring
                                   (map snd (rt_coordinates rt)))])).
    { intros rest1 _. cbn [multipolygon_loop].
      apply String.eqb_neq in Hh. rewrite Hh. unfold parse_ring.
      rewrite (ring_loop_complete _ _ _ [] (S n) Hall)
        by (cbn [app]; rewrite length_map; exact Hlen).
      reflexivity. }
    destruct H as [(header & body & -> & Hh' & Hf)|(-> & ->)].
    + measure Hfuel. cbn [app]. rewrite <- app_assoc. cbn [app].
      rewrite Hstep by (rewrite length_app; cbn [List.length]; lia).
      apply IH; [rewrite length_app; cbn [List.length]; lia|exact Hok'|].
      left. exists header, body.
      split; [reflexivity|split; [exact Hh'|]].
      revert Hf. apply ring_failure_at. lia.
    + measure Hfuel.
      rewrite Hstep by lia.
      apply IH; [lia|exact Hok'|].
      right. split; [reflexivity|same_error].
Qed.

(** [parse_multipolygon] fails exactly in the ways of
    [section_failure]. *)
Lemma parse_multipolygon_failed (first : string) (lines : list string)
    (n : nat) (rings : list ring) (e : poly_exception) :
  parse_multipolygon read_coordinates m_file_name first lines n rings
  = Failed e
  <-> section_failure read_coordinates m_file_name (S n) lines e.
Proof.
  unfold parse_multipolygon. split.
  - apply multipolygon_loop_failed.
  - intros (rts & Hok & H).
    apply (multipolygon_loop_fails rts); [lia|exact Hok|exact H].
Qed.

Lemma polygons_loop_failed (fuel : nat) :
  forall (rest : list string) (n : nat) (rings : list ring)
         (e : poly_exception),
    polygons_loop read_coordinates fuel m_file_name rest n rings
    = Failed e ->
    exists (ss : list (string * list ring_text)) (first : string)
           (lines : list string),
      sections_ok read_coordinates ss
      /\ rest = flat_map section_lines ss ++ first :: lines
      /\ section_failure read_coordinates m_file_name
           (n + List.length (flat_map section_lines ss) + 1) lines e.
Proof.
  induction fuel as [|fuel IH]; intros rest n rings e H;
    [discriminate H|].
  cbn [polygons_loop] in H.
  destruct rest as [|first rest]; [discriminate H|].
  destruct (parse_multipolygon read_coordinates m_file_name first rest n
              rings) as [[[rings1 rest1] n1]|e1|] eqn:M;
    [| |discriminate H].
  - unfold parse_multipolygon in M. apply multipolygon_loop_done in M.
    destruct M as (rts & -> & Hok & _ & ->).
    apply IH in H. destruct H as (ss & first' & lines & Hss & -> & Hf).
    exists ((first, rts) :: ss), first', lines.
    split; [constructor; [exact Hok|exact Hss]|].
    rewrite section_lines_cons_length, section_lines_cons. cbn [fst snd].
    split.
    + cbn [app]. rewrite <- !app_assoc. reflexivity.
    + revert Hf. apply section_failure_at. lia.
  - injection H as <-. apply parse_multipolygon_failed in M.
    exists [], first, rest. split; [constructor|].
    cbn [flat_map app List.length]. split; [reflexivity|].
    revert M. apply section_failure_at. lia.
Qed.

Lemma polygons_loop_fails (ss : list (string * list ring_text)) :
  forall (fuel : nat) (rest : list string) (first : string)
         (lines : list string) (n : nat) (rings : list ring)
         (e : poly_exception),
    (List.length rest < fuel)%nat ->
    sections_ok read_coordinates ss ->
    rest = flat_map section_lines ss ++ first :: lines ->
    section_failure read_coordinates m_file_name
      (n + List.length (flat_map section_lines ss) + 1) lines e ->
    polygons_loop read_coordinates fuel m_file_name rest n rings
    = Failed e.
Proof.
  induction ss as [|[name rts] ss IH];
    intros fuel rest first lines n rings e Hfuel Hok -> Hf;
    (destruct fuel as [|fuel]; [lia|]).
  - cbn [flat_map app polygons_loop].
    assert (M : parse_multipolygon read_coordinates m_file_name first lines
                  n rings = Failed e).
    { apply parse_multipolygon_failed. revert Hf.
      apply section_failure_at. cbn [flat_map List.length]. lia. }
    rewrite M. reflexivity.
  - inversion Hok as [|? ? Hrts Hss]; subst. cbn [snd] in Hrts.
    rewrite section_lines_cons_length in Hf.
    rewrite section_lines_cons in Hfuel |- *. cbn [fst snd] in *.
    measure Hfuel.
    cbn [app]. rewrite <- app_assoc. cbn [app polygons_loop].
    unfold parse_multipolygon.
    rewrite multipolygon_loop_complete; [|exact Hrts|].
    + apply (IH _ _ first lines);
        [rewrite length_app; cbn [List.length]; lia|exact Hss
        |reflexivity|].
      revert Hf. apply section_failure_at. lia.
    + rewrite length_app. cbn [List.length].
      pose proof (flat_map_ring_lines_length rts). lia.
Qed.

Lemma close_ring_closed (cs : list Location) :
  (3 <= List.length cs)%nat ->
  (3 <= List.length (close_ring cs))%nat
  /\ hd undefined_location (close_ring cs)
     = last (close_ring cs) undefined_location.
Proof.
  intro H. unfold close_ring.
  destruct (location_eqb (hd undefined_location cs)
                         (last cs undefined_location)) eqn:E; cbn [negb].
  - split; [exact H|].
    unfold location_eqb in E. apply andb_prop in E. destruct E as [Ex Ey].
    apply Z.eqb_eq in Ex, Ey.
    destruct (hd undefined_location cs) as [hx hy],
      (last cs undefined_location) as [lx ly].
    cbn [x y] in Ex, Ey. congruence.
  - split; [rewrite length_app; lia|].
    rewrite last_last. destruct cs; [cbn in H; lia|reflexivity].
Qed.

Lemma ring_of_text_closed (rt : ring_text) :
  ring_text_ok read_coordinates rt ->
  (3 <= List.length (ring_nodes (ring_of_text rt)))%nat
  /\ hd undefined_location (ring_nodes (ring_of_text rt))
     = last (ring_nodes (ring_of_text rt)) undefined_location.
Proof.
  intros (_ & Hlen & _). unfold ring_of_text; cbn [ring_nodes].
  apply close_ring_closed. rewrite length_map. exact Hlen.
Qed.

Lemma sections_flat_map_length (ss : list (string * list ring_text)) :
  (List.length ss <= List.length (flat_map section_lines ss))%nat.
Proof.
  induction ss as [|s ss IH]; [cbn; lia|].
  change (flat_map section_lines (s :: ss))
    with ((fst s :: flat_map ring_lines (snd s) ++ ["END"%string])
          ++ flat_map section_lines ss).
  cbn [List.length app]. rewrite !length_app. lia.
Qed.

(** X15. The parser comes to an end on every list of lines: it returns
    rings or throws, and none of its three loops runs out of the fuel
    that the number of lines gives. *)
Theorem poly_parse_terminates (m_data : list string) :
  (exists rings : list ring,
      poly_parse read_coordinates m_file_name m_data = Done rings)
  \/ (exists e : poly_exception,
         poly_parse read_coordinates m_file_name m_data = Failed e).
Proof.
  destruct (poly_parse read_coordinates m_file_name m_data)
    as [rings|e|] eqn:E.
  - left. exists rings. reflexivity.
  - right. exists e. reflexivity.
  - exfalso. unfold poly_parse in E.
    destruct m_data as [|l m_data]; [discriminate E|].
    revert E. apply polygons_loop_fuel. lia.
Qed.

(** X16. The parser returns exactly on the well-formed files: the lines
    are one or more sections, each a first line (any text), then rings,
    then [END]; each ring is a header line other than [END], three or
    more lines that read as coordinates, and [END].  It then returns, in
    file order, one ring for each ring of the file, inner when the header
    starts with an exclamation mark, with the coordinates read and the
    first one repeated at the end unless the ring is closed already. *)
Theorem poly_parse_accepts (m_data : list string) (rings : list ring) :
  poly_parse read_coordinates m_file_name m_data = Done rings
  <-> exists ss : list (string * list ring_text),
        ss <> []
        /\ m_data = flat_map section_lines ss
        /\ sections_ok read_coordinates ss
        /\ rings = sections_rings ss.
Proof.
  split.
  - intro H. unfold poly_parse in H.
    destruct m_data as [|l m_data]; [discriminate H|].
    apply polygons_loop_done in H. destruct H as (ss & E & Hok & ->).
    exists ss. repeat split; try assumption.
    intros ->. discriminate E.
  - intros (ss & Hne & -> & Hok & ->). unfold poly_parse.
    destruct (flat_map section_lines ss) as [|l ls] eqn:E.
    + destruct ss as [|s ss]; [contradiction|discriminate E].
    + rewrite <- E.
      rewrite polygons_loop_complete; [reflexivity|exact Hok|].
      pose proof (sections_flat_map_length ss). lia.
Qed.

(** X17. Every ring the parser returns has at least three locations and
    ends with its first location. *)
Theorem poly_rings_closed (m_data : list string) (rings : list ring) :
  poly_parse read_coordinates m_file_name m_data = Done rings ->
  Forall (fun r : ring =>
            (3 <= List.length (ring_nodes r))%nat
            /\ hd undefined_location (ring_nodes r)
               = last (ring_nodes r) undefined_location)
         rings.
Proof.
  intro H. unfold poly_parse in H.
  destruct m_data as [|l m_data]; [discriminate H|].
  apply polygons_loop_done in H. destruct H as (ss & _ & Hok & ->).
  cbn [app]. unfold sections_rings.
  apply Forall_flat_map. unfold sections_ok in Hok.
  rewrite Forall_forall in Hok |- *. intros s Hs.
  specialize (Hok s Hs). apply Forall_map.
  rewrite Forall_forall in Hok |- *. intros rt Hrt.
  apply ring_of_text_closed. apply Hok. exact Hrt.
Qed.

(** X18. The parser throws exactly in these cases, each with its own
    message.  No lines at all: the empty-file error.  Otherwise, after
    zero or more complete sections, inside a section and after zero or
    more complete rings of it: a ring that, after zero or more readable
    coordinate lines, meets [END] with fewer than three coordinates read,
    or a line that is neither [END] nor readable, or the end of the
    lines; or the lines end where the next ring or the [END] of the
    section is due.  The message names, counted from 1, the position of
    the line at fault among the lines of [m_data], which are the
    non-empty lines of the file, and one past the last line when the
    lines have ended. *)
Theorem poly_errors_located (m_data : list string) (e : poly_exception) :
  poly_parse read_coordinates m_file_name m_data = Failed e
  <->
  (m_data = []
   /\ e = poly_error (String.append "File '"
                        (String.append m_file_name "' is empty")))
  \/ error_located read_coordinates m_file_name m_data e.
Proof.
  unfold poly_parse, error_located. split.
  - intro H. destruct m_data as [|l m_data].
    + left. injection H as <-. split; reflexivity.
    + right. apply polygons_loop_failed in H. exact H.
  - intros [(-> & ->)|(ss & first & lines & Hok & E & Hf)];
      [reflexivity|].
    destruct m_data as [|l m_data].
    + apply app_cons_not_nil in E. contradiction.
    + apply (polygons_loop_fails ss _ _ first lines);
        [lia|exact Hok|exact E|exact Hf].
Qed.

Lemma split_pieces_not_nil (sep : ascii) (s : string) :
  split_pieces sep s <> [].
Proof.
  destruct s as [|c s]; cbn [split_pieces]; [discriminate|].
  destruct (Ascii.eqb c sep); [discriminate|].
  destruct (split_pieces sep s); discriminate.
Qed.

Lemma split_only_newlines (s : string) :
  split_string_compact s (ascii_of_nat 10) = [] <-> only_newlines s = true.
Proof.
  unfold split_string_compact.
  induction s as [|c s IH]; [split; reflexivity|].
  cbn [split_pieces only_newlines].
  destruct (Ascii.eqb c (ascii_of_nat 10)).
  - cbn [filter String.eqb negb andb]. exact IH.
  - cbn [andb].
    destruct (split_pieces (ascii_of_nat 10) s) as [|piece pieces];
      cbn [filter String.eqb negb]; split; intro H; discriminate H.
Qed.

Lemma error_at_not_empty_file (n : nat) (message : string) :
  (message = "Expected at least three lines with coordinates"
   \/ message = "Expected 'END' or coordinates"
   \/ message = "Expected coordinates or 'END' for end of ring"
   \/ message = "Expected 'END' for end of (multi)polygon")%string ->
  error_at m_file_name n message
  <> poly_error (String.append "File '"
                   (String.append m_file_name "' is empty")).
Proof.
  intros [ -> | [ -> | [ -> | -> ] ] ] H; discriminate H.
Qed.

Lemma empty_error_no_lines (m_data : list string) :
  poly_parse read_coordinates m_file_name m_data
  = Failed (poly_error (String.append "File '"
                          (String.append m_file_name "' is empty"))) ->
  m_data = [].
Proof.
  intro H. unfold poly_parse in H.
  destruct m_data as [|l m_data]; [reflexivity|exfalso].
  apply polygons_loop_failed in H.
  destruct H as (ss & first & lines & _ & _ & rts & _ & H).
  destruct H as [(header & body & _ & _ & coords & _ & H)|(_ & E)].
  - destruct H as [(rest' & _ & _ & E)|[(l' & rest' & _ & _ & _ & E)
                                       |(_ & E)]];
      symmetry in E; revert E; apply error_at_not_empty_file; auto.
  - symmetry in E; revert E; apply error_at_not_empty_file; auto.
Qed.

(** X19. A file that cannot be opened gives the configuration error,
    and a file that can gives the empty-file error exactly when its text
    holds nothing but newlines (or nothing at all). *)
Theorem poly_parse_file_empty (content : option string) :
  (content = None ->
   poly_parse_file read_coordinates m_file_name content
   = Failed (config_error (String.append "Could not open file '"
                             (String.append m_file_name "'"))))
  /\ (forall text : string,
         content = Some text ->
         (poly_parse_file read_coordinates m_file_name content
          = Failed (poly_error (String.append "File '"
                                  (String.append m_file_name "' is empty")))
          <-> only_newlines text = true)).
Proof.
  split; [intros ->; reflexivity|].
  intros text ->. cbn [poly_parse_file].
  rewrite <- split_only_newlines.
  split.
  - apply empty_error_no_lines.
  - intros ->. reflexivity.
Qed.

End PolyFileParserProperties.

(* ================================================================== *)
(** * Ordered streams of objects                                       *)
(* ================================================================== *)

Lemma id_order_total (a b : Z) :
  id_order a b = false -> id_order b a = false -> a = b.
Proof.
  unfold id_order.
  destruct (Z.gtb_spec a 0), (Z.gtb_spec b 0); cbn;
    rewrite ?Z.ltb_ge; intros Hab Hba; first [lia | discriminate].
Qed.

Lemma id_order_not_less_trans (a b c : Z) :
  id_order b a = false -> id_order c b = false -> id_order c a = false.
Proof.
  unfold id_order.
  destruct (Z.gtb_spec a 0), (Z.gtb_spec b 0), (Z.gtb_spec c 0); cbn;
    rewrite ?Z.ltb_ge; intros Hab Hbc;
    first [lia | discriminate | reflexivity | apply Z.ltb_ge; lia].
Qed.

Lemma out_of_order_trans (p e f : Entity) :
  is_object p = true -> is_object e = true -> is_object f = true ->
  out_of_order p e = false -> out_of_order e f = false ->
  out_of_order p f = false.
Proof.
  intros Hp He Hf.
  assert (T : forall a b : Entity,
             is_object b = true ->
             out_of_order a b
             = if item_type_eqb (entity_type a) (entity_type b)
               then id_order (entity_id b) (entity_id a)
               else kind_regression (entity_type a) (entity_type b)).
  { intros a b Hb. destruct b; try discriminate Hb; reflexivity. }
  rewrite !T by assumption.
  destruct p as [p|p|p|p]; try discriminate Hp;
    destruct e as [e|e|e|e]; try discriminate He;
    destruct f as [f|f|f|f]; try discriminate Hf;
    cbn [entity_type entity_id item_type_eqb item_type_value Z.eqb Pos.eqb
         kind_regression kind_rank Nat.ltb Nat.leb];
    intros H1 H2;
    first [ discriminate H1 | discriminate H2 | reflexivity
          | exact (id_order_not_less_trans _ _ _ H1 H2) ].
Qed.

Lemma out_of_order_antisym (p e : Entity) :
  is_object p = true -> is_object e = true ->
  out_of_order p e = false -> out_of_order e p = false ->
  same_object p e = true.
Proof.
  intros Hp He. unfold same_object.
  destruct p as [p|p|p|p]; try discriminate Hp;
    destruct e as [e|e|e|e]; try discriminate He;
    cbn [out_of_order is_object entity_type entity_id item_type_eqb
         item_type_value Z.eqb Pos.eqb kind_regression kind_rank
         Nat.ltb Nat.leb andb];
    intros H1 H2;
    first [ discriminate H1 | discriminate H2
          | apply Z.eqb_eq; exact (id_order_total _ _ H2 H1) ].
Qed.

Lemma sorted_after_all (l : list Entity) :
  forall p : Entity,
    is_object p = true ->
    forallb is_object l = true ->
    sorted_after p l = true ->
    forall e : Entity, In e l -> out_of_order p e = false.
Proof.
  induction l as [|a l IH]; intros p Hp Hall Hs e Hin; [contradiction|].
  cbn [forallb sorted_after] in *.
  apply andb_prop in Hall, Hs. destruct Hall as [Ha Hl], Hs as [Hpa Hs].
  apply negb_true_iff in Hpa.
  destruct Hin as [<-|Hin]; [exact Hpa|].
  assert (He : is_object e = true).
  { rewrite forallb_forall in Hl. apply Hl. exact Hin. }
  apply (out_of_order_trans p a e Hp Ha He Hpa).
  apply (IH a Ha Hl Hs e Hin).
Qed.

Lemma out_of_order_same_key (a p e : Entity) :
  entity_type p = entity_type e -> entity_id p = entity_id e ->
  is_object p = true ->
  out_of_order a p = out_of_order a e.
Proof.
  intros Et Ei Hp.
  destruct p as [p|p|p|p]; try discriminate Hp;
    destruct e as [e|e|e|e]; try discriminate Et;
    cbn [out_of_order entity_type entity_id] in *; rewrite Ei; reflexivity.
Qed.

Lemma repeat_after_of_duplicate (l : list Entity) :
  forall p : Entity,
    is_object p = true ->
    forallb is_object l = true ->
    sorted_after p l = true ->
    (exists e : Entity,
        In e l /\ entity_type p = entity_type e
        /\ entity_id p = entity_id e) ->
    repeat_after p l = true.
Proof.
  intros p Hp Hall Hs (e & Hin & Et & Ei).
  destruct l as [|a l]; [contradiction|].
  cbn [forallb sorted_after repeat_after] in *.
  apply andb_prop in Hall, Hs. destruct Hall as [Ha Hl], Hs as [Hpa Hs].
  apply negb_true_iff in Hpa.
  apply orb_true_iff. left.
  apply out_of_order_antisym; try assumption.
  rewrite (out_of_order_same_key a p e Et Ei Hp).
  destruct Hin as [<-|Hin].
  - destruct a as [a|a|a|a]; try discriminate Ha;
      cbn [out_of_order entity_type entity_id item_type_eqb];
      unfold item_type_eqb; rewrite Z.eqb_refl; apply id_order_irrefl.
  - exact (sorted_after_all l a Ha Hl Hs e Hin).
Qed.

Lemma repeat_after_duplicate (l : list Entity) :
  forall p : Entity,
    repeat_after p l = true ->
    exists (l1 : list Entity) (a b : Entity) (l2 : list Entity),
      p :: l = l1 ++ a :: b :: l2 /\ same_object a b = true.
Proof.
  induction l as [|e l IH]; intros p H; [discriminate H|].
  cbn [repeat_after] in H. apply orb_true_iff in H. destruct H as [H|H].
  - exists [], p, e, l. split; [reflexivity|exact H].
  - destruct (IH e H) as (l1 & a & b & l2 & E & Hs).
    exists (p :: l1), a, b, l2. rewrite E. split; [reflexivity|exact Hs].
Qed.

Lemma multiple_versions_analyze (l : list Entity) :
  multiple_versions (analyze l) = stream_has_repeat l.
Proof.
  destruct l as [|e l]; [reflexivity|].
  unfold analyze. rewrite apply_from_cons.
  rewrite (multiple_versions_apply_from l (apply_item InfoHandler_init e) e
             (last_type_apply_item _ e) (last_id_apply_item _ e)).
  rewrite multiple_versions_apply_item.
  assert (E : version_repeat InfoHandler_init e = false)
    by (destruct e; reflexivity).
  rewrite E. reflexivity.
Qed.

Lemma stream_repeat_of_duplicate (l : list Entity) :
  forallb is_object l = true ->
  stream_sorted l = true ->
  (exists (l1 : list Entity) (p : Entity) (l2 : list Entity) (e : Entity)
          (l3 : list Entity),
      l = l1 ++ p :: l2 ++ e :: l3
      /\ entity_type p = entity_type e /\ entity_id p = entity_id e) ->
  stream_has_repeat l = true.
Proof.
  intros Hall Hs (l1 & p & l2 & e & l3 & -> & Et & Ei).
  induction l1 as [|a l1 IH].
  - cbn [app stream_has_repeat stream_sorted forallb] in *.
    apply andb_prop in Hall. destruct Hall as [Hp Hl].
    apply repeat_after_of_duplicate; try assumption.
    exists e. split; [apply in_or_app; right; left; reflexivity|].
    split; assumption.
  - cbn [app stream_has_repeat stream_sorted forallb] in *.
    apply andb_prop in Hall. destruct Hall as [Ha Hl].
    destruct l1 as [|a' l1]; cbn [app sorted_after repeat_after] in *;
      apply andb_prop in Hs; destruct Hs as [_ Hs];
      apply orb_true_iff; right; apply IH; assumption.
Qed.

(** X20. On a stream of objects only that is ordered,
    [multiple_versions] is true exactly when some object occurs twice,
    anywhere in the stream: two entities of the same kind and id.  In an
    ordered stream the versions of an object are next to each other, so
    the comparison with the one entity before finds every repeat. *)
Theorem multiple_versions_on_ordered_objects (l : list Entity) :
  forallb is_object l = true ->
  ordered (analyze l) = true ->
  (multiple_versions (analyze l) = true
   <-> exists (l1 : list Entity) (p : Entity) (l2 : list Entity)
              (e : Entity) (l3 : list Entity),
         l = l1 ++ p :: l2 ++ e :: l3
         /\ entity_type p = entity_type e
         /\ entity_id p = entity_id e).
Proof.
  intros Hall Hord.
  assert (Hs : stream_sorted l = true).
  { destruct l as [|e l]; [reflexivity|].
    unfold analyze in Hord. rewrite apply_from_cons in Hord.
    rewrite (ordered_apply_from l (apply_item InfoHandler_init e) e
               (last_type_apply_item _ e) (last_id_apply_item _ e)) in Hord.
    apply andb_prop in Hord. destruct Hord as [_ Hord]. exact Hord. }
  rewrite multiple_versions_analyze. split.
  - intro H. destruct l as [|p l]; [discriminate H|].
    cbn [stream_has_repeat] in H.
    destruct (repeat_after_duplicate l p H) as (l1 & a & b & l2 & E & Hab).
    exists l1, a, [], b, l2. split; [exact E|].
    unfold same_object in Hab. rewrite !andb_true_iff in Hab.
    destruct Hab as [[_ Ht] Hi].
    apply item_type_eqb_eq in Ht. apply Z.eqb_eq in Hi. split; assumption.
  - apply stream_repeat_of_duplicate; assumption.
Qed.

(* ================================================================== *)
(** * The file size when the input has no name                         *)
(* ================================================================== *)





(* ================================================================== *)
(** * The further theorems at concrete inputs                          *)
(* ================================================================== *)

Lemma largest_id_is_maximum_witness :
  In (ENode (plain_node 7 0)) [ENode (plain_node (-5) 0); ENode (plain_node 7 0)]
  /\ of_kind node (ENode (plain_node 7 0)) = true
  /\ entity_id (ENode (plain_node 7 0))
     <= largest_id node
          (analyze [ENode (plain_node (-5) 0); ENode (plain_node 7 0)]).
Proof.
  assert (Hin : In (ENode (plain_node 7 0))
                   [ENode (plain_node (-5) 0); ENode (plain_node 7 0)])
    by (right; left; reflexivity).
  split; [exact Hin|split; [reflexivity|]].
  exact (proj1 (proj2 (largest_id_is_maximum node
                         [ENode (plain_node (-5) 0); ENode (plain_node 7 0)]))
               (ENode (plain_node 7 0)) Hin eq_refl).
Defined.

Lemma timestamps_are_extrema_witness :
  In 20 (object_timestamps [ENode (plain_node 1 20); EWay (plain_way 1 30)])
  /\ first_timestamp (analyze [ENode (plain_node 1 20); EWay (plain_way 1 30)])
     <= 20
     <= last_timestamp (analyze [ENode (plain_node 1 20); EWay (plain_way 1 30)]).
Proof.
  assert (Hin : In 20 (object_timestamps
                         [ENode (plain_node 1 20); EWay (plain_way 1 30)]))
    by (left; reflexivity).
  split; [exact Hin|].
  exact (proj1 (timestamps_are_extrema
                  [ENode (plain_node 1 20); EWay (plain_way 1 30)]) 20 Hin).
Defined.

Lemma bounds_is_bounding_box_witness :
  valid_node_locations [ENode (plain_node 1 0)] <> []
  /\ bounding (bounds (analyze [ENode (plain_node 1 0)]))
              (valid_node_locations [ENode (plain_node 1 0)]).
Proof.
  assert (Hne : valid_node_locations [ENode (plain_node 1 0)] <> [])
    by (intro H; discriminate H).
  split; [exact Hne|].
  exact (proj2 (bounds_is_bounding_box [ENode (plain_node 1 0)]) Hne).
Defined.

Lemma catalog_key_prints_one_line_witness :
  In "data.crc32"%string known_values
  /\ prefix "header.option." "data.crc32" = false
  /\ lines_written
       (fst (run (mkCommandFileinfo true false "data.crc32")
                 EmptyString no_file two_options [ENode (plain_node 1 0)]))
     = 1%nat
  /\ snd (run (mkCommandFileinfo true false "data.crc32")
              EmptyString no_file two_options [ENode (plain_node 1 0)])
     = None.
Proof.
  assert (Hin : In "data.crc32"%string known_values).
  { unfold known_values. cbn [In]. repeat first [left; reflexivity | right]. }
  split; [exact Hin|split; [reflexivity|]].
  exact (catalog_key_prints_one_line "data.crc32" EmptyString no_file
           two_options [ENode (plain_node 1 0)] true Hin eq_refl
           (or_intror eq_refl)).
Defined.

Lemma catalog_keys_are_accepted_witness :
  In "data.bbox"%string known_values
  /\ check_get_value true "data.bbox" = ret tt.
Proof.
  assert (Hin : In "data.bbox"%string known_values).
  { unfold known_values. cbn [In]. repeat first [left; reflexivity | right]. }
  split; [exact Hin|].
  exact (proj1 (catalog_keys_are_accepted "data.bbox" Hin)).
Defined.


Lemma json_document_well_formed_witness :
  m_json_output (mkCommandFileinfo true true EmptyString) = true
  /\ (exists doc : list writer_call,
         run (mkCommandFileinfo true true EmptyString) EmptyString no_file
             two_options [ENode (plain_node 1 0)]
         = ([Document doc; Text (Lit nl)], None)
         /\ json_value doc)
  /\ run (mkCommandFileinfo true true EmptyString) EmptyString no_file
         two_options [EWay (plain_way 1 0); EWay (plain_way 1 0)]
     = ([], Some invalid_location_error).
Proof.
  split; [reflexivity|split].
  - exact (json_document_well_formed
             (mkCommandFileinfo true true EmptyString)
             EmptyString no_file two_options [ENode (plain_node 1 0)]
             eq_refl).
  - exact (json_document_well_formed
             (mkCommandFileinfo true true EmptyString)
             EmptyString no_file two_options
             [EWay (plain_way 1 0); EWay (plain_way 1 0)] eq_refl).
Defined.

Lemma history_warning_iff_witness :
  m_json_output (mkCommandFileinfo true false EmptyString) = false
  /\ cmd_get_value (mkCommandFileinfo true false EmptyString) = EmptyString
  /\ In history_warning
        (fst (run (mkCommandFileinfo true false EmptyString) EmptyString
                  no_file two_options
                  [ENode (plain_node 3 0); ENode (plain_node 3 0)])).
Proof.
  split; [reflexivity|split; [reflexivity|]].
  apply (proj2 (proj1 (history_warning_iff
                         (mkCommandFileinfo true false EmptyString)
                         EmptyString no_file two_options
                         [ENode (plain_node 3 0); ENode (plain_node 3 0)]
                         eq_refl eq_refl))).
  split; [reflexivity|split; [reflexivity|]].
  intro H. discriminate H.
Defined.

Lemma timestamp_queries_witness :
  (forall t : Timestamp,
      In t (object_timestamps [EChangeset (plain_changeset 1)]) ->
      end_of_time <= t)
  /\ run (mkCommandFileinfo true false "data.timestamp.first") EmptyString
         no_file two_options [EChangeset (plain_changeset 1)]
     = ([Text (Lit nl)], None).
Proof.
  assert (H : forall t : Timestamp,
             In t (object_timestamps [EChangeset (plain_changeset 1)]) ->
             end_of_time <= t) by (intros t []).
  split; [exact H|].
  exact (proj1 (proj1 (timestamp_queries EmptyString no_file two_options
                         [EChangeset (plain_changeset 1)]) H)).
Defined.

Lemma poly_parse_accepts_witness :
  sample_sections <> []
  /\ sections_ok sample_reader sample_sections
  /\ poly_parse sample_reader "a.poly" sample_poly
     = Done (sections_rings sample_sections).
Proof.
  assert (Hne : sample_sections <> []) by (intro H; discriminate H).
  assert (Hok : sections_ok sample_reader sample_sections).
  { unfold sections_ok, sample_sections.
    apply Forall_cons; [|apply Forall_nil]. cbn [snd].
    apply Forall_cons; [|apply Forall_nil].
    unfold ring_text_ok; cbn [rt_header rt_coordinates List.length].
    split; [intro H; discriminate H|split; [apply le_n|]].
    repeat (apply Forall_cons;
            [split; [intro H; discriminate H|reflexivity]|]).
    apply Forall_nil. }
  split; [exact Hne|split; [exact Hok|]].
  apply (proj2 (poly_parse_accepts sample_reader "a.poly" sample_poly
                  (sections_rings sample_sections))).
  exists sample_sections.
  split; [exact Hne|split; [reflexivity|split; [exact Hok|reflexivity]]].
Defined.

Lemma poly_rings_closed_witness :
  poly_parse sample_reader "a.poly" sample_poly
  = Done (sections_rings sample_sections)
  /\ Forall (fun r : ring =>
               (3 <= List.length (ring_nodes r))%nat
               /\ hd undefined_location (ring_nodes r)
                  = last (ring_nodes r) undefined_location)
            (sections_rings sample_sections).
Proof.
  split; [reflexivity|].
  exact (poly_rings_closed sample_reader "a.poly" sample_poly
           (sections_rings sample_sections) eq_refl).
Defined.

Lemma poly_errors_located_witness :
  poly_parse sample_reader "a.poly" short_poly
  = Failed (error_at "a.poly" 4
              "Expected at least three lines with coordinates")
  /\ ((short_poly = []
       /\ error_at "a.poly" 4 "Expected at least three lines with coordinates"
          = poly_error (String.append "File '"
                          (String.append "a.poly" "' is empty")))
      \/ error_located sample_reader "a.poly" short_poly
           (error_at "a.poly" 4
              "Expected at least three lines with coordinates")).
Proof.
  split; [reflexivity|].
  exact (proj1 (poly_errors_located sample_reader "a.poly" short_poly _)
               eq_refl).
Defined.

Lemma poly_parse_file_empty_witness :
  only_newlines (String.append nl nl) = true
  /\ poly_parse_file sample_reader "a.poly" (Some (String.append nl nl))
     = Failed (poly_error (String.append "File '"
                             (String.append "a.poly" "' is empty"))).
Proof.
  split; [reflexivity|].
  exact (proj2 (proj2 (poly_parse_file_empty sample_reader "a.poly"
                         (Some (String.append nl nl)))
                      (String.append nl nl) eq_refl) eq_refl).
Defined.

Lemma multiple_versions_on_ordered_objects_witness :
  forallb is_object [ENode (plain_node 3 0); ENode (plain_node 3 0);
                     ENode (plain_node 4 0)] = true
  /\ ordered (analyze [ENode (plain_node 3 0); ENode (plain_node 3 0);
                       ENode (plain_node 4 0)]) = true
  /\ exists (l1 : list Entity) (p : Entity) (l2 : list Entity) (e : Entity)
            (l3 : list Entity),
       [ENode (plain_node 3 0); ENode (plain_node 3 0); ENode (plain_node 4 0)]
       = l1 ++ p :: l2 ++ e :: l3
       /\ entity_type p = entity_type e
       /\ entity_id p = entity_id e.
Proof.
  split; [reflexivity|split; [reflexivity|]].
  exact (proj1 (multiple_versions_on_ordered_objects
                  [ENode (plain_node 3 0); ENode (plain_node 3 0);
                   ENode (plain_node 4 0)] eq_refl eq_refl) eq_refl).
Defined.
